(** * Chess-online: role assignment, synchronisation and move submission

    A shallow embedding of the client logic of the repository:
    - [src/types.ts]                 the game and move records;
    - [src/pages/GameRoom.tsx]       the room controller, present in two
                                     versions (modules [GameRoom] and
                                     [GameRoomB] below), followed by an
                                     earlier home page;
    - [src/unnamed/part_000]         the home page with client-side codes;
    - [src/lib/utils.ts]             the visitor's identity;
    - [src/components/CustomChessBoard.tsx]  the board.

    The chess rules library (chess.js) and the hosted database are
    external: the first is an interface ([Chess.Oracle]), the second
    is visible through the calls a handler issues, in order.
    JavaScript numbers are the binary64 numbers of the standard
    library's specification of floating-point arithmetic. *)

From Stdlib Require Import String Ascii List Bool ZArith Lia.
From Stdlib Require Import Floats.SpecFloat.
Import ListNotations.
Open Scope string_scope.
Open Scope list_scope.

(* ================================================================== *)
(** ** Data model ([src/types.ts]) *)

(** [GameState.status] *)
Inductive Status := waiting | active | finished.

(** [GameState.turn] *)
Inductive Turn := white | black.

(** The colour chess.js reports for the side to move: ['w' | 'b']. *)
Inductive Side := w | b.

(** [Player.color]: ['w' | 'b' | 'spectator']. *)
Inductive Role := player (s : Side) | spectator.

Record GameState := mkGameState {
  id : string;
  created_at : string;
  player_white : option string;   (* string | null *)
  player_black : option string;   (* string | null *)
  fen : string;
  status : Status;
  turn : Turn
}.

Record MoveRecord := mkMoveRecord {
  move_id : string;
  game_id : string;
  from_square : string;
  to_square : string;
  fen_after : string;
  move_created_at : string
}.

Definition Status_eqb (a c : Status) : bool :=
  match a, c with
  | waiting, waiting | active, active | finished, finished => true
  | _, _ => false
  end.

Definition Side_eqb (a c : Side) : bool :=
  match a, c with
  | w, w | b, b => true
  | _, _ => false
  end.

(** [x === y] between a role and a side to move. *)
Definition Role_is (r : Role) (s : Side) : bool :=
  match r with
  | player s' => Side_eqb s' s
  | spectator => false
  end.

(** JavaScript [x === userId] for a nullable slot. *)
Definition holds (slot : option string) (userId : string) : bool :=
  match slot with
  | Some u => String.eqb u userId
  | None => false
  end.

(** JavaScript [!x] for [x : string | null]: [null] and the empty
    string are the falsy values. *)
Definition falsy (slot : option string) : bool :=
  match slot with
  | None => true
  | Some u => String.eqb u ""
  end.

(** The order [waiting < active < finished]. *)
Definition rank (s : Status) : nat :=
  match s with
  | waiting => 0
  | active => 1
  | finished => 2
  end.

(* ================================================================== *)
(** ** The rules oracle (chess.js, external) *)

Module Chess.

(** The argument of [chess.move({from, to, promotion})]. *)
Record MoveInput := mkMove {
  from : string;
  to : string;
  promotion : string
}.

(** What the room controller uses of a [Chess] object.  [new] is the
    constructor [new Chess(fen)], which throws on a string it cannot
    parse ([None]); [move] returns the object after the move, or
    [None] where chess.js returns [null] or throws. *)
Class Oracle := {
  t : Type;
  new : string -> option t;
  fen : t -> string;
  turn : t -> Side;
  move : t -> MoveInput -> option t;
  isCheckmate : t -> bool;
  isDraw : t -> bool;
  isStalemate : t -> bool;
  isThreefoldRepetition : t -> bool
}.

End Chess.

(* ================================================================== *)
(** ** Backend calls and React state *)

(** The object given to [supabase.from('games').update(...)]: the
    columns it names. *)
Record GamePatch := mkPatch {
  set_player_white : option string;
  set_player_black : option string;
  set_fen : option string;
  set_status : option Status;
  set_turn : option Turn
}.

(** The object given to [supabase.from('moves').insert(...)]. *)
Record MoveInsert := mkMoveInsert {
  ins_game_id : option string;
  ins_from_square : string;
  ins_to_square : string;
  ins_fen_after : string
}.

(** What the database does with an update of the row. *)
Definition apply_patch (p : GamePatch) (row : GameState) : GameState :=
  mkGameState
    (id row)
    (created_at row)
    (match set_player_white p with Some u => Some u | None => player_white row end)
    (match set_player_black p with Some u => Some u | None => player_black row end)
    (match set_fen p with Some f => f | None => fen row end)
    (match set_status p with Some s => s | None => status row end)
    (match set_turn p with Some c => c | None => turn row end).

Section Room.

Context {O : Chess.Oracle}.

(** Everything a handler does, in program order: state setters of the
    component, calls to the database, and calls to the page.
    [games_update gameId p] is
    [supabase.from('games').update(p).eq('id', gameId)]; console
    output is left out. *)
Inductive Effect :=
| setGame (g : Chess.t)
| setGameState (d : GameState)
| setPlayerRole (r : Role)
| setLoading (l : bool)
| setError (e : string)
| games_update (gameId : option string) (p : GamePatch)
| moves_insert (m : MoveInsert)
| alert (msg : string)
| confetti.

(** The [useState] cells of [GameRoom]. *)
Record Room := mkRoom {
  game : Chess.t;
  gameState : option GameState;
  playerRole : Role;
  loading : bool;
  error : option string
}.

Definition step (r : Room) (e : Effect) : Room :=
  match e with
  | setGame g => mkRoom g (gameState r) (playerRole r) (loading r) (error r)
  | setGameState d => mkRoom (game r) (Some d) (playerRole r) (loading r) (error r)
  | setPlayerRole c => mkRoom (game r) (gameState r) c (loading r) (error r)
  | setLoading l => mkRoom (game r) (gameState r) (playerRole r) l (error r)
  | setError m => mkRoom (game r) (gameState r) (playerRole r) (loading r) (Some m)
  | _ => r
  end.

Definition run (r : Room) (es : list Effect) : Room := fold_left step es r.

Definition is_write (e : Effect) : bool :=
  match e with
  | games_update _ _ | moves_insert _ => true
  | _ => false
  end.

(** The persistence calls of a trace, in order. *)
Definition writes (es : list Effect) : list Effect := filter is_write es.

End Room.

Arguments Effect {O}.
Arguments Room {O}.

(** The result of [supabase.from('games').select('*').eq('id', gameId).single()]. *)
Inductive Response :=
| found (data : GameState)
| no_data
| failed.

(** [!gameId] for the route parameter ([string | undefined]). *)
Definition no_gameId (gameId : option string) : bool := falsy gameId.

Definition could_not_load : string := "Could not load game. It might not exist.".

(** The realtime handlers are the same in both versions of the room. *)
Section Realtime.

Context {O : Chess.Oracle}.

(** Handler of [UPDATE] events on the [games] row.  The updater given
    to [setGame] is applied to the mirror the component holds. *)
Definition on_game_update (r : Room) (newData : GameState) : list Effect :=
  setGameState newData ::
  match Chess.new (fen newData) with
  | None => []
  | Some newGame =>
      setGame (if negb (String.eqb (Chess.fen (game r)) (fen newData))
               then newGame else game r)
      :: match status newData with
         | finished => if Chess.isCheckmate newGame then [confetti] else []
         | _ => []
         end
  end.

(** Handler of [INSERT] events on [moves]. *)
Definition on_move_insert (newMove : MoveRecord) : list Effect :=
  match Chess.new (fen_after newMove) with
  | None => []
  | Some g => [setGame g]
  end.

(** [gameState?.status === s] *)
Definition status_is (gs : option GameState) (s : Status) : bool :=
  match gs with
  | Some d => Status_eqb (status d) s
  | None => false
  end.

Definition turnText (g : Chess.t) : Turn :=
  match Chess.turn g with
  | w => white
  | b => black
  end.

End Realtime.

(* ================================================================== *)
(** ** The room controller, first version
       ([src/pages/GameRoom.tsx], lines 1-336) *)

Module GameRoom.
Section Handlers.

Context {O : Chess.Oracle}.
Variable gameId : option string.
Variable userId : string.

(** The block "Determine Role" of [fetchGame]: the role, the calls
    issued, and [data] as the block leaves it. *)
Definition determine_role (data : GameState) : Role * list Effect * GameState :=
  if holds (player_white data) userId then
    (player w, [], data)
  else if holds (player_black data) userId then
    (player b, [], data)
  else if falsy (player_white data) then
    (player w,
     [games_update gameId
        (mkPatch (Some userId) None None None None)],
     mkGameState (id data) (created_at data) (Some userId)
       (player_black data) (fen data) (status data) (turn data))
  else if falsy (player_black data) then
    (player b,
     [games_update gameId
        (mkPatch None (Some userId) None (Some active) None)],
     mkGameState (id data) (created_at data) (player_white data)
       (Some userId) (fen data) active (turn data))
  else
    (spectator, [], data).

Definition fetchGame (resp : Response) : list Effect :=
  if no_gameId gameId then []
  else
    match resp with
    | found data =>
        let '(role, calls, data') := determine_role data in
        calls ++ [setPlayerRole role; setGameState data'] ++
        match Chess.new (fen data') with
        | Some newGame => [setGame newGame; setLoading false]
        | None => [setError could_not_load; setLoading false]
        end
    | no_data | failed => [setError could_not_load; setLoading false]
    end.

(** The candidate move given to the oracle. *)
Definition candidate (sourceSquare targetSquare piece : string) : Chess.MoveInput :=
  Chess.mkMove sourceSquare targetSquare "q".

Definition new_status (gameCopy : Chess.t) : Status :=
  if Chess.isCheckmate gameCopy || Chess.isDraw gameCopy || Chess.isStalemate gameCopy
  then finished else active.

(** The two calls of [updateGame], in order. *)
Definition updateGame (gameCopy : Chess.t) (sourceSquare targetSquare : string)
  : list Effect :=
  let newFen := Chess.fen gameCopy in
  [ moves_insert (mkMoveInsert gameId sourceSquare targetSquare newFen);
    games_update gameId
      (mkPatch None None (Some newFen) (Some (new_status gameCopy))
         (Some (turnText gameCopy))) ].

Definition onPieceDrop (r : Room) (sourceSquare targetSquare piece : string)
  : bool * list Effect :=
  match playerRole r with
  | spectator => (false, [])
  | player s =>
    if negb (Side_eqb (Chess.turn (game r)) s) then (false, [])
    else if status_is (gameState r) finished then (false, [])
    else if status_is (gameState r) waiting then
      (false, [alert "Wait for an opponent to join!"])
    else
      match Chess.new (Chess.fen (game r)) with
      | None => (false, [])
      | Some fresh =>
        match Chess.move fresh (candidate sourceSquare targetSquare piece) with
        | None => (false, [])
        | Some gameCopy =>
            (true, setGame gameCopy :: updateGame gameCopy sourceSquare targetSquare)
        end
      end
  end.

End Handlers.
End GameRoom.

(* ================================================================== *)
(** ** The room controller, second version
       ([src/pages/GameRoom.tsx], lines 336-644) *)

(** [c.toLowerCase()] on one character.  A character of the model is
    a code unit below 256: the upper-case letters among them are A to
    Z and the letters from 192 to 222 without the sign at 215, each
    32 below its lower-case letter. *)
Definition toLowerCase (c : ascii) : ascii :=
  let n := nat_of_ascii c in
  if ((65 <=? n) && (n <=? 90)
      || (192 <=? n) && (n <=? 214)
      || (216 <=? n) && (n <=? 222))%nat
  then ascii_of_nat (n + 32) else c.

Module GameRoomB.
Section Handlers.

Context {O : Chess.Oracle}.
Variable gameId : option string.
Variable userId : string.

(** "Determine Role": this version leaves [data] as fetched. *)
Definition determine_role (data : GameState) : Role * list Effect * GameState :=
  if holds (player_white data) userId then
    (player w, [], data)
  else if holds (player_black data) userId then
    (player b, [], data)
  else if falsy (player_white data) then
    (player w,
     [games_update gameId
        (mkPatch (Some userId) None None None None)],
     data)
  else if falsy (player_black data) then
    (player b,
     [games_update gameId
        (mkPatch None (Some userId) None (Some active) None)],
     data)
  else
    (spectator, [], data).

Definition fetchGame (resp : Response) : list Effect :=
  if no_gameId gameId then []
  else
    match resp with
    | found data =>
        let '(role, calls, data') := determine_role data in
        calls ++ [setPlayerRole role; setGameState data'] ++
        match Chess.new (fen data') with
        | Some newGame => [setGame newGame; setLoading false]
        | None => [setError could_not_load; setLoading false]
        end
    | no_data | failed => [setError could_not_load; setLoading false]
    end.

(** [piece[1]?.toLowerCase() ?? 'q'] *)
Definition promotion_choice (piece : string) : string :=
  match String.get 1 piece with
  | Some c => String (toLowerCase c) EmptyString
  | None => "q"
  end.

Definition candidate (sourceSquare targetSquare piece : string) : Chess.MoveInput :=
  Chess.mkMove sourceSquare targetSquare (promotion_choice piece).

Definition new_status (gameCopy : Chess.t) : Status :=
  if Chess.isCheckmate gameCopy || Chess.isDraw gameCopy || Chess.isStalemate gameCopy
     || Chess.isThreefoldRepetition gameCopy
  then finished else active.

Definition updateGame (gameCopy : Chess.t) (sourceSquare targetSquare : string)
  : list Effect :=
  let newFen := Chess.fen gameCopy in
  [ moves_insert (mkMoveInsert gameId sourceSquare targetSquare newFen);
    games_update gameId
      (mkPatch None None (Some newFen) (Some (new_status gameCopy))
         (Some (turnText gameCopy))) ].

Definition onPieceDrop (r : Room) (sourceSquare targetSquare piece : string)
  : bool * list Effect :=
  match playerRole r with
  | spectator => (false, [])
  | player s =>
    if negb (Side_eqb (Chess.turn (game r)) s) then (false, [])
    else if status_is (gameState r) finished then (false, [])
    else
      match Chess.new (Chess.fen (game r)) with
      | None => (false, [])
      | Some fresh =>
        match Chess.move fresh (candidate sourceSquare targetSquare piece) with
        | None => (false, [])
        | Some gameCopy =>
            (true, setGame gameCopy :: updateGame gameCopy sourceSquare targetSquare)
        end
      end
  end.

End Handlers.
End GameRoomB.

(* ================================================================== *)
(** ** JavaScript numbers, as far as [createGame] needs them

    A JavaScript number is an IEEE 754 binary64 datum: the
    [spec_float] of the standard library with 53 bits of precision and
    exponents up to 1024; [*] and [+] are [SFmul] and [SFadd], which
    round to nearest, ties to even. *)

(** An integer literal. *)
Definition num (n : Z) : spec_float := binary_normalize 53 1024 n 0 false.

(** The value of a non-negative finite number, counted in units of
    [2^-1074], the smallest positive binary64 number. *)
Definition of_spec (x : spec_float) : Z :=
  match x with
  | S754_finite false m e => (Z.pos m * 2 ^ (e + 1074))%Z
  | _ => 0%Z
  end.

(** [Math.floor(x)] as an integer, for a finite [x >= 0]. *)
Definition Math_floor (x : spec_float) : Z := (of_spec x / 2 ^ 1074)%Z.

(** Zero, or a positive finite number whose exponent is not below the
    smallest one. *)
Definition plain (x : spec_float) : Prop :=
  match x with
  | S754_zero false => True
  | S754_finite false _ e => (-1074 <= e)%Z
  | _ => False
  end.

(** The same rounding written on integers: a non-negative binary64
    number is the integer [N] of units [2^-1074] it consists of; the
    product with an integer and the sum are exact on these integers
    and are then rounded.  The properties below show that [SFmul] and
    [SFadd] compute this, and bound the result with it. *)
Module Double.
Local Open Scope Z_scope.

(** The number 1. *)
Definition one : Z := 2 ^ 1074.

Definition of_integer (n : Z) : Z := n * one.

(** Exponent of the distance between neighbouring binary64 numbers
    around [N > 0]: 53 significant bits, none below the unit. *)
Definition spacing (N : Z) : Z := Z.max (Z.log2 N - 52) 0.

(** Rounding to nearest, ties to even. *)
Definition round (N : Z) : Z :=
  if N <=? 0 then 0
  else
    let g := 2 ^ spacing N in
    let q := N / g in
    let rest := N mod g in
    let up := (g <? 2 * rest) || ((2 * rest =? g) && Z.odd q) in
    (if up then q + 1 else q) * g.

Definition add (N M : Z) : Z := round (N + M).

Definition times (N k : Z) : Z := round (N * k).

(** [m / 2^n] rounded to the nearest integer, ties to even. *)
Definition rne (m n : Z) : Z :=
  let q := m / 2 ^ n in
  let rest := m mod 2 ^ n in
  if (2 ^ n <? 2 * rest) || ((2 * rest =? 2 ^ n) && Z.odd q) then q + 1 else q.

(** The record [shr] holds after shifting [m] right by [k] bits: the
    quotient, the last bit shifted out, and whether a lower one was
    set. *)
Definition shifted (m : Z) (k : nat) : shr_record :=
  match k with
  | O => Build_shr_record m false false
  | S j => Build_shr_record (m / 2 ^ Z.of_nat k)
             (Z.odd (m / 2 ^ Z.of_nat j))
             (negb (m mod 2 ^ Z.of_nat j =? 0))
  end.

Definition digit (d : Z) : ascii := ascii_of_nat (48 + Z.to_nat d).

Fixpoint decimal (fuel : nat) (n : Z) (acc : string) : string :=
  match fuel with
  | O => acc
  | S fuel' =>
      let acc' := String (digit (n mod 10)) acc in
      if n / 10 =? 0 then acc' else decimal fuel' (n / 10) acc'
  end.

(** [n.toString()] for an integer [0 <= n < 10^21]. *)
Definition toString (n : Z) : string := decimal 21 n "".

Definition is_digit (c : ascii) : bool :=
  let n := nat_of_ascii c in ((48 <=? n) && (n <=? 57))%nat.

(** The number a string of decimal digits denotes. *)
Definition value (s : string) : Z :=
  fold_left (fun acc c => 10 * acc + (Z.of_nat (nat_of_ascii c) - 48))
    (list_ascii_of_string s) 0.

(** The integers [z], [z + 1], ... ([n] of them). *)
Fixpoint count_from (z : Z) (n : nat) : list Z :=
  match n with
  | O => []
  | S n' => z :: count_from (z + 1) n'
  end.

(** Four characters, all decimal digits, denoting [n]. *)
Definition four_digits_of (n : Z) (s : string) : bool :=
  ((String.length s =? 4)%nat
   && forallb is_digit (list_ascii_of_string s)
   && (value s =? n)).

End Double.

(** What [Math.random()] may return: a binary64 number that is at
    least 0 and less than 1. *)
Definition random_result (u : spec_float) : Prop :=
  valid_binary 53 1024 u = true
  /\ SFleb (num 0) u = true
  /\ SFltb u (num 1) = true.

(* ================================================================== *)
(** ** The home page: game creation *)

Definition starting_position : string :=
  "rnbqkbnr/pppppppp/8/8/8/8/PPPPPPPP/RNBQKBNR w KQkq - 0 1".

(** The object given to [supabase.from('games').insert(...)];
    [player_black] is not among its keys. *)
Record GameInsert := mkGameInsert {
  new_id : option string;
  new_player_white : string;
  new_status : Status;
  new_fen : string;
  new_turn : Turn
}.

(** Modelled from the spec: the table definition is not part of the
    sources.  The row an insert creates takes the named columns from
    the object; [player_black], a nullable identifier (spec 6), is
    null; the key is the one given or else one the backend assigns;
    the backend supplies the creation time. *)
Definition stored_row (assigned_id now : string) (g : GameInsert) : GameState :=
  mkGameState
    (match new_id g with Some i => i | None => assigned_id end)
    now
    (Some (new_player_white g))
    None
    (new_fen g)
    (new_status g)
    (new_turn g).

(** [src/unnamed/part_000]: the code is drawn on the client. *)
Module Home.

(** [Math.floor(1000 + Math.random() * 9000)], where [u] is the
    number [Math.random()] returned. *)
Definition gameId_number (u : spec_float) : Z :=
  Math_floor (SFadd 53 1024 (num 1000) (SFmul 53 1024 u (num 9000))).

Definition gameId (u : spec_float) : string := Double.toString (gameId_number u).

(** The insert of [createGame]. *)
Definition createGame (userId : string) (u : spec_float) : GameInsert :=
  mkGameInsert (Some (gameId u)) userId waiting starting_position white.

End Home.

(** The earlier home page ([src/pages/GameRoom.tsx], from line 645):
    the backend assigns the identifier. *)
Module HomeB.

Definition createGame (userId : string) : GameInsert :=
  mkGameInsert None userId waiting starting_position white.

End HomeB.

(* ================================================================== *)
(** ** A table of chess facts, used to run the handlers on examples

    One short game, each position written as chess.js serialises it
    (no double pawn step, so no en-passant field):
    1. f3 e6 2. g3 d6 3. g4 Qh4 mate.  An object remembers the moves
    played on it, which its position string does not show.  The table
    knows these six moves and no other; the examples use it for what
    holds in chess: the six moves are legal, the pawn move e2-e5 is
    not, the last position is checkmate, and none of the positions is
    drawn. *)

Module Sample.

Definition p0 := starting_position.
Definition p1 := "rnbqkbnr/pppppppp/8/8/8/5P2/PPPPP1PP/RNBQKBNR b KQkq - 0 1".
Definition p2 := "rnbqkbnr/pppp1ppp/4p3/8/8/5P2/PPPPP1PP/RNBQKBNR w KQkq - 0 2".
Definition p3 := "rnbqkbnr/pppp1ppp/4p3/8/8/5PP1/PPPPP2P/RNBQKBNR b KQkq - 0 2".
Definition p4 := "rnbqkbnr/ppp2ppp/3pp3/8/8/5PP1/PPPPP2P/RNBQKBNR w KQkq - 0 3".
Definition p5 := "rnbqkbnr/ppp2ppp/3pp3/8/6P1/5P2/PPPPP2P/RNBQKBNR b KQkq - 0 3".
Definition p6 := "rnb1kbnr/ppp2ppp/3pp3/8/6Pq/5P2/PPPPP2P/RNBQKBNR w KQkq - 1 4".

(** position, source, destination, resulting position *)
Definition line : list (string * string * string * string) :=
  [ (p0, "f2", "f3", p1); (p1, "e7", "e6", p2); (p2, "g2", "g3", p3);
    (p3, "d7", "d6", p4); (p4, "g3", "g4", p5); (p5, "d8", "h4", p6) ].

Definition known (f : string) : bool :=
  existsb (String.eqb f) [p0; p1; p2; p3; p4; p5; p6].

(** The active-colour field of a position string: the character after
    the first space. *)
Fixpoint active_colour (f : string) : Side :=
  match f with
  | String " " (String "b" _) => b
  | String " " _ => w
  | String _ rest => active_colour rest
  | EmptyString => w
  end.

Definition obj : Type := string * list Chess.MoveInput.

Definition play (g : obj) (m : Chess.MoveInput) : option obj :=
  match find (fun '(f, a, z, _) =>
                String.eqb f (fst g) && String.eqb a (Chess.from m)
                && String.eqb z (Chess.to m)) line with
  | Some (_, _, _, f') => Some (f', snd g ++ [m])
  | None => None
  end.

#[export] Instance rules : Chess.Oracle := {|
  Chess.t := obj;
  Chess.new f := if known f then Some (f, []) else None;
  Chess.fen g := fst g;
  Chess.turn g := active_colour (fst g);
  Chess.move := play;
  Chess.isCheckmate g := String.eqb (fst g) p6;
  Chess.isDraw _ := false;
  Chess.isStalemate _ := false;
  Chess.isThreefoldRepetition _ := false
|}.

(** The object at position [f] on which [played] was played. *)
Definition object (f : string) (played : list Chess.MoveInput) : Chess.t := (f, played).

Definition alice := "3f2a9c1e-alice".
Definition bob := "7d4b8e2f-bob".
Definition carol := "c0a1e5d3-carol".

(** A room in the state the component starts in. *)
Definition fresh_room : Room := mkRoom (object p0 []) None spectator true None.

Definition record (white black : option string) (f : string) (s : Status) (c : Turn)
  : GameState :=
  mkGameState "4821" "2024-01-01T00:00:00Z" white black f s c.

End Sample.

Module Scenes.
Import Sample.

(** Both players seated, white to move in the starting position. *)
Definition seated (role : Role) (s : Status) : Room :=
  mkRoom (object p0 []) (Some (record (Some alice) (Some bob) p0 s white)) role false None.

(** White has played f2-f3 in this tab: the mirror remembers the move. *)
Definition after_f3 : Room :=
  mkRoom (object p1 [Chess.mkMove "f2" "f3" "q"])
    (Some (record (Some alice) (Some bob) p0 active white)) (player w) false None.

Definition echo : GameState := record (Some alice) (Some bob) p1 active black.
Definition reply : GameState := record (Some alice) (Some bob) p2 active white.

(** The record after 3... Qh4 mate. *)
Definition mated : GameState := record (Some alice) (Some bob) p6 finished white.

(** A finished game whose black slot has been emptied. *)
Definition orphaned : GameState := record (Some alice) None p6 finished white.

End Scenes.

(* ================================================================== *)
(** ** The database and two rooms together

    The row of one game, the move log, the rooms of the white and of
    the black player (first version), and for each room the calls it
    has issued that have not reached the database yet.  A call that
    lands changes the row or the log, and the change is pushed to
    both rooms.  The two calls of [updateGame] leave the outbox one
    after the other, as the [await]s order them. *)

Module Table.
Section World.

Context {O : Chess.Oracle}.
Variable gameId : option string.

Record World := mkWorld {
  row : GameState;
  log : list MoveInsert;
  white_room : Room;
  black_room : Room;
  white_calls : list Effect;
  black_calls : list Effect
}.

Inductive Event :=
| drop (who : Side) (sourceSquare targetSquare piece : string)
| land (who : Side).

Definition inserted (m : MoveInsert) : MoveRecord :=
  mkMoveRecord "" (match ins_game_id m with Some i => i | None => "" end)
    (ins_from_square m) (ins_to_square m) (ins_fen_after m) "".

Definition land_call (c : Effect) (wd : World) : World :=
  match c with
  | games_update _ p =>
      let row' := apply_patch p (row wd) in
      mkWorld row' (log wd)
        (run (white_room wd) (on_game_update (white_room wd) row'))
        (run (black_room wd) (on_game_update (black_room wd) row'))
        (white_calls wd) (black_calls wd)
  | moves_insert m =>
      mkWorld (row wd) (log wd ++ [m])
        (run (white_room wd) (on_move_insert (inserted m)))
        (run (black_room wd) (on_move_insert (inserted m)))
        (white_calls wd) (black_calls wd)
  | _ => wd
  end.

Definition exec (wd : World) (e : Event) : World :=
  match e with
  | drop w a z pc =>
      let es := snd (GameRoom.onPieceDrop gameId (white_room wd) a z pc) in
      mkWorld (row wd) (log wd) (run (white_room wd) es) (black_room wd)
        (white_calls wd ++ writes es) (black_calls wd)
  | drop b a z pc =>
      let es := snd (GameRoom.onPieceDrop gameId (black_room wd) a z pc) in
      mkWorld (row wd) (log wd) (white_room wd) (run (black_room wd) es)
        (white_calls wd) (black_calls wd ++ writes es)
  | land w =>
      match white_calls wd with
      | [] => wd
      | c :: rest =>
          land_call c (mkWorld (row wd) (log wd) (white_room wd) (black_room wd)
                         rest (black_calls wd))
      end
  | land b =>
      match black_calls wd with
      | [] => wd
      | c :: rest =>
          land_call c (mkWorld (row wd) (log wd) (white_room wd) (black_room wd)
                         (white_calls wd) rest)
      end
  end.

Definition play (wd : World) (es : list Event) : World := fold_left exec es wd.

(** Nothing is on its way, and both rooms hold the row as their copy
    of the record. *)
Definition settled (wd : World) : Prop :=
  gameState (white_room wd) = Some (row wd)
  /\ gameState (black_room wd) = Some (row wd)
  /\ white_calls wd = []
  /\ black_calls wd = [].

(** A submission whose calls both land before anything else happens. *)
Definition lockstep (who : Side) (sourceSquare targetSquare piece : string) : list Event :=
  [drop who sourceSquare targetSquare piece; land who; land who].

(** A whole game played that way. *)
Definition lockstep_game (ms : list (Side * string * string * string)) : list Event :=
  flat_map (fun '(who, a, z, pc) => lockstep who a z pc) ms.

End World.
End Table.

Module Game.
Import Sample Table.

(** Alice (white) and Bob (black) have both entered game 4821. *)
Definition start : World :=
  mkWorld (record (Some alice) (Some bob) p0 active white) []
    (Scenes.seated (player w) active) (Scenes.seated (player b) active) [] [].

Definition opening : list Event :=
  [ drop w "f2" "f3" "wP"; land w; land w;
    drop b "e7" "e6" "bP"; land b; land b;
    drop w "g2" "g3" "wP"; land w; land w;
    drop b "d7" "d6" "bP"; land b; land b ].

(** Every call lands before the next move is made. *)
Definition in_order : list Event :=
  opening ++
  [ drop w "g3" "g4" "wP"; land w; land w;
    drop b "d8" "h4" "bQ"; land b; land b ].

(** White's third move is in the log, but the update of the row that
    goes with it is still on its way when black mates. *)
Definition mate_first : list Event :=
  opening ++
  [ drop w "g3" "g4" "wP"; land w;
    drop b "d8" "h4" "bQ"; land b; land b ].

Definition late_update : list Event := mate_first ++ [land w].

End Game.

(* ================================================================== *)
(** ** Vocabulary of the properties *)

Section Vocabulary.

Context {O : Chess.Oracle}.

(** The contract of the block "Determine Role", for a step that
    yields a role and the calls it issued.  A slot counts as unset
    when the test [!slot] of the code succeeds. *)
Definition claim_on_read
    (stepf : option string -> string -> GameState -> Role * list Effect * GameState)
    : Prop :=
  forall (gameId : option string) (userId : string) (data : GameState),
    let role := fst (fst (stepf gameId userId data)) in
    let calls := snd (fst (stepf gameId userId data)) in
    (holds (player_white data) userId = true ->
       role = player w /\ calls = [])
    /\ (holds (player_white data) userId = false ->
        holds (player_black data) userId = true ->
        role = player b /\ calls = [])
    /\ (holds (player_white data) userId = false ->
        holds (player_black data) userId = false ->
        falsy (player_white data) = true ->
        role = player w
        /\ calls = [games_update gameId (mkPatch (Some userId) None None None None)])
    /\ (holds (player_white data) userId = false ->
        holds (player_black data) userId = false ->
        falsy (player_white data) = false ->
        falsy (player_black data) = true ->
        role = player b
        /\ calls = [games_update gameId
                      (mkPatch None (Some userId) None (Some active) None)])
    /\ (holds (player_white data) userId = false ->
        holds (player_black data) userId = false ->
        falsy (player_white data) = false ->
        falsy (player_black data) = false ->
        role = spectator /\ calls = []).

(** The oracle, asked on a copy of the local position, does not
    accept the move. *)
Definition oracle_rejects (r : Room) (m : Chess.MoveInput) : Prop :=
  forall fresh, Chess.new (Chess.fen (game r)) = Some fresh -> Chess.move fresh m = None.

(** A submission that is turned down: [false] is returned, no state
    cell changes and no call reaches the database. *)
Definition turned_down (r : Room) (res : bool * list Effect) : Prop :=
  fst res = false /\ run r (snd res) = r /\ writes (snd res) = [].

(** What [onPieceDrop] does with the answer of the oracle; [update]
    is the [updateGame] of the version at hand. *)
Definition settle (update : Chess.t -> list Effect) (answer : option Chess.t)
  : bool * list Effect :=
  match answer with
  | Some gameCopy => (true, setGame gameCopy :: update gameCopy)
  | None => (false, [])
  end.

Definition is_confetti (e : Effect) : bool :=
  match e with
  | confetti => true
  | _ => false
  end.

(** How many times a trace fires the confetti. *)
Definition confetti_count (es : list Effect) : nat := length (filter is_confetti es).

(** The pushed record is a finished game whose position is checkmate. *)
Definition celebrates (d : GameState) : bool :=
  match status d with
  | finished =>
      match Chess.new (fen d) with
      | Some g => Chess.isCheckmate g
      | None => false
      end
  | _ => false
  end.

(** The handler run on pushes that arrive one after another. *)
Fixpoint deliver (r : Room) (pushes : list GameState) : list Effect :=
  match pushes with
  | [] => []
  | d :: rest =>
      let es := on_game_update r d in
      es ++ deliver (run r es) rest
  end.

(** The reading of C7 that binds the effect to the transition: a push
    that follows a finished push and is still finished fires
    nothing. *)
Definition once_per_transition : Prop :=
  forall (r : Room) (d1 d2 : GameState),
    status d1 = finished -> status d2 = finished ->
    confetti_count (on_game_update (run r (on_game_update r d1)) d2) = 0.

(** The statuses a trace writes to the game record. *)
Definition statuses_written (es : list Effect) : list Status :=
  flat_map (fun e => match e with
                     | games_update _ p =>
                         match set_status p with Some s => [s] | None => [] end
                     | _ => []
                     end) es.

(** C5 read on the record a fetch has just received: no update the
    fetch issues moves the status of that record backwards. *)
Definition fetch_never_reverses : Prop :=
  forall (gameId : option string) (userId : string) (data : GameState)
         (target : option string) (p : GamePatch),
    In (games_update target p) (GameRoom.fetchGame gameId userId (found data)) ->
    rank (status data) <= rank (status (apply_patch p data)).

End Vocabulary.

(* ================================================================== *)
(** ** What the room shows ([src/pages/GameRoom.tsx], the values
       computed at each render; the same in both versions) *)

(** Further methods of a [Chess] object, used by the views. *)
Module Rules.

(** A piece symbol of chess.js: ['p' | 'n' | 'b' | 'r' | 'q' | 'k']. *)
Inductive PieceSymbol := pawn | knight | bishop | rook | queen | king.

(** What [chess.get(square)] returns for an occupied square. *)
Record Piece := mkPiece {
  color : Side;
  type : PieceSymbol
}.

(** [inCheck()]; [moves({square, verbose: true})], of which the code
    reads the destination [to] of each move (the list keeps their
    order); [get(square)], which is falsy on an empty square. *)
Class Views {O : Chess.Oracle} := {
  inCheck : Chess.t -> bool;
  moves : Chess.t -> string -> list string;
  get : Chess.t -> string -> option Piece
}.

Definition letter (s : PieceSymbol) : string :=
  match s with
  | pawn => "p"
  | knight => "n"
  | bishop => "b"
  | rook => "r"
  | queen => "q"
  | king => "k"
  end.

Definition colour_letter (c : Side) : string :=
  match c with
  | w => "w"
  | b => "b"
  end.

End Rules.

(** [c.toUpperCase()] on one character of a piece symbol. *)
Definition toUpperCase (c : ascii) : ascii :=
  let n := nat_of_ascii c in
  if (97 <=? n)%nat && (n <=? 122)%nat then ascii_of_nat (n - 32) else c.

Definition upper_string (s : string) : string :=
  string_of_list_ascii (map toUpperCase (list_ascii_of_string s)).

Section RoomView.

Context {O : Chess.Oracle} {V : Rules.Views}.

Definition isMyTurn (r : Room) : bool :=
  Role_is (playerRole r) (Chess.turn (game r)) && negb (status_is (gameState r) finished).

Definition turnColor (r : Room) : string :=
  match Chess.turn (game r) with
  | w => "White"
  | b => "Black"
  end.

Definition winnerText (r : Room) : string :=
  if status_is (gameState r) finished then
    if Chess.isCheckmate (game r) then
      ("Winner: " ++ match Chess.turn (game r) with w => "Black" | b => "White" end)%string
    else "Game Draw!"
  else "".

Definition getStatusMessage (r : Room) : string :=
  if status_is (gameState r) waiting then "Waiting for opponent..."
  else if status_is (gameState r) finished then winnerText r
  else (turnColor r ++ "'s Turn " ++ (if Rules.inCheck (game r) then "(Check!)" else ""))%string.

(** The props given to [CustomChessBoard]. *)
Definition boardOrientation (r : Room) : Turn :=
  match playerRole r with
  | player b => black
  | _ => white
  end.

Definition arePiecesDraggable (r : Room) : bool :=
  negb (status_is (gameState r) finished)
  && match playerRole r with spectator => false | player _ => true end.

Definition board_fen (r : Room) : string := Chess.fen (game r).

(** The row after the updates among [calls] have reached it. *)
Definition land (calls : list Effect) (row : GameState) : GameState :=
  fold_left (fun acc e => match e with
                          | games_update _ p => apply_patch p acc
                          | _ => acc
                          end) calls row.

(** The name of a side in the messages. *)
Definition side_name (s : Side) : string :=
  match s with
  | w => "White"
  | b => "Black"
  end.

Definition other (s : Side) : Side :=
  match s with
  | w => b
  | b => w
  end.

End RoomView.

(** The table of the examples, seen by the views: the pieces that
    matter in the game of the examples. *)
Module SampleViews.
Import Sample.

(** Destinations of the moves from a square, for the squares used. *)
Definition destinations (g : obj) (square : string) : list string :=
  if String.eqb (fst g) p0 then
    if String.eqb square "f2" then ["f3"; "f4"]
    else if String.eqb square "g1" then ["f3"; "h3"]
    else []
  else if String.eqb (fst g) p5 then
    if String.eqb square "d8" then ["e7"; "f6"; "g5"; "h4"; "d7"]
    else []
  else [].

Definition piece_at (g : obj) (square : string) : option Rules.Piece :=
  if String.eqb (fst g) p0 then
    if String.eqb square "f2" then Some (Rules.mkPiece w Rules.pawn)
    else if String.eqb square "g1" then Some (Rules.mkPiece w Rules.knight)
    else if String.eqb square "e7" then Some (Rules.mkPiece b Rules.pawn)
    else None
  else if String.eqb (fst g) p5 then
    if String.eqb square "d8" then Some (Rules.mkPiece b Rules.queen)
    else if String.eqb square "g4" then Some (Rules.mkPiece w Rules.pawn)
    else None
  else None.

#[export] Instance views : Rules.Views (O := rules) := {|
  Rules.inCheck g := String.eqb (fst g) p6;
  Rules.moves := destinations;
  Rules.get := piece_at
|}.

End SampleViews.

(** The position of the last move record is the position of the row
    (and any position will do while the log is empty). *)
Definition log_matches_row {O : Chess.Oracle} (wd : Table.World) : Prop :=
  last (map ins_fen_after (Table.log wd)) (fen (Table.row wd)) = fen (Table.row wd).

(* ================================================================== *)
(** ** The visitor's identity ([src/lib/utils.ts]) *)

(** [localStorage]: the pairs of key and value it holds.  [getItem]
    answers [null] for a key that is absent. *)
Module Browser.

Definition Storage := list (string * string).

Definition getItem (key : string) (st : Storage) : option string :=
  match find (fun kv => String.eqb (fst kv) key) st with
  | Some kv => Some (snd kv)
  | None => None
  end.

Fixpoint setItem (key value : string) (st : Storage) : Storage :=
  match st with
  | [] => [(key, value)]
  | kv :: rest =>
      if String.eqb (fst kv) key then (key, value) :: rest
      else kv :: setItem key value rest
  end.

Definition removeItem (key : string) (st : Storage) : Storage :=
  filter (fun kv => negb (String.eqb (fst kv) key)) st.

End Browser.

Section Identity.

(** The constant of [src/constants], which is not among the sources:
    any key. *)
Variable USER_ID_KEY : string.

(** [getUserId()], where [uuid] is what [uuidv4()] returns if it is
    called; the result and the storage afterwards. *)
Definition getUserId (uuid : string) (st : Browser.Storage) : string * Browser.Storage :=
  match Browser.getItem USER_ID_KEY st with
  | Some userId =>
      if String.eqb userId "" then (uuid, Browser.setItem USER_ID_KEY uuid st)
      else (userId, st)
  | None => (uuid, Browser.setItem USER_ID_KEY uuid st)
  end.

(** [resetProfile] of [src/unnamed/part_000], where [confirmed] is the
    answer of [window.confirm]: the storage afterwards (the page is
    then loaded again). *)
Definition resetProfile (confirmed : bool) (st : Browser.Storage) : Browser.Storage :=
  if confirmed then Browser.removeItem USER_ID_KEY st else st.

End Identity.

(* ================================================================== *)
(** ** The home page: the handlers around the insert
       ([src/unnamed/part_000]; the earlier page in
       [src/pages/GameRoom.tsx], from line 645) *)

(** [s.trim()].  A character of the model is a code unit below 256;
    the white space and line terminators of JavaScript among them are
    tab, line feed, vertical tab, form feed, carriage return, space
    and the no-break space. *)
Definition white_space (c : ascii) : bool :=
  let n := nat_of_ascii c in
  ((9 <=? n) && (n <=? 13) || (n =? 32) || (n =? 160))%nat.

Fixpoint trimStart (cs : list ascii) : list ascii :=
  match cs with
  | c :: rest => if white_space c then trimStart rest else cs
  | [] => []
  end.

Definition trim (s : string) : string :=
  string_of_list_ascii (rev (trimStart (rev (trimStart (list_ascii_of_string s))))).

(** [x || d] for [x : string | undefined]. *)
Definition or_else (x : option string) (d : string) : string :=
  match x with
  | Some m => if String.eqb m "" then d else m
  | None => d
  end.

Module HomePage.

Inductive Effect :=
| setCreating (v : bool)
| setErrorMsg (v : option string)
| games_insert (g : GameInsert)
| navigate (path : string).

Record Page := mkPage {
  joinId : string;
  creating : bool;
  errorMsg : option string
}.

Definition step (p : Page) (e : Effect) : Page :=
  match e with
  | setCreating v => mkPage (joinId p) v (errorMsg p)
  | setErrorMsg v => mkPage (joinId p) (creating p) v
  | games_insert _ => p
  | navigate _ => p
  end.

Definition run (p : Page) (es : list Effect) : Page := fold_left step es p.

(** What the awaited insert gives: the row, an error (returned by the
    client or thrown) with its [code] and [message] if it has them, or
    neither row nor error. *)
Inductive Answer :=
| row (data : GameState)
| error (code message : option string)
| neither.

Definition collision : string := "Game ID collision, please try again.".
Definition no_connection : string := "Failed to create game. Please check your connection.".

(** [createGame] of [src/unnamed/part_000]. *)
Definition createGame (userId : string) (u : spec_float) (ans : Answer) : list Effect :=
  [setCreating true; setErrorMsg None; games_insert (Home.createGame userId u)]
  ++ match ans with
     | row data => [navigate ("/game/" ++ id data)%string]
     | error code message =>
         [ setErrorMsg (Some (if holds code "23505" then collision
                              else or_else message no_connection));
           setCreating false ]
     | neither => []
     end.

(** [createGame] of the earlier page. *)
Definition createGameB (userId : string) (ans : Answer) : list Effect :=
  [setCreating true; setErrorMsg None; games_insert (HomeB.createGame userId)]
  ++ match ans with
     | row data => [navigate ("/game/" ++ id data)%string]
     | error code message =>
         [ setErrorMsg (Some (or_else message no_connection)); setCreating false ]
     | neither => []
     end.

(** [joinGame], the same in both pages. *)
Definition joinGame (p : Page) : list Effect :=
  if String.eqb (trim (joinId p)) "" then []
  else [navigate ("/game/" ++ trim (joinId p))%string].

(** The [disabled] attribute of the join button, and the [maxLength]
    of the input. *)
Definition join_disabled (p : Page) : bool :=
  String.eqb (joinId p) "" || (String.length (joinId p) <? 4)%nat.

Definition maxLength : nat := 4.

Definition is_navigate (e : Effect) : bool :=
  match e with
  | navigate _ => true
  | _ => false
  end.

Definition is_insert (e : Effect) : bool :=
  match e with
  | games_insert _ => true
  | _ => false
  end.

End HomePage.

(* ================================================================== *)
(** ** The board ([src/components/CustomChessBoard.tsx]) *)

Module Board.

(** The three backgrounds a square is given. *)
Inductive Style := capture_hint | move_hint | selected.

(** [optionSquares]: an object from squares to styles, as the list of
    its keys with their values; an assignment replaces the value of a
    key that is there and adds the key at the end otherwise. *)
Definition Squares := list (string * Style).

Fixpoint assign (key : string) (v : Style) (m : Squares) : Squares :=
  match m with
  | [] => [(key, v)]
  | kv :: rest =>
      if String.eqb (fst kv) key then (key, v) :: rest
      else kv :: assign key v rest
  end.

Definition style_of (key : string) (m : Squares) : option Style :=
  match find (fun kv => String.eqb (fst kv) key) m with
  | Some kv => Some (snd kv)
  | None => None
  end.

(** A handler returns, or an exception leaves it. *)
Inductive Outcome (A : Type) :=
| done (a : A)
| thrown.

Arguments done {A} a.
Arguments thrown {A}.

Record Props := mkProps {
  fen : string;
  arePiecesDraggable : bool;
  boardOrientation : Turn
}.

(** A call of the [onPieceDrop] of the props. *)
Record Call := mkCall {
  sourceSquare : string;
  targetSquare : string;
  piece : string
}.

Section Component.

Context {O : Chess.Oracle} {V : Rules.Views}.

Record State := mkState {
  game : Chess.t;
  moveFrom : option string;
  optionSquares : Squares
}.

(** The component function evaluates [new Chess(fen)] as the argument
    of [useState] at every render; the first render keeps the
    object. *)
Definition mount (props : Props) : Outcome State :=
  match Chess.new (fen props) with
  | Some g => done (mkState g None [])
  | None => thrown
  end.

(** The effect that follows a change of [fen]. *)
Definition sync (props : Props) (st : State) : State :=
  match Chess.new (fen props) with
  | Some newGame => mkState newGame None []
  | None => st
  end.

(** A later render with the props [next], after a render with
    [props]. *)
Definition render (props next : Props) (st : State) : Outcome State :=
  match Chess.new (fen next) with
  | None => thrown
  | Some _ =>
      done (if String.eqb (fen props) (fen next) then st else sync next st)
  end.

(** The background of the destination [to] of a move from [square];
    without a piece on [square] the comparison reads the colour of
    nothing. *)
Definition hint (g : Chess.t) (square to : string) : Outcome Style :=
  match Rules.get g to with
  | None => done move_hint
  | Some target =>
      match Rules.get g square with
      | None => thrown
      | Some own =>
          done (if Side_eqb (Rules.color target) (Rules.color own)
                then move_hint else capture_hint)
      end
  end.

Fixpoint hints (g : Chess.t) (square : string) (moves : list string)
    (newSquares : Squares) : Outcome Squares :=
  match moves with
  | [] => done newSquares
  | to :: rest =>
      match hint g square to with
      | done h => hints g square rest (assign to h newSquares)
      | thrown => thrown
      end
  end.

(** [getMoveOptions(square)]: the value given to [setOptionSquares]
    and the result. *)
Definition getMoveOptions (g : Chess.t) (square : string) : Outcome (Squares * bool) :=
  match Rules.moves g square with
  | [] => done ([], false)
  | moves =>
      match hints g square moves [] with
      | done newSquares => done (assign square selected newSquares, true)
      | thrown => thrown
      end
  end.

(** [piece.color + piece.type.toUpperCase()]. *)
Definition pieceString (p : Rules.Piece) : string :=
  (Rules.colour_letter (Rules.color p) ++ upper_string (Rules.letter (Rules.type p)))%string.

(** Steps 2 and 3 of [onSquareClick]: select an own piece, or
    deselect. *)
Definition select (st : State) (square : string) : Outcome (State * list Call) :=
  match Rules.get (game st) square with
  | Some p =>
      if Side_eqb (Rules.color p) (Chess.turn (game st)) then
        match getMoveOptions (game st) square with
        | done (squares, _) => done (mkState (game st) (Some square) squares, [])
        | thrown => thrown
        end
      else done (mkState (game st) None [], [])
  | None => done (mkState (game st) None [], [])
  end.

(** [onSquareClick(square)], where [parent] is the [onPieceDrop] of
    the props: the state afterwards and the calls of [parent].  A
    move that the fresh object refuses, or a string it cannot parse,
    throws. *)
Definition onSquareClick (props : Props) (parent : string -> string -> string -> bool)
    (st : State) (square : string) : Outcome (State * list Call) :=
  if negb (arePiecesDraggable props) then done (st, [])
  else
    match moveFrom st with
    | Some from =>
        if String.eqb from "" then select st square
        else
          match find (fun to => String.eqb to square) (Rules.moves (game st) from) with
          | Some _ =>
              match Rules.get (game st) from with
              | None => thrown
              | Some p =>
                  match Chess.new (Chess.fen (game st)) with
                  | None => thrown
                  | Some fresh =>
                      match Chess.move fresh (Chess.mkMove from square "q") with
                      | None => thrown
                      | Some gameCopy =>
                          if parent from square (pieceString p) then
                            done (mkState gameCopy None [],
                                  [mkCall from square (pieceString p)])
                          else
                            match Chess.new (fen props) with
                            | Some reverted =>
                                done (mkState reverted None [],
                                      [mkCall from square (pieceString p)])
                            | None => thrown
                            end
                      end
                  end
              end
          | None =>
              if String.eqb from square then done (mkState (game st) None [], [])
              else select st square
          end
    | None => select st square
    end.

(** [onPieceDragBegin(piece, sourceSquare)]. *)
Definition onPieceDragBegin (props : Props) (st : State) (pc sourceSq : string)
  : Outcome State :=
  if negb (arePiecesDraggable props) then done st
  else
    match pc with
    | String pieceColor _ =>
        if String.eqb (Rules.colour_letter (Chess.turn (game st))) (String pieceColor "")
        then
          match getMoveOptions (game st) sourceSq with
          | done (squares, _) => done (mkState (game st) (Some sourceSq) squares)
          | thrown => thrown
          end
        else done st
    | EmptyString => done st
    end.

Definition onPieceDragEnd (st : State) : State := st.

(** The [onPieceDrop] given to [Chessboard]: the state afterwards,
    the result and the call of [parent]. *)
Definition onPieceDrop (parent : string -> string -> string -> bool)
    (st : State) (source target pc : string) : State * bool * list Call :=
  if parent source target pc
  then (mkState (game st) None [], true, [mkCall source target pc])
  else (st, false, [mkCall source target pc]).

(** What is given to [Chessboard]. *)
Definition position (st : State) : string := Chess.fen (game st).

(** The states a mounted board gets into, whatever the props and the
    parent are at each render. *)
Inductive reachable : State -> Prop :=
| at_mount props st :
    mount props = done st -> reachable st
| after_render props next st st' :
    reachable st -> render props next st = done st' -> reachable st'
| after_click props parent st square st' calls :
    reachable st -> onSquareClick props parent st square = done (st', calls) ->
    reachable st'
| after_drag_begin props st pc sourceSq st' :
    reachable st -> onPieceDragBegin props st pc sourceSq = done st' -> reachable st'
| after_drag_end st :
    reachable st -> reachable (onPieceDragEnd st)
| after_drop parent st source target pc :
    reachable st -> reachable (fst (fst (onPieceDrop parent st source target pc))).

(** The squares with a background are those [getMoveOptions] gives
    for the selected square in the position shown, and none without a
    selection. *)
Definition hints_fit (st : State) : Prop :=
  match moveFrom st with
  | Some square =>
      exists b, getMoveOptions (game st) square = done (optionSquares st, b)
  | None => optionSquares st = []
  end.

(** A piece of the other colour stands on [to]. *)
Definition enemy_on (g : Chess.t) (square to : string) : bool :=
  match Rules.get g to, Rules.get g square with
  | Some target, Some own => negb (Side_eqb (Rules.color target) (Rules.color own))
  | _, _ => false
  end.

End Component.
End Board.

(** The board as the first version of the room renders it. *)
Definition board_props {O : Chess.Oracle} (r : Room) : Board.Props :=
  Board.mkProps (board_fen r) (arePiecesDraggable r) (boardOrientation r).

(* ================================================================== *)
(** ** A second table of chess facts: a pawn about to promote

    White: king a1, pawn a7; Black: king h7; White to move.  The
    table knows the four promotions on a8 and no other move: for
    chess.js the promotion piece of a move is one of q, r, b and n.
    None of the positions is check, mate or drawn. *)

Module Endgame.

Definition e0 := "8/P6k/8/8/8/8/8/K7 w - - 0 1".

(** The position after a7-a8 with the piece [letter] on a8. *)
Definition promoted (letter : string) : string :=
  (letter ++ "7/7k/8/8/8/8/8/K7 b - - 0 1")%string.

Definition known (f : string) : bool :=
  existsb (String.eqb f) [e0; promoted "Q"; promoted "R"; promoted "B"; promoted "N"].

Definition play (g : Sample.obj) (m : Chess.MoveInput) : option Sample.obj :=
  if String.eqb (fst g) e0 && String.eqb (Chess.from m) "a7"
     && String.eqb (Chess.to m) "a8"
  then
    if String.eqb (Chess.promotion m) "q" then Some (promoted "Q", snd g ++ [m])
    else if String.eqb (Chess.promotion m) "r" then Some (promoted "R", snd g ++ [m])
    else if String.eqb (Chess.promotion m) "b" then Some (promoted "B", snd g ++ [m])
    else if String.eqb (Chess.promotion m) "n" then Some (promoted "N", snd g ++ [m])
    else None
  else None.

#[export] Instance rules : Chess.Oracle := {|
  Chess.t := Sample.obj;
  Chess.new f := if known f then Some (f, []) else None;
  Chess.fen g := fst g;
  Chess.turn g := Sample.active_colour (fst g);
  Chess.move := play;
  Chess.isCheckmate _ := false;
  Chess.isDraw _ := false;
  Chess.isStalemate _ := false;
  Chess.isThreefoldRepetition _ := false
|}.

Definition object (f : string) (played : list Chess.MoveInput) : Chess.t := (f, played).

(** The room of the white player, who is to move. *)
Definition ready : Room :=
  mkRoom (object e0 [])
    (Some (mkGameState "4821" "2024-01-01T00:00:00Z" (Some Sample.alice) (Some Sample.bob)
             e0 active white))
    (player w) false None.

End Endgame.

(* ================================================================== *)
(** * Properties *)

(** ** Role assignment *)

Section RoleAssignment.

Context {O : Chess.Oracle}.

Lemma holds_spec (slot : option string) (userId : string) :
  holds slot userId = true <-> slot = Some userId.
Proof.
  destruct slot as [u|]; simpl.
  - rewrite String.eqb_eq. split; congruence.
  - split; discriminate.
Qed.

Lemma falsy_spec (slot : option string) :
  falsy slot = true <-> slot = None \/ slot = Some "".
Proof.
  destruct slot as [u|]; simpl.
  - rewrite String.eqb_eq. split.
    + intros ->. now right.
    + intros [H|H]; congruence.
  - split; auto.
Qed.

(** C1 (role assignment, both versions of [fetchGame]).  The step
    returns white when the white slot already holds the identity,
    black when the black slot does; otherwise it claims the white
    slot if that is unset (one update of [player_white]) and
    returns white; otherwise it claims the black slot if that is
    unset (one update of [player_black] together with
    [status := active]) and returns black; otherwise it returns
    spectator and issues no call. *)
Theorem role_assignment :
  claim_on_read GameRoom.determine_role /\ claim_on_read GameRoomB.determine_role.
Proof.
  split; intros gameId userId data;
    unfold GameRoom.determine_role, GameRoomB.determine_role;
    destruct (holds (player_white data) userId) eqn:Hw;
    destruct (holds (player_black data) userId) eqn:Hb;
    destruct (falsy (player_white data)) eqn:Fw;
    destruct (falsy (player_black data)) eqn:Fb;
    cbn; repeat split; intros; try discriminate; reflexivity.
Qed.

End RoleAssignment.

(** At a record with an empty black slot a newcomer becomes black; the
    creator who comes back stays white. *)
Lemma role_assignment_witness :
  let data := Sample.record (Some Sample.alice) None Sample.p0 waiting white in
  (fst (fst (GameRoom.determine_role (O := Sample.rules) (Some "4821") Sample.bob data))
     = player b
   /\ snd (fst (GameRoom.determine_role (O := Sample.rules) (Some "4821") Sample.bob data))
     = [games_update (Some "4821")
          (mkPatch None (Some Sample.bob) None (Some active) None)])
  /\ (fst (fst (GameRoomB.determine_role (O := Sample.rules) (Some "4821") Sample.alice data))
     = player w
   /\ snd (fst (GameRoomB.determine_role (O := Sample.rules) (Some "4821") Sample.alice data))
     = []).
Proof.
  intros data. split.
  - destruct (proj1 (role_assignment (O := Sample.rules)) (Some "4821") Sample.bob data)
      as (_ & _ & _ & H & _).
    apply H; reflexivity.
  - destruct (proj2 (role_assignment (O := Sample.rules)) (Some "4821") Sample.alice data)
      as (H & _).
    apply H; reflexivity.
Defined.

(** A slot that holds the empty string passes the test [!slot] as
    well: the visitor claims it. *)
Lemma empty_string_counts_as_unset :
  fst (fst (GameRoom.determine_role (O := Sample.rules) (Some "4821") Sample.bob
              (Sample.record (Some "") (Some Sample.alice) Sample.p0 active white)))
  = player w.
Proof. reflexivity. Qed.

Section Fetch.

Context {O : Chess.Oracle}.

Lemma writes_app (xs ys : list Effect) : writes (xs ++ ys) = writes xs ++ writes ys.
Proof. apply filter_app. Qed.

Lemma run_app (r : Room) (xs ys : list Effect) : run r (xs ++ ys) = run (run r xs) ys.
Proof. apply fold_left_app. Qed.

(** A trace made of database calls only changes no state cell. *)
Lemma run_writes_only (r : Room) (es : list Effect) :
  writes es = es -> run r es = r.
Proof.
  revert r. induction es as [|e es IH]; intros r H; [reflexivity|].
  unfold writes in H. simpl in H.
  destruct (is_write e) eqn:He.
  - injection H as H. destruct e; try discriminate He; simpl; apply IH; exact H.
  - exfalso.
    assert (Hin : In e (filter is_write es)) by (rewrite H; now left).
    apply filter_In in Hin. destruct Hin as [_ Hw]. congruence.
Qed.

Lemma determine_role_writes (gameId : option string) (userId : string) (data : GameState) :
  let calls := snd (fst (GameRoom.determine_role gameId userId data)) in
  let callsB := snd (fst (GameRoomB.determine_role gameId userId data)) in
  writes calls = calls /\ writes callsB = callsB.
Proof.
  unfold GameRoom.determine_role, GameRoomB.determine_role.
  destruct (holds (player_white data) userId), (holds (player_black data) userId),
    (falsy (player_white data)), (falsy (player_black data)); split; reflexivity.
Qed.

(** [fetchGame] issues the calls of its role block and no other, and
    sets the role the block chose. *)
Lemma fetchGame_calls (gameId : option string) (userId : string)
    (data : GameState) (r : Room) :
  no_gameId gameId = false ->
  writes (GameRoom.fetchGame gameId userId (found data))
    = snd (fst (GameRoom.determine_role gameId userId data))
  /\ playerRole (run r (GameRoom.fetchGame gameId userId (found data)))
     = fst (fst (GameRoom.determine_role gameId userId data))
  /\ writes (GameRoomB.fetchGame gameId userId (found data))
     = snd (fst (GameRoomB.determine_role gameId userId data))
  /\ playerRole (run r (GameRoomB.fetchGame gameId userId (found data)))
     = fst (fst (GameRoomB.determine_role gameId userId data)).
Proof.
  intros Hid.
  destruct (determine_role_writes gameId userId data) as [Hc HcB].
  unfold GameRoom.fetchGame, GameRoomB.fetchGame. rewrite Hid.
  destruct (GameRoom.determine_role gameId userId data) as [[role calls] data'].
  destruct (GameRoomB.determine_role gameId userId data) as [[roleB callsB] dataB].
  simpl in Hc, HcB |- *.
  rewrite !writes_app, !run_app, Hc, HcB.
  rewrite (run_writes_only r calls Hc), (run_writes_only r callsB HcB).
  destruct (Chess.new (fen data')), (Chess.new (fen dataB)); simpl;
    rewrite !app_nil_r; auto.
Qed.

(** What the two claiming updates do to the row they reach. *)
Lemma claim_patches_applied (userId : string) (row : GameState) :
  let claimed_white := apply_patch (mkPatch (Some userId) None None None None) row in
  let claimed_black := apply_patch (mkPatch None (Some userId) None (Some active) None) row in
  (player_white claimed_white = Some userId
   /\ player_black claimed_white = player_black row
   /\ status claimed_white = status row
   /\ fen claimed_white = fen row)
  /\ (player_black claimed_black = Some userId
      /\ player_white claimed_black = player_white row
      /\ status claimed_black = active
      /\ fen claimed_black = fen row).
Proof. repeat split. Qed.

End Fetch.

(** ** Move submission *)

Section MoveSubmission.

Context {O : Chess.Oracle}.

(** C2 (rejections of [onPieceDrop], both versions).  Each of the
    following is enough, whatever the others are, for the submission
    to return [false], leave the board mirror (and every other state
    cell) as it was and issue neither the insert of a move nor the
    update of the game: the role is spectator; the side to move of
    the local position is not the role; the local status is
    finished; in the first version, the local status is waiting; the
    oracle does not accept the move. *)
Theorem rejected_submission_has_no_effect
    (gameId : option string) (r : Room) (sourceSquare targetSquare piece : string) :
  (playerRole r = spectator
   \/ Role_is (playerRole r) (Chess.turn (game r)) = false
   \/ status_is (gameState r) finished = true
   \/ status_is (gameState r) waiting = true
   \/ oracle_rejects r (GameRoom.candidate sourceSquare targetSquare piece) ->
   turned_down r (GameRoom.onPieceDrop gameId r sourceSquare targetSquare piece))
  /\
  (playerRole r = spectator
   \/ Role_is (playerRole r) (Chess.turn (game r)) = false
   \/ status_is (gameState r) finished = true
   \/ oracle_rejects r (GameRoomB.candidate sourceSquare targetSquare piece) ->
   turned_down r (GameRoomB.onPieceDrop gameId r sourceSquare targetSquare piece)).
Proof.
  assert (Hsym : forall x y, Side_eqb x y = Side_eqb y x) by (intros [] []; reflexivity).
  unfold turned_down, oracle_rejects, GameRoom.onPieceDrop, GameRoomB.onPieceDrop, Role_is.
  split; intros H.
  - destruct (playerRole r) as [s|] eqn:Hrole; [|repeat split].
    rewrite (Hsym (Chess.turn (game r)) s).
    destruct (Side_eqb s (Chess.turn (game r))) eqn:Hturn; [|repeat split].
    destruct (status_is (gameState r) finished) eqn:Hfin; [repeat split|].
    destruct (status_is (gameState r) waiting) eqn:Hwait; [repeat split|].
    destruct H as [H|[H|[H|[H|H]]]]; try discriminate H.
    destruct (Chess.new (Chess.fen (game r))) as [fresh|]; [|repeat split].
    rewrite (H fresh eq_refl). repeat split.
  - destruct (playerRole r) as [s|] eqn:Hrole; [|repeat split].
    rewrite (Hsym (Chess.turn (game r)) s).
    destruct (Side_eqb s (Chess.turn (game r))) eqn:Hturn; [|repeat split].
    destruct (status_is (gameState r) finished) eqn:Hfin; [repeat split|].
    destruct H as [H|[H|[H|H]]]; try discriminate H.
    destruct (Chess.new (Chess.fen (game r))) as [fresh|]; [|repeat split].
    rewrite (H fresh eq_refl). repeat split.
Qed.

(** C3 (an accepted move, both versions).  When the role is the side
    to move, the local status is neither finished nor (first
    version) waiting, and the oracle accepts the move on a copy of
    the local position, [onPieceDrop] returns [true] and does three
    things in this order: it replaces the board mirror by the copy
    after the move, it appends a move record with the source square,
    the destination square and the new position, and it updates the
    position, status and turn of the game record; the status written
    is finished when the new position is checkmate, draw or
    stalemate (or, second version, a threefold repetition) and
    active otherwise. *)
Theorem accepted_submission
    (gameId : option string) (r : Room) (sourceSquare targetSquare piece : string)
    (s : Side) (fresh gameCopy gameCopyB : Chess.t) :
  playerRole r = player s ->
  Chess.turn (game r) = s ->
  status_is (gameState r) finished = false ->
  Chess.new (Chess.fen (game r)) = Some fresh ->
  (status_is (gameState r) waiting = false ->
   Chess.move fresh (GameRoom.candidate sourceSquare targetSquare piece) = Some gameCopy ->
   GameRoom.onPieceDrop gameId r sourceSquare targetSquare piece =
     (true,
      [ setGame gameCopy;
        moves_insert
          (mkMoveInsert gameId sourceSquare targetSquare (Chess.fen gameCopy));
        games_update gameId
          (mkPatch None None
             (Some (Chess.fen gameCopy))
             (Some (if Chess.isCheckmate gameCopy || Chess.isDraw gameCopy
                       || Chess.isStalemate gameCopy
                    then finished else active))
             (Some (match Chess.turn gameCopy with w => white | b => black end))) ]))
  /\
  (Chess.move fresh (GameRoomB.candidate sourceSquare targetSquare piece) = Some gameCopyB ->
   GameRoomB.onPieceDrop gameId r sourceSquare targetSquare piece =
     (true,
      [ setGame gameCopyB;
        moves_insert
          (mkMoveInsert gameId sourceSquare targetSquare (Chess.fen gameCopyB));
        games_update gameId
          (mkPatch None None
             (Some (Chess.fen gameCopyB))
             (Some (if Chess.isCheckmate gameCopyB || Chess.isDraw gameCopyB
                       || Chess.isStalemate gameCopyB
                       || Chess.isThreefoldRepetition gameCopyB
                    then finished else active))
             (Some (match Chess.turn gameCopyB with w => white | b => black end))) ])).
Proof.
  intros Hrole Hturn Hfin Hnew.
  unfold GameRoom.onPieceDrop, GameRoomB.onPieceDrop.
  rewrite Hrole, Hturn, Hfin, Hnew.
  assert (Hs : Side_eqb s s = true) by (destruct s; reflexivity).
  rewrite Hs. simpl.
  split.
  - intros Hwait Hmove. rewrite Hwait, Hmove. reflexivity.
  - intros Hmove. rewrite Hmove. reflexivity.
Qed.

(** What the trace of an accepted move means for the state and for
    the database: the mirror is the copy after the move, and the
    calls are the insert followed by the update. *)
Lemma accepted_trace_shape (r : Room) (g : Chess.t) (m : MoveInsert)
    (gameId : option string) (p : GamePatch) :
  let es := [setGame g; moves_insert m; games_update gameId p] in
  game (run r es) = g
  /\ writes es = [moves_insert m; games_update gameId p]
  /\ hd_error es = Some (setGame g).
Proof. repeat split. Qed.

End MoveSubmission.

(** One room for each reason to turn a submission down; the last one
    asks for the pawn move e2-e5, which the rules do not allow. *)
Lemma rejected_submission_witness :
  let drop := GameRoom.onPieceDrop (O := Sample.rules) (Some "4821") in
  let dropB := GameRoomB.onPieceDrop (O := Sample.rules) (Some "4821") in
  turned_down (Scenes.seated spectator active) (drop (Scenes.seated spectator active) "f2" "f3" "wP")
  /\ turned_down (Scenes.seated (player b) active) (drop (Scenes.seated (player b) active) "f2" "f3" "wP")
  /\ turned_down (Scenes.seated (player w) finished) (drop (Scenes.seated (player w) finished) "f2" "f3" "wP")
  /\ turned_down (Scenes.seated (player w) waiting) (drop (Scenes.seated (player w) waiting) "f2" "f3" "wP")
  /\ turned_down (Scenes.seated (player w) active) (drop (Scenes.seated (player w) active) "e2" "e5" "wP")
  /\ turned_down (Scenes.seated (player w) active) (dropB (Scenes.seated (player w) active) "e2" "e5" "wP").
Proof.
  intros drop dropB.
  pose proof (fun r a z => proj1 (rejected_submission_has_no_effect (O := Sample.rules)
                                    (Some "4821") r a z "wP")) as V.
  pose proof (fun r a z => proj2 (rejected_submission_has_no_effect (O := Sample.rules)
                                    (Some "4821") r a z "wP")) as VB.
  refine (conj (V _ _ _ _) (conj (V _ _ _ _) (conj (V _ _ _ _)
            (conj (V _ _ _ _) (conj (V _ _ _ _) (VB _ _ _ _)))))).
  - left. reflexivity.
  - right; left. reflexivity.
  - right; right; left. reflexivity.
  - right; right; right; left. reflexivity.
  - right; right; right; right. intros fresh H. injection H as <-. reflexivity.
  - right; right; right. intros fresh H. injection H as <-. reflexivity.
Defined.

(** White plays f2-f3 from the starting position. *)
Lemma accepted_submission_witness :
  let r := Scenes.seated (player w) active in
  GameRoom.onPieceDrop (O := Sample.rules) (Some "4821") r "f2" "f3" "wP" =
    (true,
     [ setGame (Sample.object Sample.p1 [Chess.mkMove "f2" "f3" "q"]);
       moves_insert (mkMoveInsert (Some "4821") "f2" "f3" Sample.p1);
       games_update (Some "4821")
         (mkPatch None None (Some Sample.p1) (Some active) (Some black)) ])
  /\ GameRoomB.onPieceDrop (O := Sample.rules) (Some "4821") r "f2" "f3" "wP" =
    (true,
     [ setGame (Sample.object Sample.p1 [Chess.mkMove "f2" "f3" "p"]);
       moves_insert (mkMoveInsert (Some "4821") "f2" "f3" Sample.p1);
       games_update (Some "4821")
         (mkPatch None None (Some Sample.p1) (Some active) (Some black)) ]).
Proof.
  intros r.
  pose proof (accepted_submission (O := Sample.rules) (Some "4821") r "f2" "f3" "wP" w
                (Sample.object Sample.p0 [])
                (Sample.object Sample.p1 [Chess.mkMove "f2" "f3" "q"])
                (Sample.object Sample.p1 [Chess.mkMove "f2" "f3" "p"])
                eq_refl eq_refl eq_refl eq_refl) as [H HB].
  split.
  - exact (H eq_refl eq_refl).
  - exact (HB eq_refl).
Defined.

(** ** State synchronisation *)

Section Synchronisation.

Context {O : Chess.Oracle}.

(** C4 (full-record push and the board mirror).  After the handler of
    a pushed record has run, the mirror is the object derived from
    the pushed position when that position is not the one the
    mirror serialises to, and it is the very object it was when the
    two strings are equal. *)
Theorem push_and_mirror (r : Room) (newData : GameState) :
  let r' := run r (on_game_update r newData) in
  (fen newData <> Chess.fen (game r) ->
   forall newGame, Chess.new (fen newData) = Some newGame -> game r' = newGame)
  /\ (fen newData = Chess.fen (game r) -> game r' = game r).
Proof.
  unfold on_game_update. split.
  - intros Hne newGame Hnew. rewrite Hnew.
    destruct (String.eqb (Chess.fen (game r)) (fen newData)) eqn:E.
    + apply String.eqb_eq in E. congruence.
    + simpl. destruct (status newData); [reflexivity|reflexivity|].
      destruct (Chess.isCheckmate newGame); reflexivity.
  - intros Heq. destruct (Chess.new (fen newData)) as [newGame|]; [|reflexivity].
    rewrite Heq, String.eqb_refl. simpl.
    destruct (status newData); [reflexivity|reflexivity|].
    destruct (Chess.isCheckmate newGame); reflexivity.
Qed.

(** A pushed position the oracle cannot parse leaves the mirror alone
    as well: the constructor throws before [setGame] is reached. *)
Lemma push_unparsed (r : Room) (newData : GameState) :
  Chess.new (fen newData) = None ->
  on_game_update r newData = [setGameState newData].
Proof. unfold on_game_update. now intros ->. Qed.

(** The pushed record always becomes the local copy of the record. *)
Lemma push_sets_record (r : Room) (newData : GameState) :
  gameState (run r (on_game_update r newData)) = Some newData.
Proof.
  unfold on_game_update.
  destruct (Chess.new (fen newData)) as [g|]; [|reflexivity].
  simpl. destruct (status newData); try reflexivity.
  destruct (Chess.isCheckmate g); reflexivity.
Qed.

Lemma confetti_of_push (r : Room) (d : GameState) :
  confetti_count (on_game_update r d) = if celebrates d then 1 else 0.
Proof.
  unfold on_game_update, celebrates, confetti_count.
  destruct (Chess.new (fen d)) as [g|]; simpl.
  - destruct (status d); try reflexivity.
    destruct (Chess.isCheckmate g); reflexivity.
  - destruct (status d); reflexivity.
Qed.

Lemma confetti_count_app (xs ys : list Effect) :
  confetti_count (xs ++ ys) = confetti_count xs + confetti_count ys.
Proof. unfold confetti_count. now rewrite filter_app, length_app. Qed.

(** C7, as the code has it.  A pushed record with status finished
    fires the confetti exactly when its position parses to a
    checkmate, and then once for that push; a position that is not
    checkmate (a draw) never fires it.  The handler keeps no memory
    of earlier pushes: over any sequence of pushes the effect fires
    once for every push that is finished with a checkmate
    position. *)
Theorem confetti_per_push (r : Room) (pushes : list GameState) (d : GameState) :
  (status d = finished ->
     (confetti_count (on_game_update r d) = 1 <->
      exists g, Chess.new (fen d) = Some g /\ Chess.isCheckmate g = true)
     /\ confetti_count (on_game_update r d) <= 1)
  /\ confetti_count (deliver r pushes) = length (filter celebrates pushes).
Proof.
  split.
  - intros Hfin. rewrite confetti_of_push. unfold celebrates. rewrite Hfin.
    destruct (Chess.new (fen d)) as [g|].
    + destruct (Chess.isCheckmate g) eqn:Hm; split; try lia; split.
      * intros _. now exists g.
      * reflexivity.
      * discriminate.
      * intros (g' & Hg & Hm'). injection Hg as <-. congruence.
    + split; [|lia]. split; [discriminate|]. intros (g & Hg & _). discriminate.
  - revert r. induction pushes as [|p rest IH]; intros r; [reflexivity|].
    cbn [deliver filter]. rewrite confetti_count_app, confetti_of_push, IH.
    destruct (celebrates p); reflexivity.
Qed.

End Synchronisation.

(** The echo of white's own move keeps the object with its history;
    black's reply replaces it by a fresh object. *)
Lemma push_and_mirror_witness :
  game (run Scenes.after_f3 (on_game_update Scenes.after_f3 Scenes.echo))
    = Sample.object Sample.p1 [Chess.mkMove "f2" "f3" "q"]
  /\ game (run Scenes.after_f3 (on_game_update Scenes.after_f3 Scenes.reply))
    = Sample.object Sample.p2 [].
Proof.
  split.
  - apply (proj2 (push_and_mirror Scenes.after_f3 Scenes.echo)). reflexivity.
  - apply (proj1 (push_and_mirror Scenes.after_f3 Scenes.reply)).
    + discriminate.
    + reflexivity.
Defined.

(** The mated record fires the confetti when it is pushed. *)
Lemma confetti_per_push_witness :
  confetti_count (on_game_update Scenes.after_f3 Scenes.mated) = 1.
Proof.
  apply (proj1 (confetti_per_push Scenes.after_f3 [] Scenes.mated) eq_refl).
  exists (Sample.object Sample.p6 []). split; reflexivity.
Defined.

(** C7, as stated, fails: the same finished record pushed twice (the
    transport may repeat a notification, and any later update of the
    row pushes the record again) fires the confetti twice. *)
Lemma confetti_fires_again :
  confetti_count (deliver Scenes.after_f3 [Scenes.mated; Scenes.mated]) = 2
  /\ ~ once_per_transition (O := Sample.rules).
Proof.
  split; [reflexivity|].
  intros H.
  specialize (H Scenes.after_f3 Scenes.mated Scenes.mated eq_refl eq_refl).
  discriminate H.
Qed.

(** ** The local copy of the record after a claim *)

Section LocalCopy.

Context {O : Chess.Oracle}.

(** First version: the record kept by [setGameState] shows the claim
    the fetch has just made; the answer of the database to the
    update is not looked at. *)
Lemma claim_reflected_locally
    (gameId : option string) (userId : string) (data : GameState) (r : Room) :
  no_gameId gameId = false ->
  holds (player_white data) userId = false ->
  holds (player_black data) userId = false ->
  let r' := run r (GameRoom.fetchGame gameId userId (found data)) in
  (falsy (player_white data) = true ->
     exists d, gameState r' = Some d /\ player_white d = Some userId)
  /\ (falsy (player_white data) = false -> falsy (player_black data) = true ->
     exists d, gameState r' = Some d
               /\ player_black d = Some userId /\ status d = active).
Proof.
  intros Hid Hw Hb. unfold GameRoom.fetchGame, GameRoom.determine_role.
  rewrite Hid, Hw, Hb. split.
  - intros Fw. rewrite Fw. cbn [fen app].
    eexists. split.
    + destruct (Chess.new (fen data)); reflexivity.
    + reflexivity.
  - intros Fw Fb. rewrite Fw, Fb. cbn [fen app].
    eexists. split.
    + destruct (Chess.new (fen data)); reflexivity.
    + split; reflexivity.
Qed.

(** Second version: the record kept is the record as fetched. *)
Lemma fetched_copy_kept
    (gameId : option string) (userId : string) (data : GameState) (r : Room) :
  no_gameId gameId = false ->
  gameState (run r (GameRoomB.fetchGame gameId userId (found data))) = Some data.
Proof.
  intros Hid. unfold GameRoomB.fetchGame, GameRoomB.determine_role. rewrite Hid.
  destruct (holds (player_white data) userId), (holds (player_black data) userId),
    (falsy (player_white data)), (falsy (player_black data));
    cbn [app fen]; destruct (Chess.new (fen data)); reflexivity.
Qed.

End LocalCopy.

(** C6 at the second version of [fetchGame].  Bob opens a game that
    waits for an opponent: the update that claims the black slot is
    issued and the role becomes black, but the record the room keeps
    still has an empty black slot and status waiting. *)
Theorem second_version_keeps_stale_copy :
  let data := Sample.record (Some Sample.alice) None Sample.p0 waiting white in
  let es := GameRoomB.fetchGame (O := Sample.rules) (Some "4821") Sample.bob (found data) in
  writes es = [games_update (Some "4821")
                 (mkPatch None (Some Sample.bob) None (Some active) None)]
  /\ playerRole (run Sample.fresh_room es) = player b
  /\ gameState (run Sample.fresh_room es) = Some data
  /\ player_black data = None
  /\ status data = waiting.
Proof. repeat split. Qed.

(** The first version, at the same input, keeps the claimed record. *)
Lemma first_version_keeps_claimed_copy :
  let data := Sample.record (Some Sample.alice) None Sample.p0 waiting white in
  let es := GameRoom.fetchGame (O := Sample.rules) (Some "4821") Sample.bob (found data) in
  gameState (run Sample.fresh_room es)
    = Some (Sample.record (Some Sample.alice) (Some Sample.bob) Sample.p0 active white).
Proof. reflexivity. Qed.

(** ** The promotion piece *)

Section Promotion.

Context {O : Chess.Oracle}.

(** Second version: the second character of the piece code, in lower
    case, when there is one. *)
Lemma promotion_choice_given (piece : string) (c : ascii) :
  String.get 1 piece = Some c ->
  GameRoomB.promotion_choice piece = String (toLowerCase c) EmptyString.
Proof. unfold GameRoomB.promotion_choice. now intros ->. Qed.

(** First version: in a submission that passes the checks the oracle
    is asked about the move with promotion piece ["q"], whatever the
    piece code, and its answer settles the submission. *)
Lemma first_version_asks_for_queen
    (gameId : option string) (r : Room) (sourceSquare targetSquare piece : string)
    (s : Side) (fresh : Chess.t) :
  playerRole r = player s ->
  Chess.turn (game r) = s ->
  status_is (gameState r) finished = false ->
  status_is (gameState r) waiting = false ->
  Chess.new (Chess.fen (game r)) = Some fresh ->
  GameRoom.candidate sourceSquare targetSquare piece
    = Chess.mkMove sourceSquare targetSquare "q"
  /\ GameRoom.onPieceDrop gameId r sourceSquare targetSquare piece
     = settle (fun g => GameRoom.updateGame gameId g sourceSquare targetSquare)
         (Chess.move fresh (Chess.mkMove sourceSquare targetSquare "q")).
Proof.
  intros Hrole Hturn Hfin Hwait Hnew.
  assert (Hs : Side_eqb s s = true) by (destruct s; reflexivity).
  unfold GameRoom.onPieceDrop, GameRoom.candidate, settle.
  rewrite Hrole, Hturn, Hfin, Hwait, Hnew, Hs. simpl. split; [reflexivity|].
  destruct (Chess.move fresh _); reflexivity.
Qed.

(** Second version: the oracle is asked about the move whose
    promotion piece is [promotion_choice] of the piece code: the
    letter of the code when it has one, ["q"] when it has none. *)
Lemma second_version_asks_for_piece_letter
    (gameId : option string) (r : Room) (sourceSquare targetSquare piece : string)
    (s : Side) (fresh : Chess.t) :
  playerRole r = player s ->
  Chess.turn (game r) = s ->
  status_is (gameState r) finished = false ->
  Chess.new (Chess.fen (game r)) = Some fresh ->
  GameRoomB.onPieceDrop gameId r sourceSquare targetSquare piece
  = settle (fun g => GameRoomB.updateGame gameId g sourceSquare targetSquare)
      (Chess.move fresh
         (Chess.mkMove sourceSquare targetSquare (GameRoomB.promotion_choice piece)))
  /\ (String.get 1 piece = None -> GameRoomB.promotion_choice piece = "q")
  /\ (forall c, String.get 1 piece = Some c ->
        GameRoomB.promotion_choice piece = String (toLowerCase c) EmptyString).
Proof.
  intros Hrole Hturn Hfin Hnew.
  assert (Hs : Side_eqb s s = true) by (destruct s; reflexivity).
  unfold GameRoomB.onPieceDrop, GameRoomB.candidate, settle.
  rewrite Hrole, Hturn, Hfin, Hnew, Hs. simpl. split.
  - destruct (Chess.move fresh _); reflexivity.
  - unfold GameRoomB.promotion_choice. split.
    + intros ->. reflexivity.
    + intros c ->. reflexivity.
Qed.

End Promotion.

(** C9 at the second version of [onPieceDrop].  White is to move
    with a pawn on a7 and the board submits a7-a8 with the code of the
    pawn, ["wP"], as [onSquareClick] builds it.  The second version
    asks the oracle for the promotion piece ["p"], which is none: the
    submission is turned down and nothing is written.  The first
    version, at the same submission, asks for ["q"] and the pawn
    becomes a queen; the second version does so only when the code
    names the queen. *)
Theorem second_version_refuses_pawn_promotion :
  let r := Endgame.ready in
  let queened := Endgame.object (Endgame.promoted "Q") [Chess.mkMove "a7" "a8" "q"] in
  Board.pieceString (Rules.mkPiece w Rules.pawn) = "wP"
  /\ GameRoomB.candidate "a7" "a8" "wP" = Chess.mkMove "a7" "a8" "p"
  /\ GameRoomB.onPieceDrop (O := Endgame.rules) (Some "4821") r "a7" "a8" "wP" = (false, [])
  /\ GameRoom.onPieceDrop (O := Endgame.rules) (Some "4821") r "a7" "a8" "wP"
     = (true,
        [ setGame queened;
          moves_insert (mkMoveInsert (Some "4821") "a7" "a8" (Endgame.promoted "Q"));
          games_update (Some "4821")
            (mkPatch None None (Some (Endgame.promoted "Q")) (Some active) (Some black)) ])
  /\ GameRoomB.onPieceDrop (O := Endgame.rules) (Some "4821") r "a7" "a8" "wQ"
     = (true,
        [ setGame queened;
          moves_insert (mkMoveInsert (Some "4821") "a7" "a8" (Endgame.promoted "Q"));
          games_update (Some "4821")
            (mkPatch None None (Some (Endgame.promoted "Q")) (Some active) (Some black)) ]).
Proof. intros r queened. repeat split. Qed.

(** With the two-letter codes of the board, the second version passes
    on the letter of the piece that moves. *)
Lemma second_version_passes_piece_letter :
  GameRoomB.candidate "e7" "e8" "wP" = Chess.mkMove "e7" "e8" "p"
  /\ GameRoomB.candidate "e7" "e8" "wQ" = Chess.mkMove "e7" "e8" "q".
Proof. split; reflexivity. Qed.

(** ** The order of the statuses *)

Section StatusOrder.

Context {O : Chess.Oracle}.

Lemma statuses_written_app (xs ys : list Effect) :
  statuses_written (xs ++ ys) = statuses_written xs ++ statuses_written ys.
Proof. apply flat_map_app. Qed.

Lemma fetch_statuses (gameId : option string) (userId : string) (data : GameState)
    (s : Status) :
  In s (statuses_written (GameRoom.fetchGame gameId userId (found data)))
  \/ In s (statuses_written (GameRoomB.fetchGame gameId userId (found data))) ->
  s = active /\ falsy (player_black data) = true.
Proof.
  unfold GameRoom.fetchGame, GameRoomB.fetchGame,
    GameRoom.determine_role, GameRoomB.determine_role.
  destruct (no_gameId gameId); [intros [[]|[]]|].
  destruct (holds (player_white data) userId), (holds (player_black data) userId),
    (falsy (player_white data)), (falsy (player_black data));
    cbn [app fen];
    repeat match goal with
           | |- context [Chess.new ?f] => destruct (Chess.new f)
           end;
    cbn; intuition congruence.
Qed.

Lemma move_statuses (gameId : option string) (r : Room)
    (sourceSquare targetSquare piece : string) (s : Status) :
  In s (statuses_written (snd (GameRoom.onPieceDrop gameId r sourceSquare targetSquare piece)))
  \/ In s (statuses_written (snd (GameRoomB.onPieceDrop gameId r sourceSquare targetSquare piece))) ->
  (s = active \/ s = finished) /\ status_is (gameState r) finished = false.
Proof.
  unfold GameRoom.onPieceDrop, GameRoomB.onPieceDrop.
  destruct (playerRole r) as [c|]; [|intros [[]|[]]].
  destruct (negb _); [intros [[]|[]]|].
  destruct (status_is (gameState r) finished); [intros [[]|[]]|].
  destruct (Chess.new (Chess.fen (game r))) as [fresh|].
  2:{ destruct (status_is (gameState r) waiting); intros [[]|[]]. }
  unfold GameRoom.candidate, GameRoomB.candidate, GameRoom.updateGame,
    GameRoomB.updateGame, GameRoom.new_status, GameRoomB.new_status.
  destruct (status_is (gameState r) waiting);
    destruct (Chess.move fresh (Chess.mkMove sourceSquare targetSquare "q")) as [g|];
    destruct (Chess.move fresh _) as [gB|];
    cbn;
    repeat match goal with
           | |- context [if ?c then finished else active] => destruct c
           end;
    intuition congruence.
Qed.

(** C5, as the code has it.  Creation writes waiting.  A fetch writes
    a status only when it claims the black slot, and then it writes
    active whatever status it fetched: this is no step backwards
    when the fetched status is waiting or active.  A move submission
    writes active or finished, and only when the status in the
    room's own copy of the record is not finished: it never writes
    a status earlier than the one the room holds. *)
Theorem status_forward_in_local_view
    (gameId : option string) (userId : string) (u : spec_float) (data : GameState)
    (r : Room) (sourceSquare targetSquare piece : string) (s : Status) :
  (new_status (Home.createGame userId u) = waiting
   /\ new_status (HomeB.createGame userId) = waiting)
  /\ (In s (statuses_written (GameRoom.fetchGame gameId userId (found data)))
      \/ In s (statuses_written (GameRoomB.fetchGame gameId userId (found data))) ->
      s = active
      /\ falsy (player_black data) = true
      /\ (status data <> finished -> rank (status data) <= rank s))
  /\ (In s (statuses_written
              (snd (GameRoom.onPieceDrop gameId r sourceSquare targetSquare piece)))
      \/ In s (statuses_written
                 (snd (GameRoomB.onPieceDrop gameId r sourceSquare targetSquare piece))) ->
      (s = active \/ s = finished)
      /\ forall d, gameState r = Some d ->
                   status d <> finished /\ rank (status d) <= rank s).
Proof.
  split; [split; reflexivity|]. split.
  - intros H. destruct (fetch_statuses _ _ _ _ H) as [-> Hb].
    repeat split; trivial.
    intros Hnf. destruct (status data); simpl; try lia. congruence.
  - intros H. destruct (move_statuses _ _ _ _ _ _ H) as [Hs Hfin].
    split; [exact Hs|]. intros d Hd. rewrite Hd in Hfin. simpl in Hfin.
    destruct (status d); simpl in *; try discriminate;
      destruct Hs as [-> | ->]; simpl; split; (congruence || lia).
Qed.

End StatusOrder.

(** Bob's claim of the black slot writes active over waiting; white's
    first move writes active over active. *)
Lemma status_forward_in_local_view_witness :
  (active = active
   /\ falsy (@None string) = true
   /\ (waiting <> finished -> rank waiting <= rank active))
  /\ ((active = active \/ active = finished)
      /\ forall d,
           gameState (Scenes.seated (player w) active) = Some d ->
           status d <> finished /\ rank (status d) <= rank active).
Proof.
  pose proof (status_forward_in_local_view (O := Sample.rules) (Some "4821")
                Sample.bob (num 0)
                (Sample.record (Some Sample.alice) None Sample.p0 waiting white)
                (Scenes.seated (player w) active) "f2" "f3" "wP" active)
    as (_ & Hfetch & Hmove).
  split.
  - apply Hfetch. left. simpl. now left.
  - apply Hmove. left. simpl. now left.
Defined.

(** C5, as stated, fails.  First: a fetch that finds a finished game
    with an empty black slot claims the slot and writes active over
    finished.  Second: Alice and Bob play from the start; the update
    that goes with Alice's third move reaches the database after Bob's
    mating move has set the status to finished, and sets it back to
    active (and the position back to the one before the mate). *)
Lemma status_can_reverse :
  (let claim := mkPatch None (Some Sample.carol) None (Some active) None in
   In (games_update (Some "4821") claim)
      (GameRoom.fetchGame (O := Sample.rules) (Some "4821") Sample.carol
         (found Scenes.orphaned))
   /\ status Scenes.orphaned = finished
   /\ status (apply_patch claim Scenes.orphaned) = active
   /\ ~ fetch_never_reverses (O := Sample.rules))
  /\ (let before := Table.play (Some "4821") Game.start Game.mate_first in
      let after := Table.play (Some "4821") Game.start Game.late_update in
      status (Table.row before) = finished
      /\ fen (Table.row before) = Sample.p6
      /\ Table.white_calls before
         = [games_update (Some "4821")
              (mkPatch None None (Some Sample.p5) (Some active) (Some black))]
      /\ status (Table.row after) = active
      /\ fen (Table.row after) = Sample.p5).
Proof.
  split.
  - intros claim. repeat split.
    + left. reflexivity.
    + intros H.
      specialize (H (Some "4821") Sample.carol Scenes.orphaned (Some "4821") claim
                    (or_introl eq_refl)).
      simpl in H. lia.
  - repeat split.
Qed.

(** When every call lands before the next move, the same game ends
    with the record finished at the mating position, white to move. *)
Lemma game_played_in_order :
  let final := Table.play (Some "4821") Game.start Game.in_order in
  Table.row final
    = Sample.record (Some Sample.alice) (Some Sample.bob) Sample.p6 finished white
  /\ length (Table.log final) = 6
  /\ Chess.fen (game (Table.white_room final)) = Sample.p6
  /\ Chess.fen (game (Table.black_room final)) = Sample.p6.
Proof. repeat split. Qed.

Section Lockstep.

Context {O : Chess.Oracle}.
Variable gameId : option string.

(** A submission either issues no call and leaves the local record
    alone, or is the trace of an accepted move, made while the local
    status was neither finished nor waiting. *)
Lemma drop_cases (r : Room) (a z pc : string) :
  let es := snd (GameRoom.onPieceDrop gameId r a z pc) in
  (writes es = [] /\ gameState (run r es) = gameState r)
  \/ (exists g, es = setGame g :: GameRoom.updateGame gameId g a z
                /\ status_is (gameState r) finished = false
                /\ status_is (gameState r) waiting = false).
Proof.
  unfold GameRoom.onPieceDrop.
  destruct (playerRole r); [|left; split; reflexivity].
  destruct (negb _); [left; split; reflexivity|].
  destruct (status_is (gameState r) finished) eqn:Hf; [left; split; reflexivity|].
  destruct (status_is (gameState r) waiting) eqn:Hw; [left; split; reflexivity|].
  destruct (Chess.new _) as [fresh|]; [|left; split; reflexivity].
  destruct (Chess.move fresh _) as [g|]; [|left; split; reflexivity].
  right. exists g. repeat split.
Qed.

Lemma insert_keeps_record (r : Room) (m : MoveRecord) :
  gameState (run r (on_move_insert m)) = gameState r.
Proof. unfold on_move_insert. destruct (Chess.new _); reflexivity. Qed.

Lemma new_status_forward (d : GameState) (g : Chess.t) :
  status_is (Some d) finished = false ->
  status_is (Some d) waiting = false ->
  rank (status d) <= rank (GameRoom.new_status g).
Proof.
  unfold GameRoom.new_status. simpl.
  destruct (status d); simpl; try discriminate.
  intros _ _. destruct (_ || _); simpl; lia.
Qed.

(** Moves in lockstep keep the rooms in step with the row, and the
    status of the row never moves backwards. *)
Lemma lockstep_status_forward (wd : Table.World) (who : Side) (a z pc : string) :
  Table.settled wd ->
  let wd' := Table.play gameId wd (Table.lockstep who a z pc) in
  Table.settled wd' /\ rank (status (Table.row wd)) <= rank (status (Table.row wd')).
Proof.
  intros (Hw & Hb & Hcw & Hcb).
  unfold Table.play, Table.lockstep.
  destruct who; cbn [fold_left Table.exec].
  - destruct (drop_cases (Table.white_room wd) a z pc) as [[Hnone Hsame]|(g & Hes & Hf & Hwt)].
    + cbn [Table.white_calls Table.row Table.log Table.white_room Table.black_room
           Table.black_calls].
      rewrite Hcw, Hnone. cbn [app].
      unfold Table.settled.
      cbn [Table.white_calls Table.row Table.white_room Table.black_room Table.black_calls].
      rewrite Hsame. auto.
    + rewrite Hes. unfold GameRoom.updateGame.
      cbn [Table.white_calls Table.row Table.log Table.white_room Table.black_room
           Table.black_calls writes filter is_write app Table.land_call].
      rewrite Hcw.
      cbn [Table.white_calls Table.row Table.log Table.white_room Table.black_room
           Table.black_calls writes filter is_write app Table.land_call].
      unfold Table.settled.
      cbn [Table.white_calls Table.row Table.white_room Table.black_room Table.black_calls].
      rewrite !push_sets_record.
      repeat split; try exact Hcb.
      rewrite Hw in Hf, Hwt.
      cbn [apply_patch set_status status].
      apply new_status_forward; assumption.
  - destruct (drop_cases (Table.black_room wd) a z pc) as [[Hnone Hsame]|(g & Hes & Hf & Hwt)].
    + cbn [Table.white_calls Table.row Table.log Table.white_room Table.black_room
           Table.black_calls].
      rewrite Hcb, Hnone. cbn [app].
      unfold Table.settled.
      cbn [Table.white_calls Table.row Table.white_room Table.black_room Table.black_calls].
      rewrite Hsame. auto.
    + rewrite Hes. unfold GameRoom.updateGame.
      cbn [Table.white_calls Table.row Table.log Table.white_room Table.black_room
           Table.black_calls writes filter is_write app Table.land_call].
      rewrite Hcb.
      cbn [Table.white_calls Table.row Table.log Table.white_room Table.black_room
           Table.black_calls writes filter is_write app Table.land_call].
      unfold Table.settled.
      cbn [Table.white_calls Table.row Table.white_room Table.black_room Table.black_calls].
      rewrite !push_sets_record.
      repeat split; try exact Hcw.
      rewrite Hb in Hf, Hwt.
      cbn [apply_patch set_status status].
      apply new_status_forward; assumption.
Qed.

Lemma lockstep_game_status_forward
    (ms : list (Side * string * string * string)) (wd : Table.World) :
  Table.settled wd ->
  let wd' := Table.play gameId wd (Table.lockstep_game ms) in
  Table.settled wd' /\ rank (status (Table.row wd)) <= rank (status (Table.row wd')).
Proof.
  revert wd. induction ms as [|[[[who a] z] pc] ms IH]; intros wd Hs.
  - split; [exact Hs|apply Nat.le_refl].
  - cbn [Table.lockstep_game flat_map]. unfold Table.play. rewrite fold_left_app.
    destruct (lockstep_status_forward wd who a z pc Hs) as [Hs1 Hle1].
    destruct (IH _ Hs1) as [Hs2 Hle2].
    split; [exact Hs2|].
    eapply Nat.le_trans; [exact Hle1|exact Hle2].
Qed.

End Lockstep.

(** The game of the examples, played in lockstep. *)
Lemma lockstep_game_status_forward_example :
  let final := Table.play (Some "4821") Game.start
                 (Table.lockstep_game
                    [ (w, "f2", "f3", "wP"); (b, "e7", "e6", "bP");
                      (w, "g2", "g3", "wP"); (b, "d7", "d6", "bP");
                      (w, "g3", "g4", "wP"); (b, "d8", "h4", "bQ") ]) in
  Table.settled final /\ status (Table.row final) = finished.
Proof.
  intros final. split; [|reflexivity].
  apply (lockstep_game_status_forward (O := Sample.rules) (Some "4821")).
  repeat split.
Defined.

(** ** Game creation *)

(** C8 (the record a creation inserts).  Whatever the caller's
    identity, the number drawn for the code and the answer of the
    backend, [createGame] of either home page sends exactly one
    insert; the object inserted names the caller as [player_white],
    the status waiting, the standard starting position and the turn
    white, and has no key [player_black]; so the record created has
    status waiting, an empty black slot, the caller in the white
    slot, the standard starting position and white to move. *)
Theorem created_record (userId : string) (u : spec_float) (ans : HomePage.Answer)
    (assigned_id now : string) :
  (exists g,
     filter HomePage.is_insert (HomePage.createGame userId u ans)
       = [HomePage.games_insert g]
     /\ (new_player_white g = userId
         /\ new_status g = waiting
         /\ new_fen g = "rnbqkbnr/pppppppp/8/8/8/8/PPPPPPPP/RNBQKBNR w KQkq - 0 1"
         /\ new_turn g = white)
     /\ (status (stored_row assigned_id now g) = waiting
         /\ player_black (stored_row assigned_id now g) = None
         /\ player_white (stored_row assigned_id now g) = Some userId
         /\ fen (stored_row assigned_id now g)
            = "rnbqkbnr/pppppppp/8/8/8/8/PPPPPPPP/RNBQKBNR w KQkq - 0 1"
         /\ turn (stored_row assigned_id now g) = white))
  /\ (exists g,
        filter HomePage.is_insert (HomePage.createGameB userId ans)
          = [HomePage.games_insert g]
        /\ (new_player_white g = userId
            /\ new_status g = waiting
            /\ new_fen g = "rnbqkbnr/pppppppp/8/8/8/8/PPPPPPPP/RNBQKBNR w KQkq - 0 1"
            /\ new_turn g = white)
        /\ (status (stored_row assigned_id now g) = waiting
            /\ player_black (stored_row assigned_id now g) = None
            /\ player_white (stored_row assigned_id now g) = Some userId
            /\ fen (stored_row assigned_id now g)
               = "rnbqkbnr/pppppppp/8/8/8/8/PPPPPPPP/RNBQKBNR w KQkq - 0 1"
            /\ turn (stored_row assigned_id now g) = white)).
Proof.
  split.
  - exists (Home.createGame userId u). split.
    + unfold HomePage.createGame. rewrite filter_app.
      cbn [filter HomePage.is_insert app].
      destruct ans as [data|code message|]; reflexivity.
    + unfold stored_row, Home.createGame, starting_position.
      cbn [new_status new_player_white new_fen new_turn status player_black player_white
           fen turn].
      repeat split.
  - exists (HomeB.createGame userId). split.
    + unfold HomePage.createGameB. rewrite filter_app.
      cbn [filter HomePage.is_insert app].
      destruct ans as [data|code message|]; reflexivity.
    + unfold stored_row, HomeB.createGame, starting_position.
      cbn [new_status new_player_white new_fen new_turn status player_black player_white
           fen turn].
      repeat split.
Qed.

(** The record a creation inserts is one the oracle of the examples
    reads as the starting position with white to move, and one in
    which a second visitor becomes black. *)
Lemma created_then_joined :
  let created := stored_row "4821" "2024-01-01T00:00:00Z"
                   (HomeB.createGame Sample.alice) in
  created = Sample.record (Some Sample.alice) None Sample.p0 waiting white
  /\ fst (fst (GameRoom.determine_role (O := Sample.rules) (Some "4821") Sample.bob created))
     = player b.
Proof. split; reflexivity. Qed.

(** ** Codes drawn on the client *)

Section Rounding.

Local Open Scope Z_scope.
Import Double.

(** *** Bounds on the rounding written on integers *)

Lemma spacing_nonneg (N : Z) : 0 <= spacing N.
Proof. unfold spacing. lia. Qed.

(** Rounding does not step over a multiple of the spacing, and it
    rounds down when less than half a spacing above one. *)
Lemma round_below (N k slack : Z) :
  0 < N -> 0 <= slack -> 2 * slack < 2 ^ spacing N ->
  N <= k * 2 ^ spacing N + slack ->
  round N <= k * 2 ^ spacing N.
Proof.
  intros HN Hs Hhalf Hle. unfold round.
  destruct (Z.leb_spec N 0) as [?|_]; [lia|].
  set (g := 2 ^ spacing N) in *.
  assert (Hg : 0 < g) by (apply Z.pow_pos_nonneg; [lia|apply spacing_nonneg]).
  pose proof (Z.div_mod N g ltac:(lia)) as Hdm.
  pose proof (Z.mod_pos_bound N g Hg) as Hm.
  set (q := N / g) in *. set (rest := N mod g) in *.
  destruct (Z.lt_ge_cases q k) as [Hq|Hq].
  - destruct (_ || _); nia.
  - assert (q = k) by nia. subst k.
    assert (Hr : rest <= slack) by nia.
    destruct (Z.ltb_spec g (2 * rest)) as [?|_]; [lia|].
    destruct (Z.eqb_spec (2 * rest) g) as [?|_]; [lia|]. simpl. lia.
Qed.

Lemma round_above (N k : Z) :
  0 < N -> k * 2 ^ spacing N <= N -> k * 2 ^ spacing N <= round N.
Proof.
  intros HN Hle. unfold round.
  destruct (Z.leb_spec N 0) as [?|_]; [lia|].
  set (g := 2 ^ spacing N) in *.
  assert (Hg : 0 < g) by (apply Z.pow_pos_nonneg; [lia|apply spacing_nonneg]).
  pose proof (Z.div_mod N g ltac:(lia)) as Hdm.
  pose proof (Z.mod_pos_bound N g Hg) as Hm.
  set (q := N / g) in *. set (rest := N mod g) in *.
  assert (k <= q) by nia.
  destruct (_ || _); nia.
Qed.

Lemma round_nonneg (N : Z) : 0 <= round N.
Proof.
  destruct (Z.lt_ge_cases 0 N) as [HN|HN].
  - pose proof (round_above N 0 HN). lia.
  - unfold round. destruct (Z.leb_spec N 0); lia.
Qed.

Lemma spacing_between (N e : Z) :
  52 <= e -> 2 ^ e <= N < 2 ^ (e + 1) -> spacing N = e - 52.
Proof.
  intros He HN. unfold spacing.
  rewrite (Z.log2_unique N e) by lia. lia.
Qed.

Lemma round_le_next_power (N : Z) : 0 < N -> round N <= 2 ^ (Z.log2 N + 1).
Proof.
  intros HN.
  pose proof (Z.log2_nonneg N) as HL.
  pose proof (Z.log2_spec N HN) as [_ Hlt].
  pose proof (spacing_nonneg N) as Hsp.
  assert (Hsh : spacing N <= Z.log2 N + 1) by (unfold spacing; lia).
  assert (Hpow : 2 ^ (Z.log2 N + 1) = 2 ^ (Z.log2 N + 1 - spacing N) * 2 ^ spacing N).
  { rewrite <- Z.pow_add_r by lia. f_equal. lia. }
  assert (Hg : 0 < 2 ^ spacing N) by (apply Z.pow_pos_nonneg; lia).
  rewrite Hpow. apply round_below with (slack := 0); lia.
Qed.

(** [Math.random() * 9000] is at most the binary64 number just below
    9000: the exact product of the largest argument lies less than
    half a spacing above it. *)
Lemma product_below (u : Z) :
  0 <= u <= (2 ^ 53 - 1) * 2 ^ 1021 ->
  0 <= times u 9000 <= (9000 * 2 ^ 53 - 2 ^ 14) * 2 ^ 1021.
Proof.
  intros Hu. unfold times. split; [apply round_nonneg|].
  assert (HP : 0 < 2 ^ 1021) by (apply Z.pow_pos_nonneg; lia).
  assert (E66 : 2 ^ 1087 = 2 ^ 66 * 2 ^ 1021) by reflexivity.
  assert (E67 : 2 ^ (1087 + 1) = 2 ^ 67 * 2 ^ 1021) by reflexivity.
  assert (E14 : 2 ^ 1035 = 2 ^ 14 * 2 ^ 1021) by reflexivity.
  destruct (Z.lt_ge_cases 0 (u * 9000)) as [Hpos|Hz].
  2:{ unfold round. destruct (Z.leb_spec (u * 9000) 0); lia. }
  destruct (Z.lt_ge_cases (u * 9000) (2 ^ 1087)) as [Hs|Hb].
  - pose proof (round_le_next_power (u * 9000) Hpos) as Hr.
    assert (HL : Z.log2 (u * 9000) < 1087) by (apply Z.log2_lt_pow2; lia).
    assert (Hm : 2 ^ (Z.log2 (u * 9000) + 1) <= 2 ^ 1087)
      by (apply Z.pow_le_mono_r; lia).
    rewrite E66 in Hm. lia.
  - assert (Hsp : spacing (u * 9000) = 1035).
    { rewrite (spacing_between (u * 9000) 1087); lia. }
    pose proof (round_below (u * 9000) (9000 * 2 ^ 39 - 1)
                  ((2 ^ 14 - 9000) * 2 ^ 1021) Hpos) as Hr.
    rewrite Hsp, E14 in Hr. lia.
Qed.

(** [1000 + Math.random() * 9000] lies between 1000 and the binary64
    number just below 10000. *)
Lemma sum_between (x : Z) :
  0 <= x <= (9000 * 2 ^ 53 - 2 ^ 14) * 2 ^ 1021 ->
  1000 * one <= add (of_integer 1000) x <= (10000 * 2 ^ 53 - 2 ^ 14) * 2 ^ 1021.
Proof.
  intros Hx. unfold add, of_integer.
  assert (HP : 0 < 2 ^ 1021) by (apply Z.pow_pos_nonneg; lia).
  assert (E1 : one = 2 ^ 53 * 2 ^ 1021) by reflexivity.
  assert (E62 : 2 ^ 1083 = 2 ^ 62 * 2 ^ 1021) by reflexivity.
  assert (E67 : 2 ^ 1088 = 2 ^ 67 * 2 ^ 1021) by reflexivity.
  assert (E14 : 2 ^ 1035 = 2 ^ 14 * 2 ^ 1021) by reflexivity.
  set (y := 1000 * one + x).
  assert (Hy : 2 ^ 1083 <= y < 2 ^ 1088) by lia.
  assert (Hpos : 0 < y) by lia.
  assert (HL : 1083 <= Z.log2 y <= 1087).
  { split.
    - apply Z.log2_le_pow2; lia.
    - assert (Z.log2 y < 1088) by (apply Z.log2_lt_pow2; lia). lia. }
  assert (Hsp : spacing y = Z.log2 y - 52) by (unfold spacing; lia).
  assert (Hsplit : 2 ^ 1035 = 2 ^ (1035 - spacing y) * 2 ^ spacing y).
  { rewrite <- Z.pow_add_r by lia. f_equal. lia. }
  assert (Hj : 0 < 2 ^ (1035 - spacing y)) by (apply Z.pow_pos_nonneg; lia).
  assert (Hg : 0 < 2 ^ spacing y) by (apply Z.pow_pos_nonneg; lia).
  pose proof (round_below y ((10000 * 2 ^ 39 - 1) * 2 ^ (1035 - spacing y)) 0 Hpos) as Hup.
  pose proof (round_above y (1000 * 2 ^ 39 * 2 ^ (1035 - spacing y)) Hpos) as Hdn.
  rewrite <- !Z.mul_assoc, <- Hsplit, E14 in Hup, Hdn.
  lia.
Qed.

(** *** The operations of the specification compute that rounding *)

(** One step of the shift, on a non-negative mantissa. *)
Lemma shr_1_nonneg (m : Z) (r s : bool) :
  0 <= m ->
  shr_1 (Build_shr_record m r s) = Build_shr_record (m / 2) (Z.odd m) (r || s).
Proof.
  intros Hm. destruct m as [|p|p]; [reflexivity| |lia].
  destruct p as [p|p|]; simpl.
  - f_equal. rewrite Pos2Z.inj_xI. apply Z.div_unique with 1; lia.
  - f_equal. rewrite Pos2Z.inj_xO. apply Z.div_unique with 0; lia.
  - reflexivity.
Qed.

Lemma iter_pos_nat {A} (f : A -> A) (p : positive) (x : A) :
  iter_pos f p x = Nat.iter (Pos.to_nat p) f x.
Proof.
  revert x. induction p as [p IH|p IH|]; intros x; cbn [iter_pos].
  - rewrite !IH. rewrite Pos2Nat.inj_xI.
    replace (S (2 * Pos.to_nat p))%nat with (Pos.to_nat p + (Pos.to_nat p + 1))%nat by lia.
    rewrite !Nat.iter_add. reflexivity.
  - rewrite !IH. rewrite Pos2Nat.inj_xO.
    replace (2 * Pos.to_nat p)%nat with (Pos.to_nat p + Pos.to_nat p)%nat by lia.
    rewrite Nat.iter_add. reflexivity.
  - reflexivity.
Qed.

Lemma mod_pow2_succ (m j : Z) :
  0 <= j ->
  m mod 2 ^ (j + 1) = m mod 2 ^ j + (if Z.odd (m / 2 ^ j) then 2 ^ j else 0).
Proof.
  intros Hj.
  assert (Hg : 0 < 2 ^ j) by (apply Z.pow_pos_nonneg; lia).
  rewrite Z.pow_add_r by lia. change (2 ^ 1) with 2.
  rewrite Z.rem_mul_r by lia.
  pose proof (Zmod_odd (m / 2 ^ j)) as Ho.
  destruct (Z.odd (m / 2 ^ j)); rewrite Ho; lia.
Qed.

Lemma shr_iter (m : Z) (k : nat) :
  0 <= m ->
  Nat.iter k shr_1 (Build_shr_record m false false) = shifted m k.
Proof.
  intros Hm. induction k as [|k IH]; [reflexivity|].
  rewrite Nat.iter_succ, IH.
  destruct k as [|j].
  - cbn [shifted]. rewrite shr_1_nonneg by lia.
    change (Z.of_nat 1) with 1. change (Z.of_nat 0) with 0.
    rewrite Z.pow_1_r, Z.pow_0_r, Z.div_1_r, Z.mod_1_r. reflexivity.
  - cbn [shifted].
    assert (Hg : 0 < 2 ^ Z.of_nat (S j)) by (apply Z.pow_pos_nonneg; lia).
    assert (Hg' : 0 < 2 ^ Z.of_nat j) by (apply Z.pow_pos_nonneg; lia).
    rewrite shr_1_nonneg by (apply Z.div_pos; lia).
    f_equal.
    + rewrite Z.div_div by lia. f_equal.
      replace (Z.of_nat (S (S j))) with (Z.of_nat (S j) + 1) by lia.
      rewrite Z.pow_add_r by lia. reflexivity.
    + replace (Z.of_nat (S j)) with (Z.of_nat j + 1) by lia.
      rewrite (mod_pow2_succ m (Z.of_nat j)) by lia.
      pose proof (Z.mod_pos_bound m (2 ^ Z.of_nat j) Hg') as Hb.
      destruct (Z.odd (m / 2 ^ Z.of_nat j)); simpl.
      * symmetry. apply negb_true_iff. apply Z.eqb_neq. lia.
      * rewrite Z.add_0_r. reflexivity.
Qed.

Lemma rne_0 (m : Z) : rne m 0 = m.
Proof.
  unfold rne. rewrite Z.pow_0_r, Z.div_1_r, Z.mod_1_r. reflexivity.
Qed.

Lemma rne_scale (x n t : Z) : 0 <= n -> 0 <= t -> rne (x * 2 ^ t) (n + t) = rne x n.
Proof.
  intros Hn Ht. unfold rne.
  assert (Hg : 0 < 2 ^ n) by (apply Z.pow_pos_nonneg; lia).
  assert (Hs : 0 < 2 ^ t) by (apply Z.pow_pos_nonneg; lia).
  rewrite Z.pow_add_r by lia.
  rewrite Z.div_mul_cancel_r by lia.
  rewrite Z.mul_mod_distr_r by lia.
  set (q := x / 2 ^ n). set (rest := x mod 2 ^ n).
  replace (2 ^ n * 2 ^ t <? 2 * (rest * 2 ^ t)) with (2 ^ n <? 2 * rest).
  2:{ destruct (Z.ltb_spec (2 ^ n) (2 * rest)), (Z.ltb_spec (2 ^ n * 2 ^ t) (2 * (rest * 2 ^ t)));
      try reflexivity; nia. }
  replace (2 * (rest * 2 ^ t) =? 2 ^ n * 2 ^ t) with (2 * rest =? 2 ^ n).
  2:{ destruct (Z.eqb_spec (2 * rest) (2 ^ n)), (Z.eqb_spec (2 * (rest * 2 ^ t)) (2 ^ n * 2 ^ t));
      try reflexivity; nia. }
  reflexivity.
Qed.

(** What the rounding step of the specification does after a shift by
    [S j] bits. *)
Lemma round_after_shift (m : Z) (j : nat) :
  0 <= m ->
  round_nearest_even (shr_m (shifted m (S j))) (loc_of_shr_record (shifted m (S j)))
  = rne m (Z.of_nat (S j)).
Proof.
  intros Hm. cbn [shifted shr_m loc_of_shr_record]. unfold rne.
  assert (Hg' : 0 < 2 ^ Z.of_nat j) by (apply Z.pow_pos_nonneg; lia).
  replace (Z.of_nat (S j)) with (Z.of_nat j + 1) by lia.
  rewrite (mod_pow2_succ m (Z.of_nat j)) by lia.
  pose proof (Z.mod_pos_bound m (2 ^ Z.of_nat j) Hg') as Hb.
  assert (E : 2 ^ (Z.of_nat j + 1) = 2 * 2 ^ Z.of_nat j)
    by (rewrite Z.pow_add_r by lia; change (2 ^ 1) with 2; lia).
  rewrite E.
  set (g := 2 ^ Z.of_nat j) in *. set (q := m / (2 * g)).
  destruct (Z.odd (m / g)); destruct (Z.eqb_spec (m mod g) 0) as [Hz|Hz];
    cbn [negb round_nearest_even].
  - (* tie *)
    rewrite Hz.
    destruct (Z.ltb_spec (2 * g) (2 * (0 + g))); [lia|].
    destruct (Z.eqb_spec (2 * (0 + g)) (2 * g)); [|lia].
    cbn [orb andb]. rewrite <- Z.negb_odd. destruct (Z.odd q); reflexivity.
  - destruct (Z.ltb_spec (2 * g) (2 * (m mod g + g))); [reflexivity|lia].
  - rewrite Hz.
    destruct (Z.ltb_spec (2 * g) (2 * (0 + 0))); [lia|].
    destruct (Z.eqb_spec (2 * (0 + 0)) (2 * g)); [lia|]. reflexivity.
  - destruct (Z.ltb_spec (2 * g) (2 * (m mod g + 0))); [lia|].
    destruct (Z.eqb_spec (2 * (m mod g + 0)) (2 * g)); [lia|]. reflexivity.
Qed.

Lemma digits2_log2 (p : positive) : Z.pos (digits2_pos p) = Z.log2 (Z.pos p) + 1.
Proof.
  induction p as [p IH|p IH|]; cbn [digits2_pos].
  - rewrite Pos2Z.inj_succ, IH.
    rewrite Pos2Z.inj_xI. rewrite Z.log2_succ_double by lia. lia.
  - rewrite Pos2Z.inj_succ, IH.
    rewrite Pos2Z.inj_xO. rewrite Z.log2_double by lia. lia.
  - reflexivity.
Qed.

Lemma fexp64 (x : Z) : fexp 53 1024 x = Z.max (x - 53) (-1074).
Proof. reflexivity. Qed.

Lemma shr_nonpos (mrs : shr_record) (e n : Z) : n <= 0 -> shr mrs e n = (mrs, e).
Proof. destruct n; [reflexivity|lia|reflexivity]. Qed.

Lemma shr_pos (m e n : Z) :
  0 <= m -> 0 < n ->
  shr (Build_shr_record m false false) e n = (shifted m (Z.to_nat n), e + n).
Proof.
  intros Hm Hn. destruct n as [|p|p]; try lia.
  cbn [shr]. rewrite iter_pos_nat, shr_iter by lia.
  rewrite Z2Nat.inj_pos. reflexivity.
Qed.

Lemma rne_bounds (m n : Z) :
  0 <= m -> 0 <= n -> m / 2 ^ n <= rne m n <= m / 2 ^ n + 1.
Proof.
  intros Hm Hn. unfold rne. destruct (_ || _); lia.
Qed.

(** The rounding of the specification, on a positive mantissa that
    needs no shift to the left. *)
Lemma binary_round_aux_units (m : positive) (e : Z) :
  let e1 := Z.max (Z.log2 (Z.pos m) + 1 + e - 53) (-1074) in
  e <= e1 -> e1 + 1 <= 971 ->
  plain (binary_round_aux 53 1024 false (Z.pos m) e loc_Exact)
  /\ of_spec (binary_round_aux 53 1024 false (Z.pos m) e loc_Exact)
     = rne (Z.pos m) (e1 - e) * 2 ^ (e1 + 1074).
Proof.
  intros e1 Hn Hmax.
  set (d := Z.log2 (Z.pos m) + 1) in *.
  set (n := e1 - e).
  set (m1 := rne (Z.pos m) n).
  assert (Hlog : 2 ^ Z.log2 (Z.pos m) <= Z.pos m < 2 ^ (Z.log2 (Z.pos m) + 1))
    by (apply Z.log2_spec; lia).
  assert (Hd : 0 < d) by (pose proof (Z.log2_nonneg (Z.pos m)); lia).
  (* the first shift and the rounding *)
  assert (Hfirst :
    let '(mrs', e') := shr_fexp 53 1024 (Z.pos m) e loc_Exact in
    round_nearest_even (shr_m mrs') (loc_of_shr_record mrs') = m1 /\ e' = e1).
  { unfold shr_fexp. cbn [Zdigits2 shr_record_of_loc]. rewrite digits2_log2, fexp64.
    fold d. fold e1. fold n.
    destruct (Z.eq_dec n 0) as [Hz|Hz].
    - rewrite shr_nonpos by lia. cbn [shr_m loc_of_shr_record round_nearest_even].
      unfold m1. rewrite Hz, rne_0. split; [reflexivity|lia].
    - rewrite shr_pos by lia.
      destruct (Z.to_nat n) as [|j] eqn:Hj; [lia|].
      rewrite round_after_shift by lia. rewrite <- Hj, Z2Nat.id by lia.
      split; [reflexivity|lia]. }
  unfold binary_round_aux.
  destruct (shr_fexp 53 1024 (Z.pos m) e loc_Exact) as [mrs' e'].
  destruct Hfirst as [-> ->].
  (* the size of the rounded mantissa *)
  assert (Hq : 0 <= m1 <= 2 ^ 53).
  { pose proof (rne_bounds (Z.pos m) n ltac:(lia) ltac:(lia)) as Hb. fold m1 in Hb.
    assert (0 <= Z.pos m / 2 ^ n) by (apply Z.div_pos; [lia|apply Z.pow_pos_nonneg; lia]).
    assert (Z.pos m / 2 ^ n < 2 ^ 53); [|lia].
    apply Z.div_lt_upper_bound; [apply Z.pow_pos_nonneg; lia|].
    rewrite <- Z.pow_add_r by lia.
    eapply Z.lt_le_trans; [apply Hlog|]. apply Z.pow_le_mono_r; lia. }
  unfold shr_fexp. cbn [shr_record_of_loc]. rewrite fexp64.
  destruct m1 as [|p1|p1] eqn:Hm1; [| |lia].
  - cbn [Zdigits2]. rewrite shr_nonpos by lia. cbn [shr_m]. split; [exact I|reflexivity].
  - cbn [Zdigits2]. rewrite digits2_log2.
    destruct (Z.eq_dec (Z.pos p1) (2 ^ 53)) as [Hc|Hc].
    + rewrite Hc. change (Z.log2 (2 ^ 53)) with 53.
      replace (Z.max (53 + 1 + e1 - 53) (-1074) - e1) with 1 by lia.
      cbn [shr iter_pos]. rewrite shr_1_nonneg by lia.
      change (2 ^ 53 / 2) with (2 ^ 52). cbn [shr_m].
      change (2 ^ 52) with (Z.pos (2 ^ 52)) at 1 2.
      replace (e1 + 1 <=? 1024 - 53) with true by (symmetry; apply Z.leb_le; lia).
      split; [cbn [plain]; lia|].
      cbn [of_spec]. replace (e1 + 1 + 1074) with (1 + (e1 + 1074)) by lia.
      rewrite Z.pow_add_r by lia. change (Z.pos (2 ^ 52)) with (2 ^ 52).
      change (2 ^ 53) with (2 ^ 52 * 2 ^ 1). lia.
    + assert (Hl : Z.log2 (Z.pos p1) < 53) by (apply Z.log2_lt_pow2; lia).
      rewrite shr_nonpos by lia. cbn [shr_m].
      replace (e1 <=? 1024 - 53) with true by (symmetry; apply Z.leb_le; lia).
      split; [cbn [plain]; lia|reflexivity].
Qed.

(** [Double.round] is the rounding of the quotient by the spacing. *)
Lemma round_rne (N : Z) :
  0 < N -> Double.round N = rne N (Double.spacing N) * 2 ^ Double.spacing N.
Proof.
  intros HN. unfold Double.round, rne.
  destruct (Z.leb_spec N 0); [lia|reflexivity].
Qed.

(** The rounding of the specification computes [Double.round]: the
    mantissa [m] at exponent [e] and the integer [x * 2^t] denote the
    same number when [m = x * 2^k] and [e + 1074 = t - k]. *)
Lemma binary_round_aux_round (m : positive) (e x k t : Z) :
  Z.pos m = x * 2 ^ k -> 0 < x -> 0 <= k -> 0 <= t ->
  e + 1074 = t - k ->
  t <= Double.spacing (x * 2 ^ t) ->
  Double.spacing (x * 2 ^ t) <= 2044 ->
  plain (binary_round_aux 53 1024 false (Z.pos m) e loc_Exact)
  /\ of_spec (binary_round_aux 53 1024 false (Z.pos m) e loc_Exact)
     = Double.round (x * 2 ^ t).
Proof.
  intros Hm Hx Hk Ht He Hsp Hmax.
  assert (Hpt : 0 < 2 ^ t) by (apply Z.pow_pos_nonneg; lia).
  assert (HN : 0 < x * 2 ^ t) by nia.
  assert (Hlm : Z.log2 (Z.pos m) = k + Z.log2 x)
    by (rewrite Hm; apply Z.log2_mul_pow2; lia).
  assert (HlN : Z.log2 (x * 2 ^ t) = t + Z.log2 x) by (apply Z.log2_mul_pow2; lia).
  set (sp := Double.spacing (x * 2 ^ t)) in *.
  assert (Hsp' : sp = Z.max (t + Z.log2 x - 52) 0)
    by (unfold sp, Double.spacing; rewrite HlN; reflexivity).
  assert (He1 : Z.max (Z.log2 (Z.pos m) + 1 + e - 53) (-1074) = sp - 1074) by lia.
  pose proof (binary_round_aux_units m e) as Hu. cbv zeta in Hu.
  rewrite He1 in Hu. destruct Hu as [Hplain Hval]; [lia|lia|].
  split; [exact Hplain|].
  rewrite Hval, round_rne by lia. fold sp.
  replace (sp - 1074 + 1074) with sp by lia. f_equal.
  rewrite Hm.
  replace (sp - 1074 - e) with ((sp - t) + k) by lia.
  rewrite rne_scale by lia.
  replace sp with ((sp - t) + t) at 2 by lia.
  rewrite rne_scale by lia. reflexivity.
Qed.

Lemma num_9000 : num 9000 = S754_finite false 4947802324992000 (-39).
Proof. reflexivity. Qed.

Lemma num_1000 : num 1000 = S754_finite false 8796093022208000 (-43).
Proof. reflexivity. Qed.

Lemma num_1 : num 1 = S754_finite false 4503599627370496 (-52).
Proof. reflexivity. Qed.

Lemma num_0 : num 0 = S754_zero false.
Proof. reflexivity. Qed.

(** A canonical mantissa has 53 bits, or sits at the smallest exponent
    with fewer. *)
Lemma bounded_shape (m : positive) (e : Z) :
  bounded 53 1024 m e = true ->
  -1074 <= e /\ Z.pos m < 2 ^ 53 /\ (e = -1074 \/ Z.log2 (Z.pos m) = 52).
Proof.
  unfold bounded, canonical_mantissa. intros H.
  apply andb_prop in H as [H _]. apply Z.eqb_eq in H.
  rewrite fexp64, digits2_log2 in H.
  assert (Hl : Z.log2 (Z.pos m) < 53) by lia.
  split; [lia|]. split; [|lia].
  apply Z.log2_lt_pow2; lia.
Qed.

(** [u * 9000] *)
Lemma times_spec (mu : positive) (eu : Z) :
  bounded 53 1024 mu eu = true ->
  Z.pos mu * 2 ^ (eu + 1074) < Double.one ->
  plain (SFmul 53 1024 (S754_finite false mu eu) (num 9000))
  /\ of_spec (SFmul 53 1024 (S754_finite false mu eu) (num 9000))
     = Double.times (Z.pos mu * 2 ^ (eu + 1074)) 9000.
Proof.
  intros Hb H1. destruct (bounded_shape mu eu Hb) as (He & Hm & Hc).
  rewrite num_9000. cbn [SFmul xorb]. unfold Double.times.
  assert (Hpt : 0 < 2 ^ (eu + 1074)) by (apply Z.pow_pos_nonneg; lia).
  replace (Z.pos mu * 2 ^ (eu + 1074) * 9000)
    with (9000 * Z.pos mu * 2 ^ (eu + 1074)) by lia.
  assert (Hlx : Z.log2 (9000 * Z.pos mu * 2 ^ (eu + 1074))
                = eu + 1074 + Z.log2 (9000 * Z.pos mu))
    by (apply Z.log2_mul_pow2; lia).
  assert (Hup : Z.log2 (9000 * Z.pos mu * 2 ^ (eu + 1074)) < 1088).
  { apply Z.log2_lt_pow2; [lia|].
    change (2 ^ 1088) with (16384 * Double.one). lia. }
  apply binary_round_aux_round with (k := 39).
  - rewrite Pos2Z.inj_mul. change (2 ^ 39) with 549755813888. lia.
  - lia.
  - lia.
  - lia.
  - lia.
  - unfold Double.spacing. rewrite Hlx.
    destruct Hc as [->|Hc]; [lia|].
    assert (Z.log2 (Z.pos mu) <= Z.log2 (9000 * Z.pos mu)) by (apply Z.log2_le_mono; lia).
    lia.
  - unfold Double.spacing. lia.
Qed.

Lemma iter_xO (m d : positive) : Z.pos (Pos.iter xO m d) = Z.pos m * 2 ^ Z.pos d.
Proof.
  induction d as [|d IH] using Pos.peano_ind.
  - cbn [Pos.iter]. rewrite Pos2Z.inj_xO. change (2 ^ 1) with 2. lia.
  - rewrite Pos.iter_succ, Pos2Z.inj_xO, IH, Pos2Z.inj_succ, Z.pow_succ_r by lia. lia.
Qed.

Lemma shl_align_fst (m : positive) (e e' : Z) :
  e' <= e -> Z.pos (fst (shl_align m e e')) = Z.pos m * 2 ^ (e - e').
Proof.
  intros H. unfold shl_align.
  destruct (e' - e) as [|d|d] eqn:Hd; try lia.
  - replace (e - e') with 0 by lia. cbn [fst]. lia.
  - cbn [fst]. rewrite iter_xO. f_equal. f_equal. lia.
Qed.

(** [1000 + x] for a product [x] below 9000. *)
Lemma add_spec (x : spec_float) :
  plain x -> of_spec x < 9000 * Double.one ->
  of_spec (SFadd 53 1024 (num 1000) x)
  = Double.add (Double.of_integer 1000) (of_spec x).
Proof.
  intros Hp Hx. rewrite num_1000.
  destruct x as [[|]| | |[|] mp ep]; try contradiction.
  - vm_compute. reflexivity.
  - cbn [plain] in Hp. cbn [of_spec] in Hx |- *.
    cbn [SFadd cond_Zopp].
    set (ez := Z.min (-43) ep).
    set (a := fst (shl_align 8796093022208000 (-43) ez)).
    set (c := fst (shl_align mp ep ez)).
    assert (Ha : Z.pos a = 8796093022208000 * 2 ^ (-43 - ez))
      by (apply shl_align_fst; lia).
    assert (Hc : Z.pos c = Z.pos mp * 2 ^ (ep - ez)) by (apply shl_align_fst; lia).
    change (Z.pos a + Z.pos c) with (Z.pos (a + c)).
    cbn [binary_normalize]. unfold binary_round.
    assert (Hpa : 0 < 2 ^ (-43 - ez)) by (apply Z.pow_pos_nonneg; lia).
    assert (Hpc : 0 < 2 ^ (ep - ez)) by (apply Z.pow_pos_nonneg; lia).
    assert (Hpt : 0 < 2 ^ (ez + 1074)) by (apply Z.pow_pos_nonneg; lia).
    (* the sum, in units *)
    assert (Hsum : Z.pos (a + c) * 2 ^ (ez + 1074)
                   = Double.of_integer 1000 + Z.pos mp * 2 ^ (ep + 1074)).
    { rewrite Pos2Z.inj_add, Ha, Hc, Z.mul_add_distr_r.
      rewrite <- !Z.mul_assoc, <- !Z.pow_add_r by lia.
      replace (-43 - ez + (ez + 1074)) with 1031 by lia.
      replace (ep - ez + (ez + 1074)) with (ep + 1074) by lia.
      reflexivity. }
    assert (Hlow : 2 ^ (9 - ez) <= Z.pos (a + c)).
    { rewrite Pos2Z.inj_add, Ha.
      replace (9 - ez) with (52 + (-43 - ez)) by lia.
      rewrite Z.pow_add_r by lia. change (2 ^ 52) with 4503599627370496. nia. }
    assert (Hl : 9 - ez <= Z.log2 (Z.pos (a + c))) by (apply Z.log2_le_pow2; lia).
    assert (HlN : Z.log2 (Z.pos (a + c) * 2 ^ (ez + 1074))
                  = ez + 1074 + Z.log2 (Z.pos (a + c)))
      by (apply Z.log2_mul_pow2; lia).
    assert (Hup : Z.log2 (Z.pos (a + c) * 2 ^ (ez + 1074)) < 1088).
    { apply Z.log2_lt_pow2; [lia|]. rewrite Hsum.
      unfold Double.of_integer. change (2 ^ 1088) with (16384 * Double.one). lia. }
    (* no shift to the left is needed *)
    assert (Hal : shl_align (a + c) ez (fexp 53 1024 (Z.pos (digits2_pos (a + c)) + ez))
                  = ((a + c)%positive, ez)).
    { unfold shl_align. rewrite fexp64, digits2_log2.
      destruct (Z.max (Z.log2 (Z.pos (a + c)) + 1 + ez - 53) (-1074) - ez) eqn:Hd;
        try reflexivity. lia. }
    rewrite Hal.
    unfold Double.add. rewrite <- Hsum.
    replace (Z.pos (a + c) * 2 ^ (ez + 1074))
      with (Z.pos (a + c) * 2 ^ (ez + 1074)) by reflexivity.
    apply (binary_round_aux_round (a + c) ez (Z.pos (a + c)) 0 (ez + 1074)).
    + rewrite Z.pow_0_r. lia.
    + lia.
    + lia.
    + lia.
    + lia.
    + unfold Double.spacing. rewrite HlN. lia.
    + unfold Double.spacing. lia.
Qed.

(** *** The code *)

Lemma compare_cont_lt (m c : positive) :
  match Pos.compare_cont Eq m c with Lt => true | _ => false end = true ->
  Z.pos m < Z.pos c.
Proof.
  intros H. pose proof (Pos.compare_spec m c) as Hs. unfold Pos.compare in Hs.
  destruct (Pos.compare_cont Eq m c); try discriminate H.
  inversion Hs as [|Hlt|]. now apply Pos2Z.pos_lt_pos.
Qed.

(** A result of [Math.random()] is a zero or a positive canonical
    number of at most [1 - 2^-53]. *)
Lemma random_cases (u : spec_float) :
  random_result u ->
  (exists s, u = S754_zero s)
  \/ (exists m e, u = S754_finite false m e
                  /\ bounded 53 1024 m e = true
                  /\ Z.pos m * 2 ^ (e + 1074) <= (2 ^ 53 - 1) * 2 ^ 1021).
Proof.
  unfold random_result. rewrite num_0, num_1.
  intros (Hv & Hle & Hlt).
  destruct u as [s|s| |s m e]; cbn [SFleb SFltb SFcompare] in Hle, Hlt.
  - left. now exists s.
  - destruct s; discriminate.
  - discriminate.
  - destruct s; [discriminate|]. right. exists m, e.
    cbn [valid_binary] in Hv. split; [reflexivity|]. split; [exact Hv|].
    destruct (bounded_shape m e Hv) as (He & Hm & Hc).
    destruct (Z.compare_spec e (-52)) as [Heq|Hlow|Hhigh]; try discriminate.
    + exfalso. apply compare_cont_lt in Hlt. clear Hle Hv.
      destruct Hc as [Hc|Hc]; [lia|].
      assert (Z.log2 (Z.pos m) < 52) by (apply Z.log2_lt_pow2; lia).
      lia.
    + clear Hlt Hle Hv.
      assert (Hp : 0 < 2 ^ (e + 1074)) by (apply Z.pow_pos_nonneg; lia).
      assert (Hq : 2 ^ (e + 1074) <= 2 ^ 1021) by (apply Z.pow_le_mono_r; lia).
      nia.
Qed.

Lemma gameId_number_range (u : spec_float) :
  random_result u -> 1000 <= Home.gameId_number u <= 9999.
Proof.
  intros Hu. destruct (random_cases u Hu) as [[s ->]|(m & e & -> & Hb & Hv)].
  - destruct s; vm_compute; split; discriminate.
  - assert (E1 : one = 2 ^ 53 * 2 ^ 1021) by reflexivity.
    assert (HP : 0 < 2 ^ 1021) by (apply Z.pow_pos_nonneg; lia).
    destruct (bounded_shape m e Hb) as (He & _ & _).
    assert (H0 : 0 <= Z.pos m * 2 ^ (e + 1074))
      by (apply Z.mul_nonneg_nonneg; [lia|apply Z.pow_nonneg; lia]).
    destruct (times_spec m e Hb ltac:(lia)) as [Hplain Hprod].
    pose proof (product_below _ (conj H0 Hv)) as Hx. rewrite <- Hprod in Hx.
    pose proof (add_spec _ Hplain ltac:(lia)) as Hsum.
    pose proof (sum_between _ Hx) as Hy. rewrite <- Hsum in Hy.
    unfold Home.gameId_number, Math_floor. fold one.
    split.
    + apply Z.div_le_lower_bound; lia.
    + assert (of_spec (SFadd 53 1024 (num 1000)
                         (SFmul 53 1024 (S754_finite false m e) (num 9000))) / one
              < 10000); [|lia].
      apply Z.div_lt_upper_bound; lia.
Qed.

Lemma in_count_from (n : nat) (z x : Z) :
  z <= x < z + Z.of_nat n -> In x (count_from z n).
Proof.
  revert z. induction n as [|n IH]; intros z Hx; [lia|].
  cbn [count_from]. destruct (Z.eq_dec z x) as [->|Hne]; [now left|].
  right. apply IH. lia.
Qed.

(** Every integer from 1000 to 9999 prints as four digits that
    denote it. *)
Lemma toString_four_digits (n : Z) :
  1000 <= n <= 9999 -> four_digits_of n (toString n) = true.
Proof.
  intros Hn.
  assert (Hall : forallb (fun x => four_digits_of x (toString x))
                   (count_from 1000 (Z.to_nat 9000)) = true)
    by (vm_compute; reflexivity).
  rewrite forallb_forall in Hall.
  apply Hall. apply in_count_from. lia.
Qed.

Lemma four_digits_length (n : Z) (s : string) :
  four_digits_of n s = true -> String.length s = 4%nat.
Proof.
  unfold four_digits_of. intros H.
  apply andb_prop in H as [H _]. apply andb_prop in H as [H _].
  now apply Nat.eqb_eq in H.
Qed.

(** C10 (the code drawn by [createGame]).  Whatever binary64 number
    at least 0 and below 1 [Math.random()] returns, the number
    computed is an integer from 1000 to 9999, and the identifier put
    in the insert is its decimal string: four characters, all
    digits. *)
Theorem gameId_is_four_digits (userId : string) (u : spec_float) :
  random_result u ->
  1000 <= Home.gameId_number u <= 9999
  /\ new_id (Home.createGame userId u) = Some (toString (Home.gameId_number u))
  /\ four_digits_of (Home.gameId_number u) (Home.gameId u) = true
  /\ String.length (Home.gameId u) = 4%nat.
Proof.
  intros Hu.
  pose proof (gameId_number_range u Hu) as Hr.
  unfold Home.createGame, Home.gameId. cbn [new_id].
  generalize dependent (Home.gameId_number u). intros n Hr.
  pose proof (toString_four_digits n Hr) as H4.
  split; [exact Hr|]. split; [reflexivity|]. split; [exact H4|].
  exact (four_digits_length n _ H4).
Qed.

End Rounding.

(** [Math.random()] returns one half: the code is 5500. *)
Lemma gameId_is_four_digits_witness :
  (1000 <= Home.gameId_number (S754_finite false 4503599627370496 (-53)) <= 9999)%Z
  /\ Home.gameId (S754_finite false 4503599627370496 (-53)) = "5500".
Proof.
  assert (Hu : random_result (S754_finite false 4503599627370496 (-53)))
    by (repeat split).
  destruct (gameId_is_four_digits Sample.alice _ Hu) as (Hr & _).
  split; [exact Hr|vm_compute; reflexivity].
Defined.

(** The ends of the range are reached: at 0 and at the largest number
    below 1, [(2^53 - 1) * 2^-53]. *)
Lemma gameId_extremes :
  Home.gameId (S754_zero false) = "1000"
  /\ Home.gameId (S754_finite false 9007199254740991 (-53)) = "9999".
Proof. split; vm_compute; reflexivity. Qed.

(* ================================================================== *)
(** * Further properties of the room controller *)

Section Seating.

Context {O : Chess.Oracle}.

Lemma land_app (xs ys : list Effect) (row : GameState) :
  land (xs ++ ys) row = land ys (land xs row).
Proof. apply fold_left_app. Qed.

(** X1 (reconnection).  Once the update a fetch issued has reached the
    record, a new fetch by the same identity finds its role again and
    issues nothing; so in both versions, and whatever the identity. *)
Theorem refetch_after_claim (gameId : option string) (userId : string) (data : GameState) :
  let first := GameRoom.determine_role gameId userId data in
  let again := GameRoom.determine_role gameId userId (land (snd (fst first)) data) in
  let firstB := GameRoomB.determine_role gameId userId data in
  let againB := GameRoomB.determine_role gameId userId (land (snd (fst firstB)) data) in
  (fst (fst again) = fst (fst first) /\ snd (fst again) = [])
  /\ (fst (fst againB) = fst (fst firstB) /\ snd (fst againB) = []).
Proof.
  unfold GameRoom.determine_role, GameRoomB.determine_role.
  destruct (holds (player_white data) userId) eqn:Hw;
    destruct (holds (player_black data) userId) eqn:Hb;
    destruct (falsy (player_white data)) eqn:Fw;
    destruct (falsy (player_black data)) eqn:Fb;
    cbn [fst snd land fold_left apply_patch set_player_white set_player_black
         player_white player_black];
    rewrite ?Hw, ?Hb, ?Fw, ?Fb;
    cbn [holds]; rewrite ?String.eqb_refl, ?Hw, ?Hb, ?Fw, ?Fb;
    repeat split.
Qed.

(** X2 (what a fetch writes).  A fetch touches the record at most once, never inserts a move, and
    its update leaves every occupied slot, the position and the turn
    of the fetched record as they were. *)
Theorem fetch_only_claims_empty_slots
    (gameId : option string) (userId : string) (resp : Response) :
  let es := GameRoom.fetchGame gameId userId resp in
  let esB := GameRoomB.fetchGame gameId userId resp in
  (length (writes es) <= 1 /\ length (writes esB) <= 1)%nat
  /\ (forall m, ~ In (moves_insert m) es /\ ~ In (moves_insert m) esB)
  /\ (forall target p data,
        resp = found data ->
        In (games_update target p) es \/ In (games_update target p) esB ->
        target = gameId
        /\ (falsy (player_white data) = false ->
            player_white (apply_patch p data) = player_white data)
        /\ (falsy (player_black data) = false ->
            player_black (apply_patch p data) = player_black data)
        /\ fen (apply_patch p data) = fen data
        /\ turn (apply_patch p data) = turn data
        /\ id (apply_patch p data) = id data).
Proof.
  unfold GameRoom.fetchGame, GameRoomB.fetchGame,
    GameRoom.determine_role, GameRoomB.determine_role.
  destruct (no_gameId gameId).
  { cbn. repeat split; auto; intros; intuition. }
  destruct resp as [data| |].
  2,3: cbn; repeat split; auto; intros; try intuition discriminate;
       intuition congruence.
  destruct (holds (player_white data) userId), (holds (player_black data) userId),
    (falsy (player_white data)) eqn:Fw, (falsy (player_black data)) eqn:Fb;
    cbn [app fen];
    destruct (Chess.new (fen data));
    (split; [cbn; lia|]);
    (split; [intros m; cbn; intuition congruence|]);
    intros target p data' Hd Hin; injection Hd as <-;
    cbn in Hin;
    repeat match goal with
           | H : _ \/ _ |- _ => destruct H
           | H : False |- _ => destruct H
           | H : _ = games_update _ _ |- _ => first [discriminate H | injection H as <- <-]
           end;
    cbn; repeat split; intros; congruence.
Qed.

(** X3 (a fetch without a record).  A fetch that finds no record, or fails, shows the error and ends
    the loading state; it issues nothing and leaves the role, the
    record and the board mirror alone. *)
Theorem fetch_failure (gameId : option string) (userId : string)
    (resp : Response) (r : Room) :
  no_gameId gameId = false ->
  resp = no_data \/ resp = failed ->
  let es := GameRoom.fetchGame gameId userId resp in
  let esB := GameRoomB.fetchGame gameId userId resp in
  es = esB
  /\ writes es = []
  /\ run r es = mkRoom (game r) (gameState r) (playerRole r) false (Some could_not_load).
Proof.
  intros Hid [-> | ->]; unfold GameRoom.fetchGame, GameRoomB.fetchGame;
    rewrite Hid; repeat split.
Qed.

(** X4 (a record with an unreadable position).  A record whose position the oracle cannot parse is claimed all the
    same: the update is issued and the role and the record are set,
    then the error is shown and the mirror stays as it was. *)
Theorem fetch_unparsable_position (gameId : option string) (userId : string)
    (data : GameState) (r : Room) :
  no_gameId gameId = false ->
  Chess.new (fen data) = None ->
  let step := GameRoom.determine_role gameId userId data in
  let r' := run r (GameRoom.fetchGame gameId userId (found data)) in
  writes (GameRoom.fetchGame gameId userId (found data)) = snd (fst step)
  /\ playerRole r' = fst (fst step)
  /\ gameState r' = Some (snd step)
  /\ game r' = game r
  /\ error r' = Some could_not_load
  /\ loading r' = false.
Proof.
  intros Hid Hnew. unfold GameRoom.fetchGame. rewrite Hid.
  unfold GameRoom.determine_role.
  destruct (holds (player_white data) userId), (holds (player_black data) userId),
    (falsy (player_white data)), (falsy (player_black data));
    cbn [fen app fst snd]; rewrite Hnew; repeat split.
Qed.

(** X5 (the race of two visitors).  Two identities that fetch the same
    record while its black slot is empty both become black in their
    rooms and both issue the claim; once both updates have landed the
    slot holds the later one, and the earlier claimant, fetching
    again, is a spectator. *)
Theorem claim_race (gameId : option string) (first second : string) (data : GameState) :
  holds (player_white data) first = false ->
  holds (player_white data) second = false ->
  falsy (player_white data) = false ->
  falsy (player_black data) = true ->
  second <> first -> first <> "" -> second <> "" ->
  let s1 := GameRoom.determine_role gameId first data in
  let s2 := GameRoom.determine_role gameId second data in
  let row := land (snd (fst s2)) (land (snd (fst s1)) data) in
  fst (fst s1) = player b
  /\ fst (fst s2) = player b
  /\ player_black row = Some second
  /\ status row = active
  /\ fst (fst (GameRoom.determine_role gameId first row)) = spectator
  /\ snd (fst (GameRoom.determine_role gameId first row)) = [].
Proof.
  intros Hw1 Hw2 Fw Fb Hne Hfz Hnz.
  assert (Hb1 : holds (player_black data) first = false).
  { destruct (player_black data) as [u|]; [|reflexivity].
    cbn [falsy] in Fb. apply String.eqb_eq in Fb. subst u. cbn [holds].
    apply String.eqb_neq. congruence. }
  assert (Hb2 : holds (player_black data) second = false).
  { destruct (player_black data) as [u|]; [|reflexivity].
    cbn [falsy] in Fb. apply String.eqb_eq in Fb. subst u. cbn [holds].
    apply String.eqb_neq. congruence. }
  unfold GameRoom.determine_role. rewrite Hw1, Hw2, Hb1, Hb2, Fw, Fb.
  cbn [fst snd land fold_left apply_patch set_player_white set_player_black set_status
       set_fen set_turn player_white player_black status].
  rewrite Hw1. cbn [holds falsy].
  assert (E1 : String.eqb second first = false) by (apply String.eqb_neq; exact Hne).
  assert (E2 : String.eqb second "" = false) by (apply String.eqb_neq; exact Hnz).
  rewrite E1, Fw, E2. repeat split.
Qed.

End Seating.

(** X6 (seating after a creation).  On the record either home page
    creates, the creator who enters is white and writes nothing; the
    first other visitor becomes black, and once that claim has landed
    the record holds both, is active and still at the starting
    position; a third visitor is then a spectator and writes
    nothing. *)
Theorem seating_after_creation {O : Chess.Oracle}
    (gameId : option string) (creator second third : string)
    (u : spec_float) (assigned_id now : string) (fromB : bool) :
  creator <> "" -> second <> "" ->
  second <> creator -> third <> creator -> third <> second ->
  let created := stored_row assigned_id now
                   (if fromB then HomeB.createGame creator
                    else Home.createGame creator u) in
  let back := GameRoom.determine_role gameId creator created in
  let join := GameRoom.determine_role gameId second created in
  let joined := land (snd (fst join)) created in
  let late := GameRoom.determine_role gameId third joined in
  (fst (fst back) = player w /\ snd (fst back) = [])
  /\ fst (fst join) = player b
  /\ (player_white joined = Some creator
      /\ player_black joined = Some second
      /\ status joined = active
      /\ fen joined = starting_position)
  /\ (fst (fst late) = spectator /\ snd (fst late) = []).
Proof.
  intros Hc Hs Hsc Htc Hts.
  assert (E1 : String.eqb creator second = false) by (apply String.eqb_neq; congruence).
  assert (E2 : String.eqb creator "" = false) by (apply String.eqb_neq; congruence).
  assert (E3 : String.eqb creator third = false) by (apply String.eqb_neq; congruence).
  assert (E4 : String.eqb second third = false) by (apply String.eqb_neq; congruence).
  assert (E5 : String.eqb second "" = false) by (apply String.eqb_neq; congruence).
  destruct fromB;
    unfold stored_row, HomeB.createGame, Home.createGame, GameRoom.determine_role;
    cbn [new_id new_player_white new_status new_fen new_turn player_white player_black
         holds falsy];
    rewrite String.eqb_refl, E1, E2;
    cbn [fst snd land fold_left apply_patch set_player_white set_player_black set_status
         set_fen set_turn player_white player_black status fen holds falsy];
    rewrite E3, E4, E2, E5; repeat split.
Qed.

Section Echo.

Context {O : Chess.Oracle}.

Lemma push_keeps_mirror (r : Room) (d : GameState) :
  fen d = Chess.fen (game r) -> game (run r (on_game_update r d)) = game r.
Proof.
  intros H. unfold on_game_update. rewrite H, String.eqb_refl.
  destruct (Chess.new (Chess.fen (game r))) as [g|]; [|reflexivity].
  cbn [negb]. destruct (status d); try reflexivity.
  destruct (Chess.isCheckmate g); reflexivity.
Qed.

Lemma push_keeps_role (r : Room) (d : GameState) :
  playerRole (run r (on_game_update r d)) = playerRole r.
Proof.
  unfold on_game_update. destruct (Chess.new (fen d)) as [g|]; [|reflexivity].
  destruct (status d); try reflexivity.
  destruct (Chess.isCheckmate g); reflexivity.
Qed.

Lemma push_issues_nothing (r : Room) (d : GameState) :
  writes (on_game_update r d) = [].
Proof.
  unfold on_game_update. destruct (Chess.new (fen d)) as [g|]; [|reflexivity].
  destruct (status d); try reflexivity.
  destruct (Chess.isCheckmate g); reflexivity.
Qed.

(** The room and the row after an accepted move of the first version. *)
Lemma accepted_move_lands (gameId : option string) (r : Room) (a z : string)
    (gameCopy : Chess.t) (row : GameState) :
  let es := setGame gameCopy :: GameRoom.updateGame gameId gameCopy a z in
  run r es = mkRoom gameCopy (gameState r) (playerRole r) (loading r) (error r)
  /\ land (writes es) row
     = mkGameState (id row) (created_at row) (player_white row) (player_black row)
         (Chess.fen gameCopy) (GameRoom.new_status gameCopy) (turnText gameCopy).
Proof. split; reflexivity. Qed.

Lemma insert_sets_mirror (r : Room) (m : MoveRecord) (derived : Chess.t) :
  Chess.new (fen_after m) = Some derived ->
  run r (on_move_insert m)
  = mkRoom derived (gameState r) (playerRole r) (loading r) (error r).
Proof. intros H. unfold on_move_insert. rewrite H. reflexivity. Qed.

Lemma push_after_insert (r : Room) (d : GameState) (derived : Chess.t) :
  Chess.new (fen d) = Some derived ->
  game r = derived ->
  game (run r (on_game_update r d)) = derived.
Proof.
  intros Hnew Hg. unfold on_game_update. rewrite Hnew.
  destruct (negb _); (destruct (status d); try (cbn; auto; fail);
                      destruct (Chess.isCheckmate derived); cbn; auto).
Qed.

(** X7 (the echo of an accepted move).  An accepted move issues the
    insert of the move record and then the update of the game record,
    so the notification of the insert reaches the room before the
    push of the update.  The notification replaces the mirror, which
    held the object the move was played on, by the object derived
    from the position string; the push then keeps that object and
    makes the pushed row the room's copy of the record.  Neither
    issues a call, and the role is what it was. *)
Theorem echo_of_own_move
    (gameId : option string) (r : Room) (a z pc : string) (gameCopy derived : Chess.t)
    (row : GameState) (inserted : MoveRecord) :
  snd (GameRoom.onPieceDrop gameId r a z pc)
    = setGame gameCopy :: GameRoom.updateGame gameId gameCopy a z ->
  fen_after inserted = Chess.fen gameCopy ->
  Chess.new (Chess.fen gameCopy) = Some derived ->
  let es := snd (GameRoom.onPieceDrop gameId r a z pc) in
  let r1 := run r es in
  let pushed := land (writes es) row in
  let r2 := run r1 (on_move_insert inserted) in
  let r3 := run r2 (on_game_update r2 pushed) in
  writes es
    = [ moves_insert (mkMoveInsert gameId a z (Chess.fen gameCopy));
        games_update gameId
          (mkPatch None None (Some (Chess.fen gameCopy))
             (Some (GameRoom.new_status gameCopy)) (Some (turnText gameCopy))) ]
  /\ game r1 = gameCopy
  /\ (game r2 = derived /\ gameState r2 = gameState r)
  /\ (game r3 = derived /\ gameState r3 = Some pushed /\ fen pushed = Chess.fen gameCopy)
  /\ playerRole r3 = playerRole r
  /\ writes (on_move_insert inserted) = []
  /\ writes (on_game_update r2 pushed) = [].
Proof.
  intros Hes Hins Hnew. cbv zeta. rewrite Hes.
  destruct (accepted_move_lands gameId r a z gameCopy row) as [Hrun Hland].
  cbv zeta in Hrun, Hland. rewrite Hrun, Hland.
  rewrite <- Hins in Hnew.
  rewrite (insert_sets_mirror _ inserted derived Hnew).
  rewrite Hins in Hnew.
  split; [reflexivity|]. split; [reflexivity|]. split; [split; reflexivity|].
  split.
  { split; [|split; [apply push_sets_record|reflexivity]].
    apply push_after_insert; [exact Hnew|reflexivity]. }
  split; [rewrite push_keeps_role; reflexivity|].
  split; [|apply push_issues_nothing].
  unfold on_move_insert. rewrite Hins, Hnew. reflexivity.
Qed.

(** X8 (moving before anybody has joined).  In the second version a move is accepted while the room still
    waits for an opponent, and its update makes the record active
    (or finished) although the black slot is empty. *)
Theorem second_version_moves_while_waiting
    (gameId : option string) (r : Room) (a z pc : string) (s : Side)
    (d row : GameState) (fresh gameCopy : Chess.t) :
  playerRole r = player s ->
  Chess.turn (game r) = s ->
  gameState r = Some d -> status d = waiting ->
  Chess.new (Chess.fen (game r)) = Some fresh ->
  Chess.move fresh (GameRoomB.candidate a z pc) = Some gameCopy ->
  falsy (player_black row) = true ->
  let res := GameRoomB.onPieceDrop gameId r a z pc in
  let row' := land (writes (snd res)) row in
  fst res = true
  /\ status row' <> waiting
  /\ falsy (player_black row') = true
  /\ fst (GameRoom.onPieceDrop gameId r a z pc) = false.
Proof.
  intros Hrole Hturn Hd Hst Hnew Hmove Hb.
  unfold GameRoomB.onPieceDrop, GameRoom.onPieceDrop.
  rewrite Hrole, Hturn, Hd, Hnew, Hmove.
  assert (Hs : Side_eqb s s = true) by (destruct s; reflexivity).
  rewrite Hs. cbn [negb status_is]. rewrite Hst. cbn [Status_eqb fst snd].
  unfold GameRoomB.updateGame.
  cbn [writes filter is_write land fold_left apply_patch set_status set_player_black
       status player_black].
  split; [reflexivity|]. split.
  - unfold GameRoomB.new_status. destruct (_ || _); discriminate.
  - split; [exact Hb|reflexivity].
Qed.

End Echo.

Section Display.

Context {O : Chess.Oracle} {V : Rules.Views}.

(** X9 (what the board allows and what the room accepts).  When the room
    passes [arePiecesDraggable = false] to the board, every submission
    is turned down without any effect; an accepted submission was
    made on the caller's turn with draggable pieces. *)
Theorem accepted_only_on_my_turn
    (gameId : option string) (r : Room) (a z pc : string) :
  (arePiecesDraggable r = false ->
   GameRoom.onPieceDrop gameId r a z pc = (false, [])
   /\ GameRoomB.onPieceDrop gameId r a z pc = (false, []))
  /\ (fst (GameRoom.onPieceDrop gameId r a z pc) = true
      \/ fst (GameRoomB.onPieceDrop gameId r a z pc) = true ->
      isMyTurn r = true /\ arePiecesDraggable r = true).
Proof.
  assert (Hsym : forall x y, Side_eqb x y = Side_eqb y x) by (intros [] []; reflexivity).
  unfold arePiecesDraggable, isMyTurn, Role_is, GameRoom.onPieceDrop, GameRoomB.onPieceDrop.
  destruct (playerRole r) as [s|].
  2:{ split; [intros _; split; reflexivity|]. intros [H|H]; discriminate H. }
  rewrite (Hsym (Chess.turn (game r)) s).
  destruct (Side_eqb s (Chess.turn (game r))).
  2:{ cbn [negb]. split.
      - intros _. split; reflexivity.
      - intros [H|H]; discriminate H. }
  destruct (status_is (gameState r) finished).
  { cbn. split; [intros _; split; reflexivity|]. intros [H|H]; discriminate H. }
  cbn [negb andb]. split; [discriminate|]. intros _. split; reflexivity.
Qed.

(** X10 (the player who mates is named the winner).  After an
    accepted move that mates, the status written is finished.  Every
    room of the game that gets the notification of the move record
    and then the push of the update, the mover's room among them,
    holds the object derived from the position string; where that
    object is a checkmate with the mover's opponent to move, the
    status message of the room is "Winner: " followed by the mover's
    colour, it is nobody's turn there and no piece can be dragged. *)
Theorem mating_player_is_named_winner
    (gameId : option string) (r : Room) (a z pc : string) (s : Side)
    (gameCopy derived : Chess.t) (row : GameState) (inserted : MoveRecord) :
  playerRole r = player s ->
  snd (GameRoom.onPieceDrop gameId r a z pc)
    = setGame gameCopy :: GameRoom.updateGame gameId gameCopy a z ->
  Chess.isCheckmate gameCopy = true ->
  fen_after inserted = Chess.fen gameCopy ->
  Chess.new (Chess.fen gameCopy) = Some derived ->
  Chess.isCheckmate derived = true ->
  Chess.turn derived = other s ->
  let es := snd (GameRoom.onPieceDrop gameId r a z pc) in
  let r1 := run r es in
  let pushed := land (writes es) row in
  let seen := fun v : Room =>
                run (run v (on_move_insert inserted))
                  (on_game_update (run v (on_move_insert inserted)) pushed) in
  status pushed = finished
  /\ playerRole (seen r1) = player s
  /\ (forall v : Room,
        game (seen v) = derived
        /\ getStatusMessage (seen v) = ("Winner: " ++ side_name s)%string
        /\ isMyTurn (seen v) = false
        /\ arePiecesDraggable (seen v) = false).
Proof.
  intros Hrole Hes Hmate Hins Hnew Hdmate Hturn. cbv zeta. rewrite Hes.
  destruct (accepted_move_lands gameId r a z gameCopy row) as [Hrun Hland].
  cbv zeta in Hrun, Hland. rewrite Hrun, Hland.
  set (pushed := mkGameState _ _ _ _ _ _ _).
  assert (Hst : status pushed = finished).
  { unfold pushed, GameRoom.new_status. rewrite Hmate. reflexivity. }
  assert (Hins' : Chess.new (fen_after inserted) = Some derived)
    by (rewrite Hins; exact Hnew).
  split; [exact Hst|]. split.
  { rewrite push_keeps_role, (insert_sets_mirror _ inserted derived Hins').
    exact Hrole. }
  intros v. rewrite (insert_sets_mirror v inserted derived Hins').
  set (v2 := mkRoom derived (gameState v) (playerRole v) (loading v) (error v)).
  assert (Hg : game (run v2 (on_game_update v2 pushed)) = derived)
    by (apply push_after_insert; [exact Hnew|reflexivity]).
  pose proof (push_sets_record v2 pushed) as Hd.
  split; [exact Hg|].
  unfold getStatusMessage, winnerText, isMyTurn, arePiecesDraggable.
  rewrite Hg, Hd. cbn [status_is]. rewrite Hst.
  cbn [Status_eqb negb andb]. rewrite Hdmate, Hturn.
  rewrite andb_false_r. destruct s; repeat split.
Qed.

End Display.

Section LockstepLog.

Context {O : Chess.Oracle}.
Variable gameId : option string.

(** A submission in lockstep either changes neither the row nor the
    log, or appends one move record and writes its position, status
    and turn to the row. *)
Lemma lockstep_round_shape (wd : Table.World) (who : Side) (a z pc : string) :
  Table.settled wd ->
  let wd' := Table.play gameId wd (Table.lockstep who a z pc) in
  (Table.row wd' = Table.row wd /\ Table.log wd' = Table.log wd)
  \/ (exists g,
        Table.row wd'
        = mkGameState (id (Table.row wd)) (created_at (Table.row wd))
            (player_white (Table.row wd)) (player_black (Table.row wd))
            (Chess.fen g) (GameRoom.new_status g) (turnText g)
        /\ Table.log wd' = Table.log wd ++ [mkMoveInsert gameId a z (Chess.fen g)]).
Proof.
  intros (Hw & Hb & Hcw & Hcb).
  unfold Table.play, Table.lockstep.
  destruct who; cbn [fold_left Table.exec].
  - destruct (drop_cases gameId (Table.white_room wd) a z pc)
      as [[Hnone Hsame]|(g & Hes & Hf & Hwt)].
    + left.
      cbn [Table.white_calls Table.row Table.log Table.white_room Table.black_room
           Table.black_calls].
      rewrite Hcw, Hnone. cbn [app]. split; reflexivity.
    + right. exists g. rewrite Hes. unfold GameRoom.updateGame.
      cbn [Table.white_calls Table.row Table.log Table.white_room Table.black_room
           Table.black_calls writes filter is_write app Table.land_call].
      rewrite Hcw.
      cbn [Table.white_calls Table.row Table.log Table.white_room Table.black_room
           Table.black_calls writes filter is_write app Table.land_call].
      split; reflexivity.
  - destruct (drop_cases gameId (Table.black_room wd) a z pc)
      as [[Hnone Hsame]|(g & Hes & Hf & Hwt)].
    + left.
      cbn [Table.white_calls Table.row Table.log Table.white_room Table.black_room
           Table.black_calls].
      rewrite Hcb, Hnone. cbn [app]. split; reflexivity.
    + right. exists g. rewrite Hes. unfold GameRoom.updateGame.
      cbn [Table.white_calls Table.row Table.log Table.white_room Table.black_room
           Table.black_calls writes filter is_write app Table.land_call].
      rewrite Hcb.
      cbn [Table.white_calls Table.row Table.log Table.white_room Table.black_room
           Table.black_calls writes filter is_write app Table.land_call].
      split; reflexivity.
Qed.

Lemma lockstep_log_and_row
    (ms : list (Side * string * string * string)) (wd : Table.World) :
  Table.settled wd ->
  log_matches_row wd ->
  let wd' := Table.play gameId wd (Table.lockstep_game ms) in
  log_matches_row wd'
  /\ (exists more, Table.log wd' = Table.log wd ++ more
                   /\ (length more <= length ms)%nat)
  /\ id (Table.row wd') = id (Table.row wd)
  /\ player_white (Table.row wd') = player_white (Table.row wd)
  /\ player_black (Table.row wd') = player_black (Table.row wd).
Proof.
  revert wd. induction ms as [|[[[who a] z] pc] ms IH]; intros wd Hs Hm.
  - cbn. split; [exact Hm|]. split; [|auto].
    exists []. rewrite app_nil_r. split; [reflexivity|apply Nat.le_refl].
  - cbn [Table.lockstep_game flat_map]. unfold Table.play. rewrite fold_left_app.
    destruct (lockstep_status_forward gameId wd who a z pc Hs) as [Hs1 _].
    pose proof (lockstep_round_shape wd who a z pc Hs) as Hshape.
    cbv zeta in Hs1, Hshape. unfold Table.play in Hs1, Hshape.
    set (wd1 := fold_left (Table.exec gameId) (Table.lockstep who a z pc) wd) in *.
    assert (Hm1 : log_matches_row wd1
                  /\ (exists one, Table.log wd1 = Table.log wd ++ one
                                  /\ (length one <= 1)%nat)
                  /\ id (Table.row wd1) = id (Table.row wd)
                  /\ player_white (Table.row wd1) = player_white (Table.row wd)
                  /\ player_black (Table.row wd1) = player_black (Table.row wd)).
    { destruct Hshape as [[Hr Hl]|(g & Hr & Hl)].
      - unfold log_matches_row. rewrite Hr, Hl. split; [exact Hm|].
        split; [|auto]. exists []. rewrite app_nil_r. split; [reflexivity|].
        apply Nat.le_0_l.
      - unfold log_matches_row. rewrite Hr, Hl. split.
        + rewrite map_app. cbn [map]. rewrite last_last. reflexivity.
        + split; [|auto]. eexists. split; [reflexivity|apply Nat.le_refl]. }
    destruct Hm1 as (Hm1 & (one & Hl1 & Hlen1) & Hid1 & Hw1 & Hb1).
    pose proof (IH wd1 Hs1 Hm1) as IH1. cbv zeta in IH1.
    unfold Table.play, Table.lockstep_game in IH1. cbv zeta.
    destruct IH1 as (Hm2 & (more & Hl2 & Hlen2) & Hid2 & Hw2 & Hb2).
    split; [exact Hm2|]. split.
    + exists (one ++ more). rewrite Hl2, Hl1, app_assoc. split; [reflexivity|].
      rewrite length_app. cbn [length]. lia.
    + rewrite Hid2, Hw2, Hb2. auto.
Qed.

(** X11 (moves played in lockstep).  When both calls of every
    submission land before the next one is made, the rooms end settled
    on the row, the status of the row has not gone backwards, the log
    has only grown, by at most one record for each submission, the
    position of its last record is the position of the row, and the
    identifier and the two seats of the row are what they were. *)
Theorem lockstep_keeps_log_and_row_together
    (ms : list (Side * string * string * string)) (wd : Table.World) :
  Table.settled wd ->
  log_matches_row wd ->
  let wd' := Table.play gameId wd (Table.lockstep_game ms) in
  Table.settled wd'
  /\ (rank (status (Table.row wd)) <= rank (status (Table.row wd')))%nat
  /\ log_matches_row wd'
  /\ (exists more, Table.log wd' = Table.log wd ++ more
                   /\ (length more <= length ms)%nat)
  /\ id (Table.row wd') = id (Table.row wd)
  /\ player_white (Table.row wd') = player_white (Table.row wd)
  /\ player_black (Table.row wd') = player_black (Table.row wd).
Proof.
  intros Hs Hm.
  destruct (lockstep_game_status_forward gameId ms wd Hs) as [H1 H2].
  destruct (lockstep_log_and_row ms wd Hs Hm) as (H3 & H4 & H5 & H6 & H7).
  exact (conj H1 (conj H2 (conj H3 (conj H4 (conj H5 (conj H6 H7)))))).
Qed.

End LockstepLog.

(** The game of the examples in lockstep: six records, the last one at
    the mating position of the row. *)
Lemma lockstep_keeps_log_and_row_together_witness :
  let final := Table.play (Some "4821") Game.start
                 (Table.lockstep_game
                    [ (w, "f2", "f3", "wP"); (b, "e7", "e6", "bP");
                      (w, "g2", "g3", "wP"); (b, "d7", "d6", "bP");
                      (w, "g3", "g4", "wP"); (b, "d8", "h4", "bQ") ]) in
  log_matches_row final
  /\ length (Table.log final) = 6%nat
  /\ player_black (Table.row final) = Some Sample.bob.
Proof.
  intros final.
  destruct (lockstep_keeps_log_and_row_together (O := Sample.rules) (Some "4821")
              [ (w, "f2", "f3", "wP"); (b, "e7", "e6", "bP");
                (w, "g2", "g3", "wP"); (b, "d7", "d6", "bP");
                (w, "g3", "g4", "wP"); (b, "d8", "h4", "bQ") ]
              Game.start) as (_ & _ & Hm & _ & _ & _ & Hb).
  - repeat split.
  - reflexivity.
  - refine (conj Hm (conj _ Hb)). reflexivity.
Defined.

(** With the update of a move on its way while the next move lands,
    the row ends behind the log. *)
Lemma late_update_leaves_row_behind_log :
  let wd := Table.play (Some "4821") Game.start Game.late_update in
  last (map ins_fen_after (Table.log wd)) "" = Sample.p6
  /\ fen (Table.row wd) = Sample.p5
  /\ ~ log_matches_row wd.
Proof.
  intros wd. split; [reflexivity|]. split; [reflexivity|].
  unfold log_matches_row. vm_compute. discriminate.
Qed.

(** ** The further properties on the game of the examples *)

(** Bob joins Alice's fresh record: the one update leaves Alice in the
    white slot. *)
Lemma fetch_only_claims_empty_slots_witness :
  let data := Sample.record (Some Sample.alice) None Sample.p0 waiting white in
  let p := mkPatch None (Some Sample.bob) None (Some active) None in
  player_white (apply_patch p data) = Some Sample.alice
  /\ fen (apply_patch p data) = Sample.p0.
Proof.
  intros data p.
  destruct (fetch_only_claims_empty_slots (O := Sample.rules) (Some "4821") Sample.bob
              (found data)) as (_ & _ & H).
  destruct (H (Some "4821") p data eq_refl) as (_ & Hw & _ & Hf & _).
  - left. cbn. left. reflexivity.
  - split; [exact (Hw eq_refl)|exact Hf].
Defined.

(** No row for the code that was asked for. *)
Lemma fetch_failure_witness :
  run Sample.fresh_room
    (GameRoom.fetchGame (O := Sample.rules) (Some "4821") Sample.bob no_data)
  = mkRoom (Sample.object Sample.p0 []) None spectator false (Some could_not_load).
Proof.
  apply (fetch_failure (O := Sample.rules) (Some "4821") Sample.bob no_data
           Sample.fresh_room eq_refl).
  left. reflexivity.
Defined.

(** A row whose position is not a position: Bob has claimed the black
    slot and reads the error. *)
Lemma fetch_unparsable_position_witness :
  let data := Sample.record (Some Sample.alice) None "garbage" waiting white in
  let es := GameRoom.fetchGame (O := Sample.rules) (Some "4821") Sample.bob (found data) in
  writes es = [games_update (Some "4821")
                 (mkPatch None (Some Sample.bob) None (Some active) None)]
  /\ playerRole (run Sample.fresh_room es) = player b
  /\ error (run Sample.fresh_room es) = Some could_not_load.
Proof.
  intros data es.
  destruct (fetch_unparsable_position (O := Sample.rules) (Some "4821") Sample.bob data
              Sample.fresh_room eq_refl eq_refl) as (Hw & Hr & _ & _ & He & _).
  exact (conj Hw (conj Hr He)).
Defined.

(** Bob and Carol both open Alice's fresh game: Carol's claim lands
    last, and Bob finds himself a spectator when he comes back. *)
Lemma claim_race_witness :
  let data := Sample.record (Some Sample.alice) None Sample.p0 waiting white in
  let s1 := GameRoom.determine_role (O := Sample.rules) (Some "4821") Sample.bob data in
  let s2 := GameRoom.determine_role (O := Sample.rules) (Some "4821") Sample.carol data in
  let row := land (snd (fst s2)) (land (snd (fst s1)) data) in
  fst (fst s1) = player b
  /\ fst (fst s2) = player b
  /\ player_black row = Some Sample.carol
  /\ status row = active
  /\ fst (fst (GameRoom.determine_role (O := Sample.rules) (Some "4821") Sample.bob row))
     = spectator
  /\ snd (fst (GameRoom.determine_role (O := Sample.rules) (Some "4821") Sample.bob row))
     = [].
Proof.
  apply (claim_race (O := Sample.rules) (Some "4821") Sample.bob Sample.carol);
    try reflexivity; discriminate.
Defined.

(** Alice creates, Bob joins, Carol watches. *)
Lemma seating_after_creation_witness :
  let created := stored_row "4821" "2024-01-01T00:00:00Z"
                   (Home.createGame Sample.alice (num 0)) in
  let join := GameRoom.determine_role (O := Sample.rules) (Some "4821") Sample.bob created in
  let joined := land (snd (fst join)) created in
  fst (fst join) = player b
  /\ player_black joined = Some Sample.bob
  /\ fst (fst (GameRoom.determine_role (O := Sample.rules) (Some "4821") Sample.carol joined))
     = spectator.
Proof.
  intros created join joined.
  destruct (seating_after_creation (O := Sample.rules) (Some "4821")
              Sample.alice Sample.bob Sample.carol (num 0) "4821" "2024-01-01T00:00:00Z"
              false)
    as (_ & Hj & (_ & Hb & _) & Hl & _); try discriminate.
  exact (conj Hj (conj Hb Hl)).
Defined.

(** White plays f2-f3: the notification of the move record puts
    the object without history in the mirror, and the push of the
    update keeps it. *)
Lemma echo_of_own_move_witness :
  let r := Scenes.seated (player w) active in
  let es := snd (GameRoom.onPieceDrop (O := Sample.rules) (Some "4821") r "f2" "f3" "wP") in
  let r1 := run r es in
  let pushed := land (writes es)
                  (Sample.record (Some Sample.alice) (Some Sample.bob) Sample.p0 active white) in
  let r2 := run r1 (on_move_insert (mkMoveRecord "" "4821" "f2" "f3" Sample.p1 "")) in
  game r1 = Sample.object Sample.p1 [Chess.mkMove "f2" "f3" "q"]
  /\ game r2 = Sample.object Sample.p1 []
  /\ game (run r2 (on_game_update r2 pushed)) = Sample.object Sample.p1 [].
Proof.
  intros r es r1 pushed r2.
  destruct (echo_of_own_move (O := Sample.rules) (Some "4821") r "f2" "f3" "wP"
              (Sample.object Sample.p1 [Chess.mkMove "f2" "f3" "q"])
              (Sample.object Sample.p1 [])
              (Sample.record (Some Sample.alice) (Some Sample.bob) Sample.p0 active white)
              (mkMoveRecord "" "4821" "f2" "f3" Sample.p1 "")
              eq_refl eq_refl eq_refl) as (_ & H1 & (H2 & _) & (H3 & _) & _).
  exact (conj H1 (conj H2 H3)).
Defined.

(** Alice moves before anybody has joined. *)
Lemma second_version_moves_while_waiting_witness :
  let r := Scenes.seated (player w) waiting in
  let row := Sample.record (Some Sample.alice) None Sample.p0 waiting white in
  let res := GameRoomB.onPieceDrop (O := Sample.rules) (Some "4821") r "f2" "f3" "wP" in
  fst res = true
  /\ status (land (writes (snd res)) row) <> waiting
  /\ falsy (player_black (land (writes (snd res)) row)) = true.
Proof.
  intros r row res.
  destruct (second_version_moves_while_waiting (O := Sample.rules) (Some "4821") r
              "f2" "f3" "wP" w
              (Sample.record (Some Sample.alice) (Some Sample.bob) Sample.p0 waiting white)
              row (Sample.object Sample.p0 [])
              (Sample.object Sample.p1 [Chess.mkMove "f2" "f3" "p"])
              eq_refl eq_refl eq_refl eq_refl eq_refl eq_refl eq_refl)
    as (H1 & H2 & H3 & _).
  exact (conj H1 (conj H2 H3)).
Defined.

(** A spectator's board is not draggable and the room turns the
    submission down. *)
Lemma accepted_only_on_my_turn_witness :
  GameRoom.onPieceDrop (O := Sample.rules) (Some "4821")
    (Scenes.seated spectator active) "f2" "f3" "wP" = (false, [])
  /\ isMyTurn (O := Sample.rules) (Scenes.seated (player w) active) = true.
Proof.
  split.
  - apply (proj1 (accepted_only_on_my_turn (O := Sample.rules)
                    (Some "4821") (Scenes.seated spectator active) "f2" "f3" "wP")).
    reflexivity.
  - apply (proj2 (accepted_only_on_my_turn (O := Sample.rules)
                    (Some "4821") (Scenes.seated (player w) active) "f2" "f3" "wP")).
    left. reflexivity.
Defined.

(** Bob mates with the queen: once the move record and the update
    have come back, he and Alice both read that Black has won. *)
Lemma mating_player_is_named_winner_witness :
  let row := Sample.record (Some Sample.alice) (Some Sample.bob) Sample.p5 active black in
  let bobs := mkRoom (Sample.object Sample.p5 []) (Some row) (player b) false None in
  let alices := mkRoom (Sample.object Sample.p5 []) (Some row) (player w) false None in
  let es := snd (GameRoom.onPieceDrop (O := Sample.rules) (Some "4821") bobs
                   "d8" "h4" "bQ") in
  let inserted := mkMoveRecord "" "4821" "d8" "h4" Sample.p6 "" in
  let pushed := land (writes es) row in
  let seen := fun v : Room =>
                run (run v (on_move_insert inserted))
                  (on_game_update (run v (on_move_insert inserted)) pushed) in
  getStatusMessage (V := SampleViews.views) (seen (run bobs es)) = "Winner: Black"
  /\ getStatusMessage (V := SampleViews.views) (seen alices) = "Winner: Black"
  /\ arePiecesDraggable (O := Sample.rules) (seen alices) = false.
Proof.
  intros row bobs alices es inserted pushed seen.
  destruct (mating_player_is_named_winner (O := Sample.rules) (V := SampleViews.views)
              (Some "4821") bobs "d8" "h4" "bQ" b
              (Sample.object Sample.p6 [Chess.mkMove "d8" "h4" "q"])
              (Sample.object Sample.p6 []) row inserted
              eq_refl eq_refl eq_refl eq_refl eq_refl eq_refl eq_refl) as (_ & _ & H).
  destruct (H (run bobs es)) as (_ & Hb & _).
  destruct (H alices) as (_ & Ha & _ & Hd).
  exact (conj Hb (conj Ha Hd)).
Defined.

(** ** The visitor's identity *)

Section IdentityFacts.

Variable USER_ID_KEY : string.

Lemma getItem_setItem_same (key value : string) (st : Browser.Storage) :
  Browser.getItem key (Browser.setItem key value st) = Some value.
Proof.
  unfold Browser.getItem. induction st as [|kv rest IH]; cbn [Browser.setItem].
  - cbn [find fst snd]. rewrite String.eqb_refl. reflexivity.
  - destruct (String.eqb (fst kv) key) eqn:E; cbn [find fst snd].
    + rewrite String.eqb_refl. reflexivity.
    + rewrite E. exact IH.
Qed.

Lemma getItem_setItem_other (key other value : string) (st : Browser.Storage) :
  other <> key ->
  Browser.getItem other (Browser.setItem key value st) = Browser.getItem other st.
Proof.
  intros Hne. unfold Browser.getItem.
  assert (Hk : String.eqb key other = false) by (apply String.eqb_neq; congruence).
  induction st as [|kv rest IH]; cbn [Browser.setItem].
  - cbn [find fst]. rewrite Hk. reflexivity.
  - destruct (String.eqb (fst kv) key) eqn:E; cbn [find fst snd].
    + apply String.eqb_eq in E. rewrite E, Hk. reflexivity.
    + destruct (String.eqb (fst kv) other); [reflexivity|exact IH].
Qed.

Lemma getItem_removeItem_same (key : string) (st : Browser.Storage) :
  Browser.getItem key (Browser.removeItem key st) = None.
Proof.
  unfold Browser.getItem, Browser.removeItem.
  induction st as [|kv rest IH]; [reflexivity|].
  cbn [filter]. destruct (String.eqb (fst kv) key) eqn:E; cbn [negb]; [exact IH|].
  cbn [find]. rewrite E. exact IH.
Qed.

Lemma getItem_removeItem_other (key other : string) (st : Browser.Storage) :
  other <> key ->
  Browser.getItem other (Browser.removeItem key st) = Browser.getItem other st.
Proof.
  intros Hne. unfold Browser.getItem, Browser.removeItem.
  induction st as [|kv rest IH]; [reflexivity|].
  cbn [filter find]. destruct (String.eqb (fst kv) key) eqn:E; cbn [negb].
  - apply String.eqb_eq in E.
    assert (Hk : String.eqb (fst kv) other = false)
      by (apply String.eqb_neq; congruence).
    rewrite Hk. exact IH.
  - cbn [find]. destruct (String.eqb (fst kv) other); [reflexivity|exact IH].
Qed.

Lemma getUserId_settles (uuid : string) (st : Browser.Storage) :
  uuid <> "" ->
  let userId := fst (getUserId USER_ID_KEY uuid st) in
  let st' := snd (getUserId USER_ID_KEY uuid st) in
  userId <> ""
  /\ Browser.getItem USER_ID_KEY st' = Some userId
  /\ (forall later, getUserId USER_ID_KEY later st' = (userId, st')).
Proof.
  intros Hu.
  assert (Hfresh :
    let st' := Browser.setItem USER_ID_KEY uuid st in
    Browser.getItem USER_ID_KEY st' = Some uuid
    /\ (forall later, getUserId USER_ID_KEY later st' = (uuid, st'))).
  { cbv zeta. split; [apply getItem_setItem_same|].
    intros later. unfold getUserId. rewrite getItem_setItem_same.
    apply String.eqb_neq in Hu. rewrite Hu. reflexivity. }
  cbv zeta in Hfresh. destruct Hfresh as (F2 & F3).
  unfold getUserId.
  destruct (Browser.getItem USER_ID_KEY st) as [stored|] eqn:Hget.
  - destruct (String.eqb stored "") eqn:E; cbn [fst snd].
    + repeat split; auto.
    + split; [apply String.eqb_neq; exact E|].
      split; [exact Hget|].
      intros later. unfold getUserId. rewrite Hget, E. reflexivity.
  - cbn [fst snd]. repeat split; auto.
Qed.

(** X12 (the identity is drawn once).  Whatever the storage holds, the
    identifier returned is not empty, it is what the storage holds
    under the key afterwards, every later call returns it again and
    leaves the storage alone, and no other key is touched; a storage
    that held an identifier is not written to. *)
Theorem identity_is_kept (uuid : string) (st : Browser.Storage) :
  uuid <> "" ->
  let userId := fst (getUserId USER_ID_KEY uuid st) in
  let st' := snd (getUserId USER_ID_KEY uuid st) in
  userId <> ""
  /\ Browser.getItem USER_ID_KEY st' = Some userId
  /\ (forall later, getUserId USER_ID_KEY later st' = (userId, st'))
  /\ (forall other, other <> USER_ID_KEY ->
        Browser.getItem other st' = Browser.getItem other st)
  /\ (falsy (Browser.getItem USER_ID_KEY st) = false -> st' = st).
Proof.
  intros Hu. destruct (getUserId_settles uuid st Hu) as (H1 & H2 & H3).
  split; [exact H1|]. split; [exact H2|]. split; [exact H3|].
  unfold getUserId.
  destruct (Browser.getItem USER_ID_KEY st) as [stored|] eqn:Hget.
  - destruct (String.eqb stored "") eqn:E; cbn [fst snd falsy]; rewrite ?E.
    + split; [|discriminate]. intros other Hne. apply getItem_setItem_other. exact Hne.
    + split; reflexivity.
  - cbn [fst snd falsy]. split; [|discriminate].
    intros other Hne. apply getItem_setItem_other. exact Hne.
Qed.

Context {O : Chess.Oracle}.

(** X13 (resetting the profile gives up the seat).  The creator of a game
    nobody has joined comes back to it: with the profile as it was
    they are white again; after a confirmed reset the identity is a
    new one and they take the black seat of their own game. *)
Theorem reset_profile_gives_up_the_seat
    (gameId : option string) (uuid uuid' : string) (st : Browser.Storage)
    (u : spec_float) (assigned_id now : string) (confirmed : bool) :
  uuid <> "" -> uuid' <> "" ->
  let creator := fst (getUserId USER_ID_KEY uuid st) in
  let st1 := snd (getUserId USER_ID_KEY uuid st) in
  let created := stored_row assigned_id now (Home.createGame creator u) in
  let visitor := fst (getUserId USER_ID_KEY uuid' (resetProfile USER_ID_KEY confirmed st1)) in
  let seat := fst (fst (GameRoom.determine_role gameId visitor created)) in
  (confirmed = false -> visitor = creator /\ seat = player w)
  /\ (confirmed = true -> visitor = uuid'
      /\ (uuid' <> creator -> seat = player b)).
Proof.
  intros Hu Hu'.
  destruct (getUserId_settles uuid st Hu) as (Hne & Hget & Hlater).
  cbv zeta in Hne, Hget, Hlater.
  set (creator := fst (getUserId USER_ID_KEY uuid st)) in *.
  set (st1 := snd (getUserId USER_ID_KEY uuid st)) in *.
  cbv zeta. split.
  - intros ->. cbn [resetProfile]. rewrite Hlater. cbn [fst].
    split; [reflexivity|].
    unfold GameRoom.determine_role, stored_row, Home.createGame.
    cbn [new_player_white player_white holds]. rewrite String.eqb_refl. reflexivity.
  - intros ->. cbn [resetProfile].
    assert (Hv : fst (getUserId USER_ID_KEY uuid' (Browser.removeItem USER_ID_KEY st1))
                 = uuid').
    { unfold getUserId. rewrite getItem_removeItem_same. reflexivity. }
    rewrite Hv. split; [reflexivity|]. intros Hdiff.
    unfold GameRoom.determine_role, stored_row, Home.createGame.
    cbn [new_player_white player_white player_black holds falsy].
    assert (E1 : String.eqb creator uuid' = false) by (apply String.eqb_neq; congruence).
    assert (E2 : String.eqb creator "" = false) by (apply String.eqb_neq; exact Hne).
    rewrite E1, E2. reflexivity.
Qed.

End IdentityFacts.

(** A browser that holds only a theme draws an identity and keeps
    it. *)
Lemma identity_is_kept_witness :
  let st := [("theme", "dark")] in
  let st' := snd (getUserId "chess_user_id" Sample.alice st) in
  st' = [("theme", "dark"); ("chess_user_id", Sample.alice)]
  /\ getUserId "chess_user_id" Sample.bob st' = (Sample.alice, st').
Proof.
  intros st st'. split; [reflexivity|].
  assert (Hu : Sample.alice <> "") by discriminate.
  destruct (identity_is_kept "chess_user_id" Sample.alice st Hu) as (_ & _ & H & _).
  exact (H Sample.bob).
Defined.

(** Alice resets her profile and opens her own game as Bob. *)
Lemma reset_profile_gives_up_the_seat_witness :
  let st1 := snd (getUserId "chess_user_id" Sample.alice []) in
  let created := stored_row "4821" "2024-01-01T00:00:00Z"
                   (Home.createGame Sample.alice (num 0)) in
  let visitor := fst (getUserId "chess_user_id" Sample.bob
                        (resetProfile "chess_user_id" true st1)) in
  visitor = Sample.bob
  /\ fst (fst (GameRoom.determine_role (O := Sample.rules) (Some "4821") visitor created))
     = player b.
Proof.
  intros st1 created visitor.
  assert (Ha : Sample.alice <> "") by discriminate.
  assert (Hb : Sample.bob <> "") by discriminate.
  destruct (proj2 (reset_profile_gives_up_the_seat (O := Sample.rules) "chess_user_id"
                     (Some "4821") Sample.alice Sample.bob [] (num 0)
                     "4821" "2024-01-01T00:00:00Z" true Ha Hb) eq_refl) as [Hv Hs].
  split; [exact Hv|]. apply Hs. discriminate.
Defined.

(** ** The home page *)

Lemma or_else_not_empty (x : option string) (d : string) :
  d <> "" -> or_else x d <> "".
Proof.
  intros Hd. unfold or_else. destruct x as [m|]; [|exact Hd].
  destruct (String.eqb m "") eqn:E; [exact Hd|]. apply String.eqb_neq. exact E.
Qed.

(** X14 (how a creation ends, in both pages).  One insert is sent.  With a
    row the page goes to the room of the row's identifier and shows no
    message, whatever message it showed before.  With an error it
    goes nowhere, shows a message that is not empty and enables the
    button again; the final page names a collision for the code
    23505.  With neither, it goes nowhere, shows nothing, and the
    button stays disabled. *)
Theorem creation_outcome
    (userId : string) (u : spec_float) (ans : HomePage.Answer) (p : HomePage.Page) :
  let es := HomePage.createGame userId u ans in
  let esB := HomePage.createGameB userId ans in
  (length (filter HomePage.is_insert es) = 1%nat
   /\ length (filter HomePage.is_insert esB) = 1%nat)
  /\ (forall data, ans = HomePage.row data ->
        filter HomePage.is_navigate es = [HomePage.navigate ("/game/" ++ id data)%string]
        /\ filter HomePage.is_navigate esB = [HomePage.navigate ("/game/" ++ id data)%string]
        /\ HomePage.errorMsg (HomePage.run p es) = None
        /\ HomePage.errorMsg (HomePage.run p esB) = None)
  /\ (forall code message, ans = HomePage.error code message ->
        filter HomePage.is_navigate es = []
        /\ filter HomePage.is_navigate esB = []
        /\ HomePage.creating (HomePage.run p es) = false
        /\ HomePage.creating (HomePage.run p esB) = false
        /\ (exists m, HomePage.errorMsg (HomePage.run p es) = Some m /\ m <> ""
                      /\ (code = Some "23505" -> m = HomePage.collision))
        /\ (exists m, HomePage.errorMsg (HomePage.run p esB) = Some m /\ m <> ""))
  /\ (ans = HomePage.neither ->
        filter HomePage.is_navigate es = []
        /\ HomePage.creating (HomePage.run p es) = true
        /\ HomePage.errorMsg (HomePage.run p es) = None
        /\ HomePage.run p esB = HomePage.run p es).
Proof.
  cbv zeta. split.
  { destruct ans; split; reflexivity. }
  split.
  { intros data ->. repeat split. }
  split.
  { intros code message ->.
    split; [reflexivity|]. split; [reflexivity|]. split; [reflexivity|].
    split; [reflexivity|]. split.
    - eexists. split; [reflexivity|]. split.
      + destruct (holds code "23505"); [discriminate|].
        apply or_else_not_empty. discriminate.
      + intros ->. reflexivity.
    - eexists. split; [reflexivity|]. apply or_else_not_empty. discriminate. }
  intros ->. repeat split.
Qed.

(** A failure without a message, after an earlier failure was shown. *)
Lemma creation_outcome_witness :
  HomePage.run (HomePage.mkPage "" false (Some HomePage.collision))
    (HomePage.createGame Sample.alice (num 0) (HomePage.error None (Some "")))
  = HomePage.mkPage "" false (Some HomePage.no_connection)
  /\ HomePage.errorMsg
       (HomePage.run (HomePage.mkPage "" false (Some HomePage.collision))
          (HomePage.createGame Sample.alice (num 0)
             (HomePage.row (Sample.record (Some Sample.alice) None Sample.p0 waiting white))))
     = None.
Proof.
  split; [reflexivity|].
  destruct (creation_outcome Sample.alice (num 0)
              (HomePage.row (Sample.record (Some Sample.alice) None Sample.p0 waiting white))
              (HomePage.mkPage "" false (Some HomePage.collision)))
    as (_ & H & _).
  destruct (H _ eq_refl) as (_ & _ & He & _). exact He.
Defined.

Lemma trimStart_no_space (cs : list ascii) :
  forallb (fun c => negb (white_space c)) cs = true -> trimStart cs = cs.
Proof.
  destruct cs as [|c rest]; [reflexivity|].
  cbn [forallb trimStart]. intros H. apply andb_prop in H as [H _].
  apply negb_true_iff in H. rewrite H. reflexivity.
Qed.

Lemma trim_no_space (s : string) :
  forallb (fun c => negb (white_space c)) (list_ascii_of_string s) = true ->
  trim s = s.
Proof.
  intros H. unfold trim. rewrite (trimStart_no_space _ H).
  rewrite trimStart_no_space.
  - rewrite rev_involutive. apply string_of_list_ascii_of_string.
  - rewrite forallb_forall in *. intros c Hc. apply H. apply in_rev. exact Hc.
Qed.

Lemma digit_is_no_space (c : ascii) :
  Double.is_digit c = true -> negb (white_space c) = true.
Proof.
  unfold Double.is_digit, white_space. cbv zeta. intros H.
  apply andb_prop in H as [H1 H2].
  apply Nat.leb_le in H1. apply Nat.leb_le in H2.
  apply negb_true_iff.
  destruct (Nat.leb_spec 9 (nat_of_ascii c)); destruct (Nat.leb_spec (nat_of_ascii c) 13);
    destruct (Nat.eqb_spec (nat_of_ascii c) 32);
    destruct (Nat.eqb_spec (nat_of_ascii c) 160); cbn; try reflexivity; lia.
Qed.

Lemma trimStart_result (cs : list ascii) :
  match trimStart cs with
  | c :: _ => white_space c = false
  | [] => True
  end.
Proof.
  induction cs as [|c rest IH]; [exact I|].
  cbn [trimStart]. destruct (white_space c) eqn:E; [exact IH|exact E].
Qed.

Lemma trimStart_suffix (cs : list ascii) :
  exists front, cs = front ++ trimStart cs.
Proof.
  induction cs as [|c rest [front IH]]; [exists []; reflexivity|].
  cbn [trimStart]. destruct (white_space c).
  - exists (c :: front). cbn [app]. rewrite <- IH. reflexivity.
  - exists []. reflexivity.
Qed.

Lemma trimStart_head (cs : list ascii) :
  match cs with
  | c :: _ => white_space c = false
  | [] => True
  end ->
  trimStart cs = cs.
Proof.
  destruct cs as [|c rest]; [reflexivity|]. cbn [trimStart]. intros ->. reflexivity.
Qed.

(** What [trim] returns has no white space left at its ends. *)
Lemma trim_trim (s : string) : trim (trim s) = trim s.
Proof.
  unfold trim. rewrite list_ascii_of_string_of_list_ascii.
  set (front := trimStart (list_ascii_of_string s)).
  set (inner := trimStart (rev front)).
  assert (Hfront : trimStart (rev inner) = rev inner).
  { apply trimStart_head.
    destruct (trimStart_suffix (rev front)) as [gone Hg]. fold inner in Hg.
    apply (f_equal (@rev ascii)) in Hg. rewrite rev_involutive, rev_app_distr in Hg.
    pose proof (trimStart_result (list_ascii_of_string s)) as Hs. fold front in Hs.
    destruct (rev inner) as [|c rest]; [exact I|].
    rewrite Hg in Hs. exact Hs. }
  rewrite Hfront, rev_involutive.
  assert (Hback : trimStart inner = inner).
  { apply trimStart_head. apply (trimStart_result (rev front)). }
  rewrite Hback. reflexivity.
Qed.

(** X15 (the join form).  It goes to a room only with a code that is not
    empty and neither starts nor ends with white space, so that the
    room finds a game identifier; and a code drawn by [createGame]
    fits the input, enables the button, and leads to the room the
    creator was sent to. *)
Theorem join_form
    (p : HomePage.Page) (userId : string) (u : spec_float) (assigned_id now : string) :
  (forall path, In (HomePage.navigate path) (HomePage.joinGame p) ->
     exists code, path = ("/game/" ++ code)%string
                  /\ code = trim (HomePage.joinId p)
                  /\ no_gameId (Some code) = false
                  /\ trim code = code)
  /\ (random_result u ->
      HomePage.joinId p = Home.gameId u ->
      (String.length (HomePage.joinId p) <= HomePage.maxLength)%nat
      /\ HomePage.join_disabled p = false
      /\ filter HomePage.is_navigate
           (HomePage.createGame userId u
              (HomePage.row (stored_row assigned_id now (Home.createGame userId u))))
         = HomePage.joinGame p).
Proof.
  split.
  - intros path Hin. unfold HomePage.joinGame in Hin.
    destruct (String.eqb (trim (HomePage.joinId p)) "") eqn:E; [destruct Hin|].
    destruct Hin as [Hin|[]]. injection Hin as <-.
    exists (trim (HomePage.joinId p)). split; [reflexivity|]. split; [reflexivity|].
    split; [exact E|apply trim_trim].
  - intros Hu Hj.
    pose proof (gameId_number_range u Hu) as Hr.
    pose proof (toString_four_digits _ Hr) as H4.
    fold (Home.gameId u) in H4.
    pose proof (four_digits_length _ _ H4) as Hlen.
    assert (Htrim : trim (Home.gameId u) = Home.gameId u).
    { apply trim_no_space. unfold Double.four_digits_of in H4.
      apply andb_prop in H4 as [H4 _]. apply andb_prop in H4 as [_ H4].
      rewrite forallb_forall in *. intros c Hc. apply digit_is_no_space. apply H4. exact Hc. }
    assert (Hne : String.eqb (Home.gameId u) "" = false).
    { destruct (Home.gameId u); [discriminate Hlen|reflexivity]. }
    unfold HomePage.join_disabled, HomePage.joinGame, HomePage.maxLength.
    rewrite Hj, Htrim, Hne, Hlen. split; [apply Nat.le_refl|]. split; [reflexivity|].
    reflexivity.
Qed.

(** One half from [Math.random()]: the code 5500 opens the room
    [/game/5500] from the join form. *)
Lemma join_form_witness :
  HomePage.joinGame (HomePage.mkPage "5500" false None) = [HomePage.navigate "/game/5500"]
  /\ HomePage.join_disabled (HomePage.mkPage "5500" false None) = false.
Proof.
  assert (Hu : random_result (S754_finite false 4503599627370496 (-53)))
    by (repeat split).
  destruct (proj2 (join_form (HomePage.mkPage "5500" false None) Sample.alice
                     (S754_finite false 4503599627370496 (-53))
                     "4821" "2024-01-01T00:00:00Z") Hu) as (_ & Hd & Hj).
  - vm_compute. reflexivity.
  - split; [|exact Hd]. rewrite <- Hj. vm_compute. reflexivity.
Defined.

(** ** The board *)

Section BoardFacts.

Context {O : Chess.Oracle} {V : Rules.Views}.

Lemma style_of_assign_same (key : string) (v : Board.Style) (m : Board.Squares) :
  Board.style_of key (Board.assign key v m) = Some v.
Proof.
  unfold Board.style_of. induction m as [|kv rest IH]; cbn [Board.assign].
  - cbn [find fst snd]. rewrite String.eqb_refl. reflexivity.
  - destruct (String.eqb (fst kv) key) eqn:E; cbn [find fst snd].
    + rewrite String.eqb_refl. reflexivity.
    + rewrite E. exact IH.
Qed.

Lemma style_of_assign_other (key other : string) (v : Board.Style) (m : Board.Squares) :
  other <> key ->
  Board.style_of other (Board.assign key v m) = Board.style_of other m.
Proof.
  intros Hne. unfold Board.style_of.
  assert (Hk : String.eqb key other = false) by (apply String.eqb_neq; congruence).
  induction m as [|kv rest IH]; cbn [Board.assign].
  - cbn [find fst]. rewrite Hk. reflexivity.
  - destruct (String.eqb (fst kv) key) eqn:E; cbn [find fst snd].
    + apply String.eqb_eq in E. rewrite E, Hk. reflexivity.
    + destruct (String.eqb (fst kv) other); [reflexivity|exact IH].
Qed.

Lemma assign_keys (key : string) (v : Board.Style) (m : Board.Squares) (k : string) :
  In k (map fst (Board.assign key v m)) <-> k = key \/ In k (map fst m).
Proof.
  induction m as [|kv rest IH]; cbn [Board.assign].
  - cbn. intuition.
  - destruct (String.eqb (fst kv) key) eqn:E; cbn [map In fst].
    + apply String.eqb_eq in E. rewrite E. intuition.
    + rewrite IH. intuition.
Qed.

Lemma assign_keeps_keys_apart (key : string) (v : Board.Style) (m : Board.Squares) :
  NoDup (map fst m) -> NoDup (map fst (Board.assign key v m)).
Proof.
  induction m as [|kv rest IH]; cbn [Board.assign]; intros Hm.
  - cbn. constructor; [intros []|constructor].
  - cbn [map] in Hm. inversion Hm as [|x l Hnot Hrest]; subst.
    destruct (String.eqb (fst kv) key) eqn:E; cbn [map fst].
    + apply String.eqb_eq in E. rewrite <- E. constructor; assumption.
    + constructor; [|apply IH; exact Hrest].
      rewrite assign_keys. intros [Hk|Hk]; [|exact (Hnot Hk)].
      apply String.eqb_neq in E. exact (E Hk).
Qed.

Lemma hint_value (g : Chess.t) (square to : string) (h : Board.Style) :
  Board.hint g square to = Board.done h ->
  h = if Board.enemy_on g square to then Board.capture_hint else Board.move_hint.
Proof.
  unfold Board.hint, Board.enemy_on.
  destruct (Rules.get g to) as [target|].
  - destruct (Rules.get g square) as [own|]; [|discriminate].
    intros H. injection H as <-.
    destruct (Side_eqb (Rules.color target) (Rules.color own)); reflexivity.
  - intros H. injection H as <-. reflexivity.
Qed.

Lemma hints_spec (g : Chess.t) (square : string) (moves : list string)
    (acc res : Board.Squares) :
  Board.hints g square moves acc = Board.done res ->
  (forall k, In k moves ->
     Board.style_of k res
     = Some (if Board.enemy_on g square k then Board.capture_hint else Board.move_hint))
  /\ (forall k, ~ In k moves -> Board.style_of k res = Board.style_of k acc)
  /\ (forall k, In k (map fst res) <-> In k moves \/ In k (map fst acc))
  /\ (NoDup (map fst acc) -> NoDup (map fst res)).
Proof.
  revert acc. induction moves as [|to rest IH]; intros acc; cbn [Board.hints].
  - intros H. injection H as <-. repeat split; auto.
    + intros k [].
    + intros [[]|H]; exact H.
  - destruct (Board.hint g square to) as [h|] eqn:Hh; [|discriminate].
    intros Hres. destruct (IH _ Hres) as (Hin & Hout & Hkeys & Hnd).
    pose proof (hint_value g square to h Hh) as Hv.
    split; [|split; [|split]].
    + intros k Hk. destruct (in_dec string_dec k rest) as [Hr|Hr]; [exact (Hin k Hr)|].
      destruct Hk as [<-|Hk]; [|contradiction].
      rewrite (Hout to Hr), style_of_assign_same, Hv. reflexivity.
    + intros k Hk. cbn [In] in Hk.
      rewrite (Hout k (fun H => Hk (or_intror H))).
      apply style_of_assign_other. intros ->. apply Hk. left. reflexivity.
    + intros k. rewrite Hkeys, assign_keys. cbn [In]. intuition.
    + intros Hacc. apply Hnd. apply assign_keeps_keys_apart. exact Hacc.
Qed.

(** X16 (what a selection highlights).  When [getMoveOptions] returns, it
    returns [true] exactly when the square has moves; without moves no
    square has a background; with moves the squares with a background
    are the square itself, marked as selected, and the destinations of
    its moves, each once, marked as a capture exactly when a piece of
    the other colour stands there. *)
Theorem hints_cover_destinations
    (g : Chess.t) (square : string) (squares : Board.Squares) (result : bool) :
  Board.getMoveOptions g square = Board.done (squares, result) ->
  (result = true <-> Rules.moves g square <> [])
  /\ (Rules.moves g square = [] -> squares = [])
  /\ (Rules.moves g square <> [] ->
      Board.style_of square squares = Some Board.selected
      /\ (forall k, k <> square -> In k (Rules.moves g square) ->
            Board.style_of k squares
            = Some (if Board.enemy_on g square k
                    then Board.capture_hint else Board.move_hint))
      /\ (forall k, k <> square -> ~ In k (Rules.moves g square) ->
            Board.style_of k squares = None))
  /\ (forall k, In k (map fst squares) <->
        Rules.moves g square <> [] /\ (k = square \/ In k (Rules.moves g square)))
  /\ NoDup (map fst squares).
Proof.
  unfold Board.getMoveOptions.
  destruct (Rules.moves g square) as [|to rest] eqn:Hm.
  - intros H. injection H as <- <-.
    split; [split; [discriminate|intros H; now elim H]|].
    split; [reflexivity|]. split; [intros H; now elim H|].
    split; [|constructor].
    intros k. cbn. split; [intros []|intros [H _]; now elim H].
  - destruct (Board.hints g square (to :: rest) []) as [res|] eqn:Hh; [|discriminate].
    intros H. injection H as <- <-.
    destruct (hints_spec _ _ _ _ _ Hh) as (Hin & Hout & Hkeys & Hnd).
    split; [split; [discriminate|reflexivity]|].
    split; [discriminate|]. split.
    + intros _. split; [apply style_of_assign_same|]. split.
      * intros k Hne Hk. rewrite style_of_assign_other by exact Hne. apply Hin. exact Hk.
      * intros k Hne Hk. rewrite style_of_assign_other by exact Hne.
        rewrite (Hout k Hk). reflexivity.
    + split.
      * intros k. rewrite assign_keys, Hkeys. cbn [map In].
        split; [intros [Hk|[Hk|[]]]|intros [_ [Hk|Hk]]]; auto.
        -- split; [discriminate|auto].
        -- split; [discriminate|auto].
      * apply assign_keeps_keys_apart. apply Hnd. constructor.
Qed.

Lemma select_fits (st : Board.State) (square : string) (st' : Board.State)
    (calls : list Board.Call) :
  Board.select st square = Board.done (st', calls) ->
  Board.hints_fit st' /\ calls = [] /\ Board.game st' = Board.game st.
Proof.
  unfold Board.select.
  destruct (Rules.get (Board.game st) square) as [p|].
  - destruct (Side_eqb _ _).
    + destruct (Board.getMoveOptions (Board.game st) square) as [[squares b0]|] eqn:Hg;
        [|discriminate].
      intros H. injection H as <- <-. split; [|split; reflexivity].
      unfold Board.hints_fit. cbn [Board.moveFrom Board.game Board.optionSquares].
      exists b0. exact Hg.
    + intros H. injection H as <- <-. repeat split.
  - intros H. injection H as <- <-. repeat split.
Qed.

Lemma click_fits (props : Board.Props) (parent : string -> string -> string -> bool)
    (st : Board.State) (square : string) (st' : Board.State) (calls : list Board.Call) :
  Board.hints_fit st ->
  Board.onSquareClick props parent st square = Board.done (st', calls) ->
  Board.hints_fit st'.
Proof.
  intros Hfit. unfold Board.onSquareClick.
  destruct (negb _); [intros H; injection H as <- <-; exact Hfit|].
  destruct (Board.moveFrom st) as [from|]; [|intros H; exact (proj1 (select_fits _ _ _ _ H))].
  destruct (String.eqb from ""); [intros H; exact (proj1 (select_fits _ _ _ _ H))|].
  destruct (find _ _).
  - destruct (Rules.get _ from) as [p|]; [|discriminate].
    destruct (Chess.new (Chess.fen _)) as [fresh|]; [|discriminate].
    destruct (Chess.move fresh _) as [gameCopy|]; [|discriminate].
    destruct (parent _ _ _).
    + intros H. injection H as <- <-. reflexivity.
    + destruct (Chess.new (Board.fen props)); [|discriminate].
      intros H. injection H as <- <-. reflexivity.
  - destruct (String.eqb from square).
    + intros H. injection H as <- <-. reflexivity.
    + intros H. exact (proj1 (select_fits _ _ _ _ H)).
Qed.

(** X17 (the hints follow the selection).  In every state a mounted board
    gets into, through renders with any props, clicks, drags and drops
    with any parent, the squares with a background are those of the
    selected square in the position the board shows, and there is
    none without a selected square. *)
Theorem hints_follow_selection (st : Board.State) :
  Board.reachable st -> Board.hints_fit st.
Proof.
  induction 1 as [props st Hm
                 |props next st st' _ IH Hr
                 |props parent st square st' calls _ IH Hc
                 |props st pc sourceSq st' _ IH Hd
                 |st _ IH
                 |parent st source target pc _ IH].
  - unfold Board.mount in Hm. destruct (Chess.new _); [|discriminate].
    injection Hm as <-. reflexivity.
  - unfold Board.render in Hr. destruct (Chess.new (Board.fen next)) eqn:Hn; [|discriminate].
    injection Hr as <-. destruct (String.eqb _ _); [exact IH|].
    unfold Board.sync. rewrite Hn. reflexivity.
  - exact (click_fits _ _ _ _ _ _ IH Hc).
  - unfold Board.onPieceDragBegin in Hd.
    destruct (negb _); [injection Hd as <-; exact IH|].
    destruct pc as [|pieceColor rest]; [injection Hd as <-; exact IH|].
    destruct (String.eqb _ _); [|injection Hd as <-; exact IH].
    destruct (Board.getMoveOptions _ _) as [[squares b0]|] eqn:Hg; [|discriminate].
    injection Hd as <-. exists b0. exact Hg.
  - exact IH.
  - unfold Board.onPieceDrop. destruct (parent _ _ _); [reflexivity|exact IH].
Qed.

Lemma pieceString_length (p : Rules.Piece) : String.length (Board.pieceString p) = 2%nat.
Proof. destruct p as [[] []]; reflexivity. Qed.

Lemma click_cases
    (props : Board.Props) (parent : string -> string -> string -> bool)
    (st : Board.State) (square : string) (st' : Board.State) (calls : list Board.Call) :
  Board.onSquareClick props parent st square = Board.done (st', calls) ->
  (calls = [] /\ Board.game st' = Board.game st)
  \/ (exists from p fresh gameCopy,
        Board.arePiecesDraggable props = true
        /\ Board.moveFrom st = Some from
        /\ In square (Rules.moves (Board.game st) from)
        /\ Rules.get (Board.game st) from = Some p
        /\ Chess.new (Chess.fen (Board.game st)) = Some fresh
        /\ Chess.move fresh (Chess.mkMove from square "q") = Some gameCopy
        /\ calls = [Board.mkCall from square (Board.pieceString p)]
        /\ Board.moveFrom st' = None
        /\ Board.optionSquares st' = []
        /\ if parent from square (Board.pieceString p)
           then Board.game st' = gameCopy
           else Chess.new (Board.fen props) = Some (Board.game st')).
Proof.
  unfold Board.onSquareClick.
  assert (Hsel : Board.select st square = Board.done (st', calls) ->
                 calls = [] /\ Board.game st' = Board.game st).
  { intros H. destruct (select_fits _ _ _ _ H) as (_ & Hc & Hg). split; assumption. }
  destruct (Board.arePiecesDraggable props) eqn:Hdrag; cbn [negb].
  2:{ intros H. injection H as <- <-. left. split; reflexivity. }
  destruct (Board.moveFrom st) as [from|] eqn:Hfrom; [|intros H; left; exact (Hsel H)].
  destruct (String.eqb from "") eqn:Hempty; [intros H; left; exact (Hsel H)|].
  destruct (find _ _) as [to|] eqn:Hfind.
  - apply find_some in Hfind as [Hin Heq]. apply String.eqb_eq in Heq. subst to.
    destruct (Rules.get _ from) as [p|] eqn:Hget; [|discriminate].
    destruct (Chess.new (Chess.fen _)) as [fresh|] eqn:Hnew; [|discriminate].
    destruct (Chess.move fresh _) as [gameCopy|] eqn:Hmove; [|discriminate].
    destruct (parent from square (Board.pieceString p)) eqn:Hp.
    + intros H. injection H as <- <-. right. exists from, p, fresh, gameCopy.
      rewrite Hp. repeat split; assumption.
    + destruct (Chess.new (Board.fen props)) as [reverted|] eqn:Hrev; [|discriminate].
      intros H. injection H as <- <-. right. exists from, p, fresh, gameCopy.
      rewrite Hp. repeat split; assumption.
  - destruct (String.eqb from square); [|intros H; left; exact (Hsel H)].
    intros H. injection H as <- <-. left. split; reflexivity.
Qed.

(** X18 (what a click submits).  A click calls the parent at most once,
    and only on a board whose pieces may be moved, with a square
    selected before: the call names the selected square, the clicked
    square, which is a destination of a move from the selected one,
    and the colour letter and upper-case symbol of the piece that
    stands on the selected square.  The board has then played the
    move with a queen as the promotion piece, shows the result if the
    parent accepts and the position of its props if not, and has no
    selection left.  A click that submits nothing leaves the position
    shown as it is. *)
Theorem click_submits_listed_moves_only
    (props : Board.Props) (parent : string -> string -> string -> bool)
    (st : Board.State) (square : string) (st' : Board.State) (calls : list Board.Call) :
  Board.onSquareClick props parent st square = Board.done (st', calls) ->
  (length calls <= 1)%nat
  /\ (calls = [] -> Board.game st' = Board.game st)
  /\ (forall c, In c calls ->
        Board.arePiecesDraggable props = true
        /\ Board.moveFrom st = Some (Board.sourceSquare c)
        /\ Board.targetSquare c = square
        /\ In square (Rules.moves (Board.game st) (Board.sourceSquare c))
        /\ (exists p, Rules.get (Board.game st) (Board.sourceSquare c) = Some p
                      /\ Board.piece c = Board.pieceString p)
        /\ String.length (Board.piece c) = 2%nat
        /\ Board.moveFrom st' = None
        /\ Board.optionSquares st' = []
        /\ (exists fresh gameCopy,
              Chess.new (Chess.fen (Board.game st)) = Some fresh
              /\ Chess.move fresh (Chess.mkMove (Board.sourceSquare c) square "q")
                 = Some gameCopy
              /\ if parent (Board.sourceSquare c) square (Board.piece c)
                 then Board.game st' = gameCopy
                 else Chess.new (Board.fen props) = Some (Board.game st'))).
Proof.
  intros Hclick.
  destruct (click_cases _ _ _ _ _ _ Hclick)
    as [[-> Hg]|(from & p & fresh & gameCopy & Hd & Hf & Hin & Hget & Hnew & Hmove
                 & -> & Hm & Ho & Hp)].
  - split; [apply Nat.le_0_l|]. split; [intros _; exact Hg|intros c []].
  - split; [apply Nat.le_refl|]. split; [discriminate|].
    intros c [<-|[]]. cbn [Board.sourceSquare Board.targetSquare Board.piece].
    split; [exact Hd|]. split; [exact Hf|]. split; [reflexivity|].
    split; [exact Hin|]. split; [exists p; split; [exact Hget|reflexivity]|].
    split; [apply pieceString_length|]. split; [exact Hm|]. split; [exact Ho|].
    exists fresh, gameCopy. split; [exact Hnew|]. split; [exact Hmove|exact Hp].
Qed.

(** A board that may not be moved on does nothing: clicks and drags
    leave the state as it is and nothing is submitted; and a drag of
    a piece of the side that is not to move, or that ends, changes
    nothing either. *)
Lemma locked_board_is_inert
    (props : Board.Props) (parent : string -> string -> string -> bool)
    (st : Board.State) (square pc : string) :
  (Board.arePiecesDraggable props = false ->
   Board.onSquareClick props parent st square = Board.done (st, [])
   /\ Board.onPieceDragBegin props st pc square = Board.done st)
  /\ (forall st', Board.onPieceDragBegin props st pc square = Board.done st' ->
        st' <> st ->
        Board.arePiecesDraggable props = true
        /\ Board.moveFrom st' = Some square
        /\ Board.game st' = Board.game st
        /\ exists rest,
             pc = (Rules.colour_letter (Chess.turn (Board.game st)) ++ rest)%string).
Proof.
  split.
  - intros Hd. unfold Board.onSquareClick, Board.onPieceDragBegin. rewrite Hd.
    split; reflexivity.
  - intros st'. unfold Board.onPieceDragBegin.
    destruct (Board.arePiecesDraggable props); cbn [negb].
    2:{ intros H Hne. injection H as <-. now elim Hne. }
    destruct pc as [|pieceColor rest]; [intros H Hne; injection H as <-; now elim Hne|].
    destruct (String.eqb _ _) eqn:E; [|intros H Hne; injection H as <-; now elim Hne].
    destruct (Board.getMoveOptions _ _) as [[squares b0]|]; [|discriminate].
    intros H _. injection H as <-. repeat split.
    exists rest. apply String.eqb_eq in E. rewrite E. reflexivity.
Qed.

End BoardFacts.

Section BoardInRoom.

Context {O : Chess.Oracle} {V : Rules.Views}.
Variable gameId : option string.

(** X19 (the board's own move and the room's).  The room renders the
    board and the board shows the room's position.  A click that
    submits a move is accepted by the first version of the room
    exactly when it is the player's turn and the game is not waiting
    for an opponent: the room never finds a move made by clicking
    illegal.  When it accepts, the room's mirror is the very object
    the board has played the move on, so both show the same
    position; when it refuses, the room has written nothing and
    keeps its mirror, and the board is back at the position of its
    props. *)
Theorem click_move_in_room
    (r : Room) (st st' : Board.State) (square : string) (c : Board.Call) :
  Chess.fen (Board.game st) = Chess.fen (game r) ->
  Board.onSquareClick (board_props r)
    (fun a z pc => fst (GameRoom.onPieceDrop gameId r a z pc)) st square
    = Board.done (st', [c]) ->
  let res := GameRoom.onPieceDrop gameId r
               (Board.sourceSquare c) (Board.targetSquare c) (Board.piece c) in
  let r' := run r (snd res) in
  (fst res = true <-> isMyTurn r = true /\ status_is (gameState r) waiting = false)
  /\ (fst res = true ->
      game r' = Board.game st' /\ Board.position st' = board_fen r')
  /\ (fst res = false ->
      writes (snd res) = [] /\ game r' = game r
      /\ Chess.new (board_fen r) = Some (Board.game st')).
Proof.
  intros Hfen Hclick.
  destruct (click_cases _ _ _ _ _ _ Hclick)
    as [[Hnil _]|(from & p & fresh & gameCopy & Hdrag & _ & _ & _ & Hnew & Hmove
                  & Hc & _ & _ & Hpar)]; [discriminate Hnil|].
  injection Hc as ->. cbn [Board.sourceSquare Board.targetSquare Board.piece].
  cbv zeta.
  cbn [board_props Board.fen Board.arePiecesDraggable] in Hdrag, Hpar.
  rewrite Hfen in Hnew.
  assert (Hsym : forall x y, Side_eqb x y = Side_eqb y x) by (intros [] []; reflexivity).
  unfold arePiecesDraggable in Hdrag. apply andb_prop in Hdrag as [Hfin Hrole].
  apply negb_true_iff in Hfin.
  revert Hpar. unfold GameRoom.onPieceDrop, isMyTurn, Role_is.
  destruct (playerRole r) as [s|]; [|discriminate Hrole].
  rewrite Hfin, (Hsym (Chess.turn (game r)) s).
  destruct (Side_eqb s (Chess.turn (game r))); cbn [negb andb].
  2:{ intros Hpar. cbn [fst snd]. split.
      - split; [discriminate|intros [H _]; discriminate H].
      - split; [discriminate|]. intros _. repeat split. exact Hpar. }
  destruct (status_is (gameState r) waiting).
  { intros Hpar. cbn [fst snd]. split.
    - split; [discriminate|intros [_ H]; discriminate H].
    - split; [discriminate|]. intros _. repeat split. exact Hpar. }
  rewrite Hnew. unfold GameRoom.candidate. rewrite Hmove. cbn [fst snd].
  intros Hpar. split; [split; [intros _; split; reflexivity|reflexivity]|].
  split; [|discriminate]. intros _. unfold Board.position, board_fen.
  rewrite Hpar. split; reflexivity.
Qed.

End BoardInRoom.

(** White's board at the start: a click on f2 selects the pawn and
    marks f3 and f4. *)
Lemma hints_cover_destinations_witness :
  Board.style_of "f2" [("f3", Board.move_hint); ("f4", Board.move_hint); ("f2", Board.selected)]
    = Some Board.selected
  /\ Board.getMoveOptions (V := SampleViews.views) (Sample.object Sample.p0 []) "f2"
     = Board.done ([("f3", Board.move_hint); ("f4", Board.move_hint);
                    ("f2", Board.selected)], true).
Proof.
  assert (H : Board.getMoveOptions (V := SampleViews.views) (Sample.object Sample.p0 []) "f2"
              = Board.done ([("f3", Board.move_hint); ("f4", Board.move_hint);
                             ("f2", Board.selected)], true)) by reflexivity.
  split; [|exact H].
  destruct (hints_cover_destinations (V := SampleViews.views) _ _ _ _ H)
    as (_ & _ & Hs & _).
  apply Hs. discriminate.
Defined.

(** The board after white has clicked on f2. *)
Lemma hints_follow_selection_witness :
  Board.hints_fit (V := SampleViews.views)
    (Board.mkState (Sample.object Sample.p0 []) (Some "f2")
       [("f3", Board.move_hint); ("f4", Board.move_hint); ("f2", Board.selected)]).
Proof.
  apply (hints_follow_selection (V := SampleViews.views)).
  apply (Board.after_click (Board.mkProps Sample.p0 true white) (fun _ _ _ => true)
           (Board.mkState (Sample.object Sample.p0 []) None []) "f2" _ []).
  - apply (Board.at_mount (Board.mkProps Sample.p0 true white)). reflexivity.
  - reflexivity.
Defined.

(** White clicks on f2 and then on f3. *)
Lemma click_submits_listed_moves_only_witness :
  let st := Board.mkState (Sample.object Sample.p0 []) (Some "f2")
              [("f3", Board.move_hint); ("f4", Board.move_hint); ("f2", Board.selected)] in
  Board.onSquareClick (V := SampleViews.views) (Board.mkProps Sample.p0 true white)
    (fun _ _ _ => true) st "f3"
  = Board.done (Board.mkState (Sample.object Sample.p1 [Chess.mkMove "f2" "f3" "q"]) None [],
                [Board.mkCall "f2" "f3" "wP"])
  /\ In "f3" (@Rules.moves _ SampleViews.views (Sample.object Sample.p0 []) "f2").
Proof.
  intros st.
  assert (H : Board.onSquareClick (V := SampleViews.views) (Board.mkProps Sample.p0 true white)
                (fun _ _ _ => true) st "f3"
              = Board.done (Board.mkState (Sample.object Sample.p1 [Chess.mkMove "f2" "f3" "q"])
                              None [],
                            [Board.mkCall "f2" "f3" "wP"])) by reflexivity.
  split; [exact H|].
  destruct (click_submits_listed_moves_only (V := SampleViews.views) _ _ _ _ _ _ H)
    as (_ & _ & Hc).
  destruct (Hc (Board.mkCall "f2" "f3" "wP") (or_introl eq_refl)) as (_ & _ & _ & Hin & _).
  exact Hin.
Defined.

(** A spectator's board. *)
Lemma locked_board_is_inert_witness :
  Board.onSquareClick (V := SampleViews.views) (Board.mkProps Sample.p0 false white)
    (fun _ _ _ => true) (Board.mkState (Sample.object Sample.p0 []) None []) "f2"
  = Board.done (Board.mkState (Sample.object Sample.p0 []) None [], []).
Proof.
  apply (proj1 (locked_board_is_inert (V := SampleViews.views)
                  (Board.mkProps Sample.p0 false white) (fun _ _ _ => true)
                  (Board.mkState (Sample.object Sample.p0 []) None []) "f2" "wP")).
  reflexivity.
Defined.

(** White's click on f3 in the room of the examples: the room accepts
    and its mirror is the board's object. *)
Lemma click_move_in_room_witness :
  let r := Scenes.seated (player w) active in
  let st := Board.mkState (Sample.object Sample.p0 []) (Some "f2")
              [("f3", Board.move_hint); ("f4", Board.move_hint); ("f2", Board.selected)] in
  let res := GameRoom.onPieceDrop (O := Sample.rules) (Some "4821") r "f2" "f3" "wP" in
  fst res = true
  /\ game (run r (snd res)) = Sample.object Sample.p1 [Chess.mkMove "f2" "f3" "q"].
Proof.
  intros r st res.
  destruct (click_move_in_room (V := SampleViews.views) (Some "4821") r st
              (Board.mkState (Sample.object Sample.p1 [Chess.mkMove "f2" "f3" "q"]) None [])
              "f3" (Board.mkCall "f2" "f3" "wP") eq_refl eq_refl) as (Hacc & Hsame & _).
  assert (Ht : fst res = true) by (apply Hacc; split; reflexivity).
  split; [exact Ht|]. exact (proj1 (Hsame Ht)).
Defined.
